(** * A shallow embedding of [main.py]: the token-price comparison script

    The script fetches one price history per ticker from a pricing API,
    flattens the histories into one table, summarises every ticker
    (min / max / first / last price with their dates), derives price ratios and
    the profit of a fixed deposit, and hands the table to a chart.

    Layout of this development:
    - [Py]       exceptions and results;
    - [Num]      the Python scalar a float64 column meets;
    - [Frame]    DataFrames as objects of a store, and the store effect;
    - [Pandas]   the DataFrame operations of the Metric Calculator;
    - [Metric]   [calculate_price_ratio] and [calculate_profit];
    - [Json], [Date], [Table]
                 [historical_prices_to_df] and [make_table_df];
    - [Http], [Fetch]
                 [get_token_price_history] and [get_all_token_prices];
    - [Script]   [main];
    - [Summary]  the summary table read ticker by ticker;
    - [Examples] the scenarios the statements are run on;
    then the properties. *)

From Stdlib Require Import ZArith Floats List String Ascii Bool Lia.
From Stdlib Require Import Sorting.Permutation Sorting.Sorted.
From Stdlib Require Import Structures.OrderedTypeEx.
From stdpp Require Import base list strings pretty.

Local Open Scope Z_scope.
Local Open Scope string_scope.
Local Open Scope list_scope.

(** A decimal literal such as [0.9] stands for the binary64 nearest to it. *)
Set Warnings "-inexact-float".

(* ------------------------------------------------------------------------- *)
(** ** Exceptions, results and the object store *)

Module Py.

(** The exceptions the script and the libraries under it raise on the paths
    modelled here. [Exception] is the bare exception of
    [get_token_price_history] with its message. [NoSuchObject] is not a Python
    state: it is what the model answers for a reference the store does not
    hold. *)
Inductive exn : Type :=
| Exception (msg : string)
| KeyError (key : string)
| TypeError
| ValueError (what : string)
| OverflowError
| NoSuchObject.

Inductive result (A : Type) : Type :=
| Ok (a : A)
| Raise (e : exn).
Arguments Ok {A} a.
Arguments Raise {A} e.

Definition rbind {A B} (r : result A) (k : A -> result B) : result B :=
  match r with
  | Ok a => k a
  | Raise e => Raise e
  end.

(** [mapM]: a list comprehension whose body may raise; the first failure, in
    list order, is the one that propagates. *)
Fixpoint mapM {A B} (f : A -> result B) (l : list A) : result (list B) :=
  match l with
  | [] => Ok []
  | a :: l' =>
      rbind (f a) (fun b => rbind (mapM f l') (fun bs => Ok (b :: bs)))
  end.

End Py.
Export Py.

Declare Scope res_scope.
Delimit Scope res_scope with res.
Notation "'let?' x := r 'in' k" := (rbind r (fun x => k))
(at level 10, x pattern, r at level 100, k at level 200) : res_scope.
Local Open Scope res_scope.

(* ------------------------------------------------------------------------- *)
(** ** Numbers: a float64 column and the Python scalar it meets *)

Module Num.

(** Python converts an [int] operand to the nearest binary64 (ties to even)
    and raises [OverflowError] when that would be infinite: from
    [2^1024 - 2^970] on. *)
Definition float_of_int (z : Z) : result float :=
  if (Z.abs z <? 2 ^ 1024 - 2 ^ 970)%Z
  then Ok (SF2Prim (binary_normalize prec emax z 0 false))
  else Raise OverflowError.

(** numpy's [nanargmax] / [nanargmin] first replace NaN by the worst value. *)
Definition fillna (worst x : float) : float :=
  if PrimFloat.is_nan x then worst else x.

End Num.
Export Num.

(* ------------------------------------------------------------------------- *)
(** ** The store: DataFrames are objects, mutated in place *)

Module Frame.

(** A Timestamp at day resolution: days since 1970-01-01. *)
Definition Timestamp : Type := Z.

(** A column is homogeneous: float64 or datetime64. *)
Inductive Series : Type :=
| Float64 (xs : list float)
| Datetime64 (ts : list Timestamp).

(** Column labels of the summary table have two levels, e.g.
    [("price", "max")]; a column added by [df[key] = ...] to such a table gets
    the label [(key, "")]. *)
Definition label : Type := string * string.

Record DataFrame : Type := mkDataFrame {
  index : list string;
  columns : list (label * Series)
}.

(** What [df[key]] can be on two-level columns. *)
Inductive item : Type :=
| ISeries (s : Series)
| IFrame (cols : list (string * Series)).

(** References are positions in the store. *)
Abbreviation loc := nat (only parsing).
Abbreviation heap := (list DataFrame) (only parsing).

(** Computations that read and update the store and may raise. The store is
    kept on failure: an assignment made before the failure stays made. *)
Definition M (A : Type) : Type := heap -> heap * result A.

Definition ret {A} (a : A) : M A := fun h => (h, Ok a).
Definition bind {A B} (m : M A) (k : A -> M B) : M B :=
  fun h => match m h with
           | (h', Ok a) => k a h'
           | (h', Raise e) => (h', Raise e)
           end.
Definition lift {A} (r : result A) : M A := fun h => (h, r).

Definition deref (df : loc) : M DataFrame :=
  fun h => match h !! df with
           | Some t => (h, Ok t)
           | None => (h, Raise NoSuchObject)
           end.

Definition update (df : loc) (f : DataFrame -> DataFrame) : M unit :=
  fun h => match h !! df with
           | Some t => (<[df := f t]> h, Ok tt)
           | None => (h, Raise NoSuchObject)
           end.

(** A new object gets a reference no live object has. *)
Definition alloc (t : DataFrame) : M loc :=
  fun h => (h ++ [t], Ok (length h)).

End Frame.
Export Frame.

Declare Scope st_scope.
Delimit Scope st_scope with st.
Notation "'let!' x := m 'in' k" := (bind m (fun x => k))
  (at level 10, x pattern, m at level 100, k at level 200) : st_scope.
Notation "m ';;' k" := (bind m (fun _ => k))
  (at level 100, k at level 200, right associativity) : st_scope.
Local Open Scope st_scope.

(* ------------------------------------------------------------------------- *)
(** ** pandas operations used on the summary table *)

Module Pandas.

(** [columns.get_loc(key)] followed by [droplevel]: the columns whose first
    level is [key], under their second level. *)
Definition droplevel (key : string) (cols : list (label * Series))
  : list (string * Series) :=
  omap (fun c => if String.eqb (fst (fst c)) key
                 then Some (snd (fst c), snd c) else None) cols.

(** [df[key]] on two-level columns: [KeyError] without a match, the Series
    itself when the only match has the empty second level, a sub-frame
    otherwise. *)
Definition getitem (t : DataFrame) (key : string) : result item :=
  match droplevel key (columns t) with
  | [] => Raise (KeyError key)
  | [(EmptyString, s)] => Ok (ISeries s)
  | cols => Ok (IFrame cols)
  end.

(** [sub[key]] on the one-level columns of a sub-frame. Labels are distinct in
    every frame the script builds; on a frame with a repeated label the model
    takes the first. Asking a Series (rows labelled by tickers) for [key] finds
    no such row. *)
Definition getcol (it : item) (key : string) : result Series :=
  match it with
  | IFrame cols =>
      match find (fun c => String.eqb (fst c) key) cols with
      | Some c => Ok (snd c)
      | None => Raise (KeyError key)
      end
  | ISeries _ => Raise (KeyError key)
  end.

(** [df[key]] where a Series is expected, as in [df["r_last"] * deposit]. *)
Definition as_series (it : item) : result Series :=
  match it with
  | ISeries s => Ok s
  | IFrame _ => Raise TypeError
  end.

(** [df[key] = s]: every column under [key] is overwritten, and without one a
    new column [(key, "")] is appended after the others. *)
Definition setitem_columns (key : string) (s : Series)
  (cols : list (label * Series)) : list (label * Series) :=
  if existsb (fun c => String.eqb (fst (fst c)) key) cols
  then map (fun c => if String.eqb (fst (fst c)) key then (fst c, s) else c) cols
  else cols ++ [((key, ""), s)].

Definition setitem (df : loc) (key : string) (s : Series) : M unit :=
  update df (fun t => mkDataFrame (index t) (setitem_columns key s (columns t))).

(** [a / b] on two columns of one frame: element by element, IEEE 754, no
    exception on a zero divisor. *)
Definition truediv (a b : Series) : result Series :=
  match a, b with
  | Float64 xs, Float64 ys => Ok (Float64 (zip_with PrimFloat.div xs ys))
  | _, _ => Raise TypeError
  end.

(** [s * k] and [s - k] with a Python [int] [k]. *)
Definition mul_scalar (s : Series) (k : Z) : result Series :=
  match s with
  | Float64 xs =>
      let? f := float_of_int k in Ok (Float64 (map (fun x => PrimFloat.mul x f) xs))
  | Datetime64 _ => Raise TypeError
  end.

Definition sub_scalar (s : Series) (k : Z) : result Series :=
  match s with
  | Float64 xs =>
      let? f := float_of_int k in Ok (Float64 (map (fun x => PrimFloat.sub x f) xs))
  | Datetime64 _ => Raise TypeError
  end.

End Pandas.
Export Pandas.

(* ------------------------------------------------------------------------- *)
(** ** Metric Calculator *)

Module Metric.

(** [calculate_price_ratio(df)]: the right-hand side of each assignment is
    evaluated before the column is stored; the frame is updated in place and the
    same object is returned. *)
Definition calculate_price_ratio (df : loc) : M loc :=
  let! t := deref df in
  let! df_price := lift (getitem t "price") in
  let! last := lift (getcol df_price "last") in
  let! first := lift (getcol df_price "first") in
  let! r_last := lift (truediv last first) in
  setitem df "r_last" r_last ;;
  let! max := lift (getcol df_price "max") in
  let! first := lift (getcol df_price "first") in
  let! r_max := lift (truediv max first) in
  setitem df "r_max" r_max ;;
  ret df.

(** [calculate_profit(df, deposit)]. *)
Definition calculate_profit (df : loc) (deposit : Z) : M loc :=
  let! t := deref df in
  let! r_last := lift (let? it := getitem t "r_last" in as_series it) in
  let! m := lift (mul_scalar r_last deposit) in
  let! p_last := lift (sub_scalar m deposit) in
  setitem df "p_last" p_last ;;
  let! t := deref df in
  let! r_max := lift (let? it := getitem t "r_max" in as_series it) in
  let! m := lift (mul_scalar r_max deposit) in
  let! p_max := lift (sub_scalar m deposit) in
  setitem df "p_max" p_max ;;
  ret df.

End Metric.
Export Metric.

(* ------------------------------------------------------------------------- *)
(** ** The response body, as [resp.json()] returns it *)

Module Json.

(** Only the fields the script reads. [price] is a JSON number, or [null]
    ([None]); a number is the binary64 the decoder produces. *)
Record contract_metadata_t : Type := mkMeta {
  contract_ticker_symbol : string
}.

Record price_item : Type := mkItem {
  date : string;
  price : option float;
  contract_metadata : contract_metadata_t
}.

Record data_t : Type := mkData {
  prices : list price_item
}.

Record payload : Type := mkPayload {
  data : data_t
}.

End Json.

(* ------------------------------------------------------------------------- *)
(** ** Dates *)

Module Date.

Definition digit (c : ascii) : option Z :=
  let n := Z.of_nat (nat_of_ascii c) in
  if (48 <=? n)%Z && (n <=? 57)%Z then Some (n - 48)%Z else None.

Definition number (cs : list ascii) : option Z :=
  foldl (fun acc c =>
           match acc, digit c with
           | Some a, Some d => Some (10 * a + d)%Z
           | _, _ => None
           end) (Some 0%Z) cs.

Definition is_leap (y : Z) : bool :=
  ((y mod 4 =? 0) && negb (y mod 100 =? 0) || (y mod 400 =? 0))%Z.

Definition days_in_month (y m : Z) : Z :=
  if (m =? 2)%Z then (if is_leap y then 29 else 28)
  else if ((m =? 4) || (m =? 6) || (m =? 9) || (m =? 11))%Z then 30
  else 31.

(** Days from 1970-01-01 to the civil date [y-m-d] (proleptic Gregorian). *)
Definition days_from_civil (y m d : Z) : Z :=
  let y' := (if (m <=? 2)%Z then y - 1 else y)%Z in
  let era := (y' / 400)%Z in
  let yoe := (y' - era * 400)%Z in
  let mp := (if (m <=? 2)%Z then m + 9 else m - 3)%Z in
  let doy := ((153 * mp + 2) / 5 + d - 1)%Z in
  let doe := (yoe * 365 + yoe / 4 - yoe / 100 + doy)%Z in
  (era * 146097 + doe - 719468)%Z.

(** A Timestamp counts nanoseconds from 1970-01-01 in 64 bits: the midnights
    it holds are those of 1677-09-22 to 2262-04-11, day -106751 to day
    106751. *)
Definition MIN_DAY : Z := (-106751)%Z.
Definition MAX_DAY : Z := 106751%Z.

(** [pd.to_datetime] on the endpoint's date format, [YYYY-MM-DD]: the day of
    a calendar date a Timestamp holds. A date of that form that is not in the
    calendar, or not in the range of a Timestamp, raises (OutOfBoundsDatetime
    and ParserError are ValueErrors). pandas reads other spellings too (with
    a time of day, in another order of the fields; an empty string becomes
    NaT): they have no day number, the model raises for them, and what is
    proved of dates is proved of strings of this form only. *)
Definition to_datetime (s : string) : result Timestamp :=
  match list_ascii_of_string s with
  | [y1; y2; y3; y4; dash1; m1; m2; dash2; d1; d2] =>
      match number [y1; y2; y3; y4], number [m1; m2], number [d1; d2] with
      | Some y, Some m, Some d =>
          if Ascii.eqb dash1 "-" && Ascii.eqb dash2 "-"
             && (1 <=? m)%Z && (m <=? 12)%Z
             && (1 <=? d)%Z && (d <=? days_in_month y m)%Z
             && (MIN_DAY <=? days_from_civil y m d)%Z
             && (days_from_civil y m d <=? MAX_DAY)%Z
          then Ok (days_from_civil y m d)
          else Raise (ValueError s)
      | _, _, _ => Raise (ValueError s)
      end
  | _ => Raise (ValueError s)
  end.

End Date.
Export Date.

(* ------------------------------------------------------------------------- *)
(** ** Table Builder *)

Module Table.

(** A row of the working table; the table is the list of its rows and a row's
    index label is its position (pandas' RangeIndex). *)
Record row : Type := mkRow {
  date : Timestamp;
  price : float;
  ticker : string
}.

(** [json_normalize(token_prices, record_path=[["data", "prices"]])]: the
    records under [data.prices] of every payload, in list order. *)
Definition json_normalize (token_prices : list Json.payload)
  : list Json.price_item :=
  flat_map (fun p => Json.prices (Json.data p)) token_prices.

(** [pd.to_numeric] on one JSON value: numbers are returned as they are and
    [None] becomes NaN. *)
Definition to_numeric (v : option float) : float :=
  match v with
  | Some x => x
  | None => PrimFloat.nan
  end.

Definition wanted_columns : string :=
  "['date', 'price', 'contract_metadata.contract_ticker_symbol']".

Definition row_of_record (r : Json.price_item) : result row :=
  let? d := to_datetime (Json.date r) in
  Ok (mkRow d (to_numeric (Json.price r))
        (Json.contract_ticker_symbol (Json.contract_metadata r))).

(** [historical_prices_to_df(token_prices)]. Without a single record the
    normalized frame has no columns and selecting the three columns raises. *)
Definition historical_prices_to_df (token_prices : list Json.payload)
  : result (list row) :=
  match json_normalize token_prices with
  | [] => Raise (KeyError wanted_columns)
  | records => mapM row_of_record records
  end.

(** *** groupby *)

Fixpoint insert_key (k : string) (keys : list string) : list string :=
  match keys with
  | [] => [k]
  | x :: keys' =>
      match String.compare k x with
      | Lt => k :: keys
      | Eq => keys
      | Gt => x :: insert_key k keys'
      end
  end.

(** The group keys: the distinct tickers, ascending. *)
Definition group_keys (tickers : list string) : list string :=
  foldr insert_key [] tickers.

(** [groupby("ticker")]: one group per key, the rows of a group in the order
    they have in the frame. [key] reads the ticker of a row, which may travel
    with its index label. *)
Definition groupby {A} (key : A -> string) (df : list A)
  : list (string * list A) :=
  map (fun k => (k, List.filter (fun a => String.eqb (key a) k) df))
      (group_keys (map key df)).

Definition labelled (df : list row) : list (nat * row) :=
  imap (fun i r => (i, r)) df.

(** *** idxmax / idxmin *)

(** numpy's [argmax]: the label of the first maximal entry. *)
Fixpoint argmax_from (bi : nat) (b : float) (l : list (nat * float)) : nat :=
  match l with
  | [] => bi
  | (i, x) :: l' =>
      if PrimFloat.ltb b x then argmax_from i x l' else argmax_from bi b l'
  end.

Fixpoint argmin_from (bi : nat) (b : float) (l : list (nat * float)) : nat :=
  match l with
  | [] => bi
  | (i, x) :: l' =>
      if PrimFloat.ltb x b then argmin_from i x l' else argmin_from bi b l'
  end.

(** [Series.idxmax()] of one group, NaN skipped: NaN is replaced by -inf before
    [argmax]. A group of NaN only has no label (NaN), on which the later
    [df.loc[...]] raises. *)
Definition idxmax (g : list (nat * row)) : result nat :=
  if forallb (fun ir => PrimFloat.is_nan (price (snd ir))) g
  then Raise (KeyError "nan")
  else
    match map (fun ir => (fst ir, fillna neg_infinity (price (snd ir)))) g with
    | [] => Raise (KeyError "nan")
    | (i, x) :: l => Ok (argmax_from i x l)
    end.

Definition idxmin (g : list (nat * row)) : result nat :=
  if forallb (fun ir => PrimFloat.is_nan (price (snd ir))) g
  then Raise (KeyError "nan")
  else
    match map (fun ir => (fst ir, fillna infinity (price (snd ir)))) g with
    | [] => Raise (KeyError "nan")
    | (i, x) :: l => Ok (argmin_from i x l)
    end.

(** [df.loc[labels]]: the rows with the given labels, in the order given. *)
Definition loc_row (df : list row) (i : nat) : result row :=
  match df !! i with
  | Some r => Ok r
  | None => Raise (KeyError "label")
  end.

Definition loc_rows (df : list row) (labels : list nat) : result (list row) :=
  mapM (loc_row df) labels.

(** A small frame indexed by ticker with one-level columns. *)
Record frame1 : Type := mkFrame1 {
  index1 : list string;
  columns1 : list (string * Series)
}.

(** [.set_index("ticker")] on rows picked from the working table. *)
Definition set_index_ticker (rows : list row) : frame1 :=
  mkFrame1 (map ticker rows)
    [("date", Datetime64 (map date rows)); ("price", Float64 (map price rows))].

(** [pd.concat([a, b], axis=1, keys=[ka, kb])] of two frames with one index:
    the key becomes the first level of the column labels. *)
Definition concat_keys (ka : string) (a : frame1) (kb : string) (b : frame1)
  : DataFrame :=
  mkDataFrame (index1 a)
    (map (fun c => ((ka, fst c), snd c)) (columns1 a)
     ++ map (fun c => ((kb, fst c), snd c)) (columns1 b)).

Definition swaplevel (t : DataFrame) : DataFrame :=
  mkDataFrame (index t)
    (map (fun c => ((snd (fst c), fst (fst c)), snd c)) (columns t)).

(** Column labels are ordered as tuples of strings. *)
Definition label_leb (a b : label) : bool :=
  match String.compare (fst a) (fst b) with
  | Lt => true
  | Gt => false
  | Eq => String.leb (snd a) (snd b)
  end.

Fixpoint insert_column (c : label * Series) (cols : list (label * Series))
  : list (label * Series) :=
  match cols with
  | [] => [c]
  | x :: cols' =>
      if label_leb (fst c) (fst x) then c :: cols else x :: insert_column c cols'
  end.

(** [.sort_index(1)]: the columns in ascending label order. *)
Definition sort_index (t : DataFrame) : DataFrame :=
  mkDataFrame (index t) (foldr insert_column [] (columns t)).

(** [a.join(b)] of two frames with one index: the columns of [b] after those
    of [a]. *)
Definition join (a b : DataFrame) : DataFrame :=
  mkDataFrame (index a) (columns a ++ columns b).

(** *** first / last *)

(** [first] and [last] of a float column of a group skip NaN. *)
Definition first_valid (xs : list float) : float :=
  match List.filter (fun x => negb (PrimFloat.is_nan x)) xs with
  | x :: _ => x
  | [] => PrimFloat.nan
  end.

Definition last_valid (xs : list float) : float := first_valid (rev xs).

(** [DataFrame.sort_values("date")] uses quicksort, which is not stable: rows
    of equal date come out in an order the script does not control. The model
    takes the sort as a parameter: any function that returns its argument
    rearranged into ascending date order. *)
Class SortKind : Type := mkSortKind {
  sort_values : list row -> list row;
  sort_values_perm : forall df, Permutation (sort_values df) df;
  sort_values_sorted :
    forall df, StronglySorted (fun a b => (date a <= date b)%Z) (sort_values df)
}.

(** [.groupby(by="ticker").agg(["first", "last"])] on the date-sorted frame.
    A group has at least one row, so the defaults of [hd] and [last] are never
    taken. *)
Definition agg_first_last (g : list (string * list row)) : DataFrame :=
  let dates := map (fun kg => map date (snd kg)) g in
  let prices := map (fun kg => map price (snd kg)) g in
  mkDataFrame (map fst g)
    [ (("date", "first"), Datetime64 (map (fun ts => hd 0%Z ts) dates));
      (("date", "last"), Datetime64 (map (fun ts => List.last ts 0%Z) dates));
      (("price", "first"), Float64 (map first_valid prices));
      (("price", "last"), Float64 (map last_valid prices)) ].

(** [make_table_df(df)]: builds a new frame, the argument is only read. *)
Definition make_table_df `{SortKind} (df : list row) : M loc :=
  let groups := groupby (fun ir => ticker (snd ir)) (labelled df) in
  let! imax := lift (mapM (fun kg => idxmax (snd kg)) groups) in
  let! rmax := lift (loc_rows df imax) in
  let df_max := set_index_ticker rmax in
  let! imin := lift (mapM (fun kg => idxmin (snd kg)) groups) in
  let! rmin := lift (loc_rows df imin) in
  let df_min := set_index_ticker rmin in
  let df_min_max := concat_keys "min" df_min "max" df_max in
  let df_min_max := sort_index (swaplevel df_min_max) in
  let df_first_last := agg_first_last (groupby ticker (sort_values df)) in
  alloc (sort_index (join df_min_max df_first_last)).

End Table.
Export Table.

(* ------------------------------------------------------------------------- *)
(** ** Price Fetcher *)

Module Http.

Record Request : Type := mkRequest {
  url : string;
  params : list (string * string)
}.

(** A response: its status and the decoded body. *)
Record Response : Type := mkResponse {
  status_code : Z;
  json : Json.payload
}.

End Http.

Module Fetch.

(** A coroutine either has finished, with a value or an exception, or is
    suspended on a GET whose response resumes it. What else can end the wait
    of line 34 is left out: the timeout of the client, a connection that
    fails, a body that is not JSON. A batch that is [Waiting] below is one
    whose responses have not all come in yet, not one that can stay so. *)
Inductive coro (A : Type) : Type :=
| Return (r : result A)
| Await (rq : Http.Request) (k : Http.Response -> coro A).
Arguments Return {A} r.
Arguments Await {A} rq k.

Section Endpoint.

(** [API_KEY] is read from the environment when the module is loaded. *)
Variable API_KEY : string.

Definition HISTORICAL_PRICE_ENDPOINT (TICKER : string) : string :=
  "https://api.covalenthq.com/v1/pricing/historical/USD/" ++ TICKER ++ "/".

Definition request (ticker from_date to_date : string) : Http.Request :=
  Http.mkRequest (HISTORICAL_PRICE_ENDPOINT ticker)
    [("key", API_KEY); ("from", from_date); ("to", to_date)].

Definition failure_message (ticker : string) (status_code : Z) : string :=
  "ticker: " ++ ticker ++ ", status_code: " ++ pretty status_code.

(** The lines after the [await]: the status check on the response. The script
    tests [status_code is not 200]; on integers this small CPython's identity
    is equality. *)
Definition check_response (ticker : string) (resp : Http.Response)
  : coro Json.payload :=
  if negb (Http.status_code resp =? 200)%Z
  then Return (Raise (Exception (failure_message ticker (Http.status_code resp))))
  else Return (Ok (Http.json resp)).

(** [get_token_price_history(ticker, from_date, to_date)]. *)
Definition get_token_price_history (ticker from_date to_date : string)
  : coro Json.payload :=
  Await (request ticker from_date to_date) (check_response ticker).

End Endpoint.

(** *** [asyncio.gather] *)

(** A task of the event loop: waiting for the response to [rq], or done. *)
Inductive task (A : Type) : Type :=
| Pending (rq : Http.Request) (k : Http.Response -> coro A)
| Done (a : A).
Arguments Pending {A} rq k.
Arguments Done {A} a.

(** What the awaiting caller sees: a result, or nothing yet. *)
Inductive outcome (A : Type) : Type :=
| Finished (r : result A)
| Waiting.
Arguments Finished {A} r.
Arguments Waiting {A}.

Section Loop.

Context {A : Type}.

(** The remote side: the response each request gets. *)
Variable server : Http.Request -> Http.Response.

(** Running a coroutine up to its next suspension: the request it issues, if
    any, and the task it becomes, unless it raised. *)
Definition advance (c : coro A) : list Http.Request * result (task A) :=
  match c with
  | Return (Ok a) => ([], Ok (Done a))
  | Return (Raise e) => ([], Raise e)
  | Await rq k => ([rq], Ok (Pending rq k))
  end.

(** Every coroutine is started, in list order, whether or not an earlier one
    has already raised; the first exception in list order is kept. *)
Fixpoint start (cs : list (coro A)) : list Http.Request * result (list (task A)) :=
  match cs with
  | [] => ([], Ok [])
  | c :: cs' =>
      let (l1, t) := advance c in
      let (l2, ts) := start cs' in
      (l1 ++ l2, let? t := t in let? ts := ts in Ok (t :: ts))
  end.

(** The response for task [i] arrives: the task resumes and runs to its next
    suspension. Nothing happens for a task that is not waiting. *)
Definition deliver (i : nat) (ts : list (task A))
  : list Http.Request * result (list (task A)) :=
  match ts !! i with
  | Some (Pending rq k) =>
      let (l, t) := advance (k (server rq)) in
      (l, let? t := t in Ok (<[i := t]> ts))
  | _ => ([], Ok ts)
  end.

(** Responses arrive in the order [arrivals] gives; the first exception ends
    the wait at once. *)
Fixpoint run (arrivals : list nat) (ts : list (task A))
  : list Http.Request * result (list (task A)) :=
  match arrivals with
  | [] => ([], Ok ts)
  | i :: arrivals' =>
      match deliver i ts with
      | (l, Ok ts') => let (l', r) := run arrivals' ts' in (l ++ l', r)
      | (l, Raise e) => (l, Raise e)
      end
  end.

(** The results, in task order, once every task is done. *)
Fixpoint values (ts : list (task A)) : option (list A) :=
  match ts with
  | [] => Some []
  | Done a :: ts' => option_map (cons a) (values ts')
  | Pending _ _ :: _ => None
  end.

(** Awaiting [asyncio.gather] of the coroutines [cs]: the requests issued, in
    order, and the list of results in the order of [cs], or the first exception
    raised. *)
Definition gather (cs : list (coro A)) (arrivals : list nat)
  : list Http.Request * outcome (list A) :=
  match start cs with
  | (l, Raise e) => (l, Finished (Raise e))
  | (l, Ok ts) =>
      match run arrivals ts with
      | (l', Raise e) => (l ++ l', Finished (Raise e))
      | (l', Ok ts') =>
          (l ++ l', match values ts' with
                    | Some vs => Finished (Ok vs)
                    | None => Waiting
                    end)
      end
  end.

End Loop.

(** [get_all_token_prices(ticker_list, from_date, to_date)]. *)
Definition get_all_token_prices (API_KEY : string)
  (server : Http.Request -> Http.Response)
  (ticker_list : list string) (from_date to_date : string)
  (arrivals : list nat) : list Http.Request * outcome (list Json.payload) :=
  let tasks :=
    map (fun ticker => get_token_price_history API_KEY ticker from_date to_date)
        ticker_list in
  gather server tasks arrivals.

End Fetch.
Export Fetch.

(* ------------------------------------------------------------------------- *)
(** ** The script *)

Module Script.

(** What the run shows: the printed table and the chart. *)
Inductive event : Type :=
| Printed (t : DataFrame)
| Chart (t : DataFrame) (title : string).

(** Table Builder, then Metric Calculator, on fetched histories: lines
    153-156 of [main]. *)
Definition transform `{SortKind} (token_prices : list Json.payload)
  (deposit : Z) : M loc :=
  let! df := lift (historical_prices_to_df token_prices) in
  let! df := make_table_df df in
  let! df := calculate_price_ratio df in
  calculate_profit df deposit.

Section Run.

Context `{SortKind}.
Variable API_KEY : string.
Variable server : Http.Request -> Http.Response.

(** The body of [main] with its four constants as arguments. The run starts
    with an empty store; [arrivals] is the order in which responses come in. *)
Definition script (ticker_list : list string) (from_date to_date : string)
  (deposit : Z) (arrivals : list nat)
  : list Http.Request * list event * outcome unit :=
  match get_all_token_prices API_KEY server ticker_list from_date to_date arrivals with
  | (log, Waiting) => (log, [], Waiting)
  | (log, Finished (Raise e)) => (log, [], Finished (Raise e))
  | (log, Finished (Ok token_prices)) =>
      match (let! df := transform token_prices deposit in deref df) [] with
      | (_, Raise e) => (log, [], Finished (Raise e))
      | (_, Ok t) =>
          let title := ("Profit from " ++ from_date ++ " to " ++ to_date)%string in
          (log, [Printed t; Chart t title], Finished (Ok tt))
      end
  end.

Definition TICKER_LIST : list string :=
  ["UNI"; "SUSHI"; "BAL"; "LRC"; "BNT"; "IDEX"].
Definition START_DATE : string := "2021-01-01".
Definition END_DATE : string := "2021-04-19".
Definition DEPOSIT : Z := 1000.

Definition main (arrivals : list nat)
  : list Http.Request * list event * outcome unit :=
  script TICKER_LIST START_DATE END_DATE DEPOSIT arrivals.

End Run.

End Script.
Export Script.

(* ------------------------------------------------------------------------- *)
(** ** The summary table, ticker by ticker *)

Module Summary.

(** One ticker's line of the summary table. *)
Record TickerSummary : Type := mkSummary {
  date_first : Timestamp;
  date_last : Timestamp;
  date_max : Timestamp;
  date_min : Timestamp;
  price_first : float;
  price_last : float;
  price_max : float;
  price_min : float
}.

(** The frame that holds the given lines, in the column order
    [make_table_df] produces. *)
Definition summary_table (rows : list (string * TickerSummary)) : DataFrame :=
  mkDataFrame (map fst rows)
    [ (("date", "first"), Datetime64 (map (fun r => date_first (snd r)) rows));
      (("date", "last"), Datetime64 (map (fun r => date_last (snd r)) rows));
      (("date", "max"), Datetime64 (map (fun r => date_max (snd r)) rows));
      (("date", "min"), Datetime64 (map (fun r => date_min (snd r)) rows));
      (("price", "first"), Float64 (map (fun r => price_first (snd r)) rows));
      (("price", "last"), Float64 (map (fun r => price_last (snd r)) rows));
      (("price", "max"), Float64 (map (fun r => price_max (snd r)) rows));
      (("price", "min"), Float64 (map (fun r => price_min (snd r)) rows)) ].

(** The ratio and profit columns, line by line. *)
Definition ratio_last (s : TickerSummary) : float :=
  PrimFloat.div (price_last s) (price_first s).
Definition ratio_max (s : TickerSummary) : float :=
  PrimFloat.div (price_max s) (price_first s).
Definition profit (ratio deposit : float) : float :=
  PrimFloat.sub (PrimFloat.mul ratio deposit) deposit.

Definition with_ratios (rows : list (string * TickerSummary)) : DataFrame :=
  mkDataFrame (map fst rows)
    (columns (summary_table rows)
     ++ [ (("r_last", ""), Float64 (map (fun r => ratio_last (snd r)) rows));
          (("r_max", ""), Float64 (map (fun r => ratio_max (snd r)) rows)) ]).

Definition with_profits (d : float) (rows : list (string * TickerSummary))
  : DataFrame :=
  mkDataFrame (map fst rows)
    (columns (with_ratios rows)
     ++ [ (("p_last", ""),
           Float64 (map (fun r => profit (ratio_last (snd r)) d) rows));
          (("p_max", ""),
           Float64 (map (fun r => profit (ratio_max (snd r)) d) rows)) ]).

End Summary.
Export Summary.

(* ------------------------------------------------------------------------- *)
(** ** Data to run the model on: the scenarios of the specification *)

Module Examples.

(** The body for ticker AAA: three samples. *)
Definition aaa_payload : Json.payload :=
  Json.mkPayload (Json.mkData
    [ Json.mkItem "2021-01-01" (Some 100%float) (Json.mkMeta "AAA");
      Json.mkItem "2021-01-15" (Some 150%float) (Json.mkMeta "AAA");
      Json.mkItem "2021-02-01" (Some 90%float) (Json.mkMeta "AAA") ]).

Definition five_tickers : list string := ["AAA"; "BBB"; "CCC"; "DDD"; "EEE"].

(** A remote side that answers every request with 200. *)
Definition server_up (rq : Http.Request) : Http.Response :=
  Http.mkResponse 200 aaa_payload.

(** A remote side that answers 404 for CCC and 200 for the rest. *)
Definition server_without_ccc (rq : Http.Request) : Http.Response :=
  if String.eqb (Http.url rq) (HISTORICAL_PRICE_ENDPOINT "CCC")
  then Http.mkResponse 404 (Json.mkPayload (Json.mkData []))
  else Http.mkResponse 200 aaa_payload.

(** A history without a sample, as the only one fetched. *)
Definition no_samples : Json.payload := Json.mkPayload (Json.mkData []).

(** A remote side whose history for BBB is empty. *)
Definition server_empty_bbb (rq : Http.Request) : Http.Response :=
  if String.eqb (Http.url rq) (HISTORICAL_PRICE_ENDPOINT "BBB")
  then Http.mkResponse 200 no_samples
  else Http.mkResponse 200 aaa_payload.

(** A body for ticker BBB: two samples, the first on the day AAA starts. *)
Definition bbb_payload : Json.payload :=
  Json.mkPayload (Json.mkData
    [ Json.mkItem "2021-01-01" (Some 40%float) (Json.mkMeta "BBB");
      Json.mkItem "2021-01-20" (Some 35%float) (Json.mkMeta "BBB") ]).

(** A remote side with a history of its own for BBB. *)
Definition server_two (rq : Http.Request) : Http.Response :=
  if String.eqb (Http.url rq) (HISTORICAL_PRICE_ENDPOINT "BBB")
  then Http.mkResponse 200 bbb_payload
  else Http.mkResponse 200 aaa_payload.

(** The three rows of ticker AAA in the scenario of the specification. *)
Definition aaa_rows : list row :=
  [ mkRow 18628 100%float "AAA";
    mkRow 18642 150%float "AAA";
    mkRow 18659 90%float "AAA" ].

(** The two rows of ticker BBB. *)
Definition bbb_rows : list row :=
  [ mkRow 18628 40%float "BBB";
    mkRow 18647 35%float "BBB" ].

(** A one-line summary table to run the statements on: the scenario of the
    specification (100 first, 150 at the peak, 90 last). *)
Definition aaa_summary : TickerSummary :=
  mkSummary 18628 18659 18642 18659 100%float 90%float 150%float 90%float.

(** A ticker whose window opens at price zero. *)
Definition zero_first_summary : TickerSummary :=
  mkSummary 18628 18659 18642 18628 0%float 90%float 150%float 0%float.

End Examples.
Export Examples.

(* ========================================================================= *)
(** * Properties *)

(* ------------------------------------------------------------------------- *)
(** ** A sorting algorithm to run the statements with *)

Module StableSort.

Fixpoint insert_row (r : row) (l : list row) : list row :=
  match l with
  | [] => [r]
  | x :: l' =>
      if (date r <=? date x)%Z then r :: l else x :: insert_row r l'
  end.

Definition isort (l : list row) : list row := foldr insert_row [] l.

Lemma insert_row_perm r l : Permutation (insert_row r l) (r :: l).
Proof.
  induction l as [|x l IH]; simpl; [reflexivity|].
  destruct (date r <=? date x)%Z; [reflexivity|].
  rewrite IH. apply perm_swap.
Qed.

Lemma isort_perm l : Permutation (isort l) l.
Proof.
  induction l as [|x l IH]; simpl; [constructor|].
  rewrite insert_row_perm. now constructor.
Qed.

Lemma insert_row_sorted r l :
  StronglySorted (fun a b => (date a <= date b)%Z) l ->
  StronglySorted (fun a b => (date a <= date b)%Z) (insert_row r l).
Proof.
  induction 1 as [|x l Hs IH Hx]; simpl.
  - repeat constructor.
  - destruct (Z.leb_spec (date r) (date x)) as [Hle|Hgt].
    + constructor; [now constructor|].
      constructor; [exact Hle|].
      eapply Forall_impl; [exact Hx|]. simpl. intros; lia.
    + constructor; [exact IH|].
      eapply Permutation_Forall; [symmetry; apply insert_row_perm|].
      constructor; [lia | exact Hx].
Qed.

Lemma isort_sorted l :
  StronglySorted (fun a b => (date a <= date b)%Z) (isort l).
Proof.
  induction l as [|x l IH]; simpl; [constructor|].
  now apply insert_row_sorted.
Qed.

#[export] Instance stable : SortKind :=
  mkSortKind isort isort_perm isort_sorted.

End StableSort.

(** ** The model on small inputs *)

Example leap_day_is_a_date : to_datetime "2020-02-29" = Ok 18321.
Proof. vm_compute. reflexivity. Qed.

Example no_29th_of_february_2021 :
  to_datetime "2021-02-29" = Raise (ValueError "2021-02-29").
Proof. vm_compute. reflexivity. Qed.

(** The first and the last day a Timestamp holds, and the days next to them. *)
Example days_of_a_timestamp :
  to_datetime "1677-09-22" = Ok (-106751)
  /\ to_datetime "2262-04-11" = Ok 106751
  /\ to_datetime "1677-12-31" = Ok (-106651)
  /\ to_datetime "2262-01-01" = Ok 106651
  /\ to_datetime "1677-09-21" = Raise (ValueError "1677-09-21")
  /\ to_datetime "2262-04-12" = Raise (ValueError "2262-04-12").
Proof. repeat split; vm_compute; reflexivity. Qed.

Example message_for_404 :
  failure_message "CCC" 404 = "ticker: CCC, status_code: 404".
Proof. vm_compute. reflexivity. Qed.

Example deposit_1000 : float_of_int 1000 = Ok 1000%float.
Proof. vm_compute. reflexivity. Qed.

Example deposit_too_large : float_of_int (2 ^ 1024) = Raise OverflowError.
Proof. vm_compute. reflexivity. Qed.

Example keys_are_sorted_and_distinct :
  group_keys ["UNI"; "BAL"; "UNI"; "SUSHI"] = ["BAL"; "SUSHI"; "UNI"].
Proof. vm_compute. reflexivity. Qed.

(** NaN is skipped and of two equal maxima the first wins. *)
Example idxmax_first_of_equals :
  idxmax [ (0%nat, mkRow 1 PrimFloat.nan "A");
           (1%nat, mkRow 2 5%float "A");
           (2%nat, mkRow 3 5%float "A") ] = Ok 1%nat.
Proof. vm_compute. reflexivity. Qed.

Example idxmax_of_nan_only :
  idxmax [(0%nat, mkRow 1 PrimFloat.nan "A")] = Raise (KeyError "nan").
Proof. vm_compute. reflexivity. Qed.

Example first_and_last_skip_nan :
  first_valid [PrimFloat.nan; 3%float] = 3%float
  /\ last_valid [3%float; 4%float; PrimFloat.nan] = 4%float.
Proof. split; vm_compute; reflexivity. Qed.

Example flattening_aaa : historical_prices_to_df [aaa_payload] = Ok aaa_rows.
Proof. vm_compute. reflexivity. Qed.


(** ** Metric Calculator on a summary table *)

Lemma zip_with_map_same {A B C D} (f : B -> C -> D) (g : A -> B) (k : A -> C)
  (l : list A) :
  zip_with f (map g l) (map k l) = map (fun a => f (g a) (k a)) l.
Proof. induction l as [|a l IH]; simpl; [reflexivity | now rewrite IH]. Qed.

(** Runs the store computation of the goal: unfolds the effects, resolves the
    lookups of the frame at [df] and the conversion of the deposit. *)
Ltac run_store Hlt :=
  unfold bind, deref, lift, setitem, update, ret;
  repeat first
    [ rewrite list_lookup_insert_eq by exact Hlt
    | match goal with
      | H : _ !! _ = Some _ |- _ => rewrite H
      | H : float_of_int _ = Ok _ |- _ => rewrite H
      end
    | progress simpl ].

Lemma calculate_price_ratio_summary (h : heap) (df : loc)
  (rows : list (string * TickerSummary)) :
  h !! df = Some (summary_table rows) ->
  calculate_price_ratio df h = (<[df := with_ratios rows]> h, Ok df).
Proof.
  intros Hdf.
  assert (Hlt : (df < length h)%nat) by (eapply lookup_lt_Some; exact Hdf).
  unfold calculate_price_ratio. run_store Hlt.
  rewrite list_insert_insert_eq, !zip_with_map_same. reflexivity.
Qed.

Lemma calculate_profit_ratios (h : heap) (df : loc)
  (rows : list (string * TickerSummary)) (deposit : Z) (d : float) :
  h !! df = Some (with_ratios rows) ->
  float_of_int deposit = Ok d ->
  calculate_profit df deposit h = (<[df := with_profits d rows]> h, Ok df).
Proof.
  intros Hdf Hd.
  assert (Hlt : (df < length h)%nat) by (eapply lookup_lt_Some; exact Hdf).
  unfold calculate_profit. run_store Hlt.
  rewrite list_insert_insert_eq, !map_map. reflexivity.
Qed.

(** C1. On every summary table and for every deposit Python can convert to a
    float, the Metric Calculator returns normally and leaves, for each ticker,
    r_last = price_last / price_first, r_max = price_max / price_first,
    p_last = r_last * deposit - deposit and p_max = r_max * deposit - deposit
    (binary64 operations). *)
Theorem metric_calculator_formulae (h : heap) (df : loc)
  (rows : list (string * TickerSummary)) (deposit : Z) (d : float) :
  h !! df = Some (summary_table rows) ->
  float_of_int deposit = Ok d ->
  exists t : DataFrame,
    (let! df' := calculate_price_ratio df in calculate_profit df' deposit) h
      = (<[df := t]> h, Ok df)
    /\ index t = map fst rows
    /\ getitem t "r_last"
       = Ok (ISeries (Float64
           (map (fun r => PrimFloat.div (price_last (snd r)) (price_first (snd r)))
                rows)))
    /\ getitem t "r_max"
       = Ok (ISeries (Float64
           (map (fun r => PrimFloat.div (price_max (snd r)) (price_first (snd r)))
                rows)))
    /\ getitem t "p_last"
       = Ok (ISeries (Float64
           (map (fun r =>
                   PrimFloat.sub
                     (PrimFloat.mul
                        (PrimFloat.div (price_last (snd r)) (price_first (snd r))) d)
                     d)
                rows)))
    /\ getitem t "p_max"
       = Ok (ISeries (Float64
           (map (fun r =>
                   PrimFloat.sub
                     (PrimFloat.mul
                        (PrimFloat.div (price_max (snd r)) (price_first (snd r))) d)
                     d)
                rows))).
Proof.
  intros Hdf Hd. exists (with_profits d rows).
  split.
  - unfold bind at 1.
    rewrite (calculate_price_ratio_summary h df rows Hdf).
    assert (Hlt : (df < length h)%nat) by (eapply lookup_lt_Some; exact Hdf).
    rewrite (calculate_profit_ratios _ df rows deposit d).
    + now rewrite list_insert_insert_eq.
    + now apply list_lookup_insert_eq.
    + exact Hd.
  - repeat split; reflexivity.
Qed.

Lemma metric_calculator_formulae_witness :
  exists t : DataFrame,
    (let! df' := calculate_price_ratio 0%nat in calculate_profit df' 1000)
      [summary_table [("AAA", aaa_summary)]]
      = (<[0%nat := t]> [summary_table [("AAA", aaa_summary)]], Ok 0%nat)
    /\ index t = ["AAA"]
    /\ getitem t "r_last" = Ok (ISeries (Float64 [PrimFloat.div 90 100]))
    /\ getitem t "r_max" = Ok (ISeries (Float64 [PrimFloat.div 150 100]))
    /\ getitem t "p_last"
       = Ok (ISeries (Float64
           [PrimFloat.sub (PrimFloat.mul (PrimFloat.div 90 100) 1000) 1000]))
    /\ getitem t "p_max"
       = Ok (ISeries (Float64
           [PrimFloat.sub (PrimFloat.mul (PrimFloat.div 150 100) 1000) 1000])).
Proof.
  apply (metric_calculator_formulae
           [summary_table [("AAA", aaa_summary)]] 0%nat
           [("AAA", aaa_summary)] 1000 1000%float).
  - reflexivity.
  - vm_compute. reflexivity.
Defined.

(** C10. On a summary table [calculate_price_ratio] appends the two columns
    r_last and r_max after the existing ones and [calculate_profit], on the
    table so enriched, appends p_last and p_max; index and earlier columns stay
    as they were, every other object of the store is untouched, and each call
    returns the reference it was given. *)
Theorem metric_calculator_frame (h : heap) (df : loc)
  (rows : list (string * TickerSummary)) (deposit : Z) (d : float) :
  h !! df = Some (summary_table rows) ->
  float_of_int deposit = Ok d ->
  exists r_last r_max p_last p_max : Series,
    let t0 := summary_table rows in
    let t1 :=
      mkDataFrame (index t0)
        (columns t0 ++ [(("r_last", ""), r_last); (("r_max", ""), r_max)]) in
    let t2 :=
      mkDataFrame (index t0)
        (columns t1 ++ [(("p_last", ""), p_last); (("p_max", ""), p_max)]) in
    calculate_price_ratio df h = (<[df := t1]> h, Ok df)
    /\ calculate_profit df deposit (<[df := t1]> h) = (<[df := t2]> h, Ok df).
Proof.
  intros Hdf Hd.
  assert (Hlt : (df < length h)%nat) by (eapply lookup_lt_Some; exact Hdf).
  eexists _, _, _, _. cbv zeta. split.
  - apply calculate_price_ratio_summary. exact Hdf.
  - erewrite (calculate_profit_ratios _ df rows deposit d).
    + rewrite list_insert_insert_eq. reflexivity.
    + apply list_lookup_insert_eq. exact Hlt.
    + exact Hd.
Qed.

Lemma metric_calculator_frame_witness :
  exists r_last r_max p_last p_max : Series,
    let h := [summary_table [("AAA", aaa_summary)]] in
    let t0 := summary_table [("AAA", aaa_summary)] in
    let t1 :=
      mkDataFrame (index t0)
        (columns t0 ++ [(("r_last", ""), r_last); (("r_max", ""), r_max)]) in
    let t2 :=
      mkDataFrame (index t0)
        (columns t1 ++ [(("p_last", ""), p_last); (("p_max", ""), p_max)]) in
    calculate_price_ratio 0%nat h = (<[0%nat := t1]> h, Ok 0%nat)
    /\ calculate_profit 0%nat 1000 (<[0%nat := t1]> h)
       = (<[0%nat := t2]> h, Ok 0%nat).
Proof.
  apply (metric_calculator_frame
           [summary_table [("AAA", aaa_summary)]] 0%nat
           [("AAA", aaa_summary)] 1000 1000%float).
  - reflexivity.
  - vm_compute. reflexivity.
Defined.

(* ------------------------------------------------------------------------- *)
(** ** Order and division of binary64 values *)

Module IEEE.

Ltac cmp_cases :=
  repeat match goal with
    | |- context [Z.compare ?a ?b] =>
        destruct (Z.compare_spec a b); subst; simpl
    | |- context [Pos.compare_cont Eq ?a ?b] =>
        change (Pos.compare_cont Eq a b) with (Pos.compare a b);
        destruct (Pos.compare_spec a b); subst; simpl
    end.

Lemma SFleb_trans (x y z : spec_float) :
  SFleb x y = true -> SFleb y z = true -> SFleb x z = true.
Proof.
  unfold SFleb, SFcompare.
  destruct x as [[]|[]| |[] mx ex], y as [[]|[]| |[] my ey],
           z as [[]|[]| |[] mz ez];
    simpl; try congruence; cmp_cases; try congruence; try lia.
Qed.

Lemma SFcompare_refl (x : spec_float) :
  x <> S754_nan -> SFcompare x x = Some Eq.
Proof.
  destruct x as [[]|[]| |[] m e]; simpl; try congruence; intros _;
    rewrite Z.compare_refl;
    change (Pos.compare_cont Eq m m) with (Pos.compare m m);
    now rewrite Pos.compare_refl.
Qed.

Lemma SFltb_false_leb (x y : spec_float) :
  x <> S754_nan -> y <> S754_nan -> SFltb x y = false -> SFleb y x = true.
Proof.
  unfold SFltb, SFleb, SFcompare.
  destruct x as [[]|[]| |[] mx ex], y as [[]|[]| |[] my ey];
    simpl; try congruence; intros _ _; cmp_cases; try congruence; try lia.
Qed.

Lemma is_nan_spec (x : float) :
  PrimFloat.is_nan x = false <-> Prim2SF x <> S754_nan.
Proof.
  unfold PrimFloat.is_nan. rewrite FloatAxioms.eqb_spec. unfold SFeqb. split.
  - intros Hf Hn. rewrite Hn in Hf. discriminate.
  - intros Hn. now rewrite (SFcompare_refl _ Hn).
Qed.

Lemma leb_trans (x y z : float) :
  PrimFloat.leb x y = true -> PrimFloat.leb y z = true ->
  PrimFloat.leb x z = true.
Proof. rewrite !FloatAxioms.leb_spec. apply SFleb_trans. Qed.

Lemma leb_refl (x : float) :
  PrimFloat.is_nan x = false -> PrimFloat.leb x x = true.
Proof.
  rewrite is_nan_spec, FloatAxioms.leb_spec. intros Hn. unfold SFleb.
  now rewrite (SFcompare_refl _ Hn).
Qed.

Lemma ltb_leb (x y : float) :
  PrimFloat.ltb x y = true -> PrimFloat.leb x y = true.
Proof.
  rewrite FloatAxioms.ltb_spec, FloatAxioms.leb_spec. unfold SFltb, SFleb.
  destruct (SFcompare _ _) as [[]|]; congruence.
Qed.

Lemma ltb_false_leb (x y : float) :
  PrimFloat.is_nan x = false -> PrimFloat.is_nan y = false ->
  PrimFloat.ltb x y = false -> PrimFloat.leb y x = true.
Proof.
  intros Hx Hy. rewrite FloatAxioms.ltb_spec, FloatAxioms.leb_spec.
  apply SFltb_false_leb; now apply is_nan_spec.
Qed.

(** Whatever compares is a number. *)
Lemma leb_not_nan (x y : float) :
  PrimFloat.leb x y = true ->
  PrimFloat.is_nan x = false /\ PrimFloat.is_nan y = false.
Proof.
  rewrite FloatAxioms.leb_spec. intros H.
  split; apply is_nan_spec; intros Hn; rewrite Hn in H;
    unfold SFleb, SFcompare in H; destruct (Prim2SF _); discriminate.
Qed.

(** A positive number over a zero is an infinity. *)
Lemma div_zero_infinite (x y : float) :
  PrimFloat.ltb 0 x = true -> PrimFloat.eqb y 0 = true ->
  PrimFloat.is_infinity (PrimFloat.div x y) = true.
Proof.
  unfold PrimFloat.is_infinity.
  rewrite FloatAxioms.ltb_spec, !FloatAxioms.eqb_spec, FloatAxioms.abs_spec, FloatAxioms.div_spec.
  change (Prim2SF 0) with (S754_zero false).
  change (Prim2SF infinity) with (S754_infinity false).
  unfold SF64div, SFdiv, SFltb, SFeqb, SFcompare, SFabs.
  destruct (Prim2SF x) as [[]|[]| |[] mx ex], (Prim2SF y) as [[]|[]| |[] my ey];
    simpl; congruence.
Qed.

End IEEE.

(** ** No guard on the first price *)

(** C8 does not hold as stated: with a first price of zero the ratio step
    raises nothing and stores an infinite ratio. *)
Lemma zero_first_price_is_not_refused :
  PrimFloat.leb (price_first zero_first_summary) 0 = true
  /\ calculate_price_ratio 0%nat [summary_table [("AAA", zero_first_summary)]]
     = ([with_ratios [("AAA", zero_first_summary)]], Ok 0%nat)
  /\ getitem (with_ratios [("AAA", zero_first_summary)]) "r_last"
     = Ok (ISeries (Float64 [infinity])).
Proof. repeat split; vm_compute; reflexivity. Qed.

(** C8, amended. [calculate_price_ratio] does not look at the sign of the
    first price: on every summary table it returns normally with the binary64
    quotients, and where a positive last price meets a first price of zero the
    ratio is infinite. *)
Theorem price_ratio_is_unguarded (h : heap) (df : loc)
  (rows : list (string * TickerSummary)) :
  h !! df = Some (summary_table rows) ->
  exists t : DataFrame,
    calculate_price_ratio df h = (<[df := t]> h, Ok df)
    /\ getitem t "r_last"
       = Ok (ISeries (Float64
           (map (fun r => PrimFloat.div (price_last (snd r)) (price_first (snd r)))
                rows)))
    /\ getitem t "r_max"
       = Ok (ISeries (Float64
           (map (fun r => PrimFloat.div (price_max (snd r)) (price_first (snd r)))
                rows)))
    /\ forall r, In r rows ->
         PrimFloat.ltb 0 (price_last (snd r)) = true ->
         PrimFloat.eqb (price_first (snd r)) 0 = true ->
         PrimFloat.is_infinity
           (PrimFloat.div (price_last (snd r)) (price_first (snd r))) = true.
Proof.
  intros Hdf. exists (with_ratios rows). split; [|split; [|split]].
  - now apply calculate_price_ratio_summary.
  - reflexivity.
  - reflexivity.
  - intros r _. apply IEEE.div_zero_infinite.
Qed.

Lemma price_ratio_is_unguarded_witness :
  exists t : DataFrame,
    calculate_price_ratio 0%nat [summary_table [("AAA", zero_first_summary)]]
      = (<[0%nat := t]> [summary_table [("AAA", zero_first_summary)]], Ok 0%nat)
    /\ getitem t "r_last"
       = Ok (ISeries (Float64
           (map (fun r => PrimFloat.div (price_last (snd r)) (price_first (snd r)))
                [("AAA", zero_first_summary)])))
    /\ getitem t "r_max"
       = Ok (ISeries (Float64
           (map (fun r => PrimFloat.div (price_max (snd r)) (price_first (snd r)))
                [("AAA", zero_first_summary)])))
    /\ forall r, In r [("AAA", zero_first_summary)] ->
         PrimFloat.ltb 0 (price_last (snd r)) = true ->
         PrimFloat.eqb (price_first (snd r)) 0 = true ->
         PrimFloat.is_infinity
           (PrimFloat.div (price_last (snd r)) (price_first (snd r))) = true.
Proof.
  apply (price_ratio_is_unguarded
           [summary_table [("AAA", zero_first_summary)]] 0%nat
           [("AAA", zero_first_summary)]).
  reflexivity.
Defined.

(* ------------------------------------------------------------------------- *)
(** ** Price Fetcher: what a batch returns *)

Section Batch.

Variable API_KEY : string.
Variable server : Http.Request -> Http.Response.
Variables from_date to_date : string.
Variable ticker_list : list string.

Let rq (t : string) : Http.Request := request API_KEY t from_date to_date.
Let resp (t : string) : Http.Response := server (rq t).

(** The exception the response for task [i] sets off, if any. *)
Definition failure_at (i : nat) : option exn :=
  match ticker_list !! i with
  | Some t =>
      if (Http.status_code (resp t) =? 200)%Z then None
      else Some (Exception (failure_message t (Http.status_code (resp t))))
  | None => None
  end.

Fixpoint first_failure (arrivals : list nat) : option exn :=
  match arrivals with
  | [] => None
  | i :: arrivals' =>
      match failure_at i with
      | Some e => Some e
      | None => first_failure arrivals'
      end
  end.

(** The tasks once the responses for [done] have come in. *)
Definition settled (done : list nat) : list (task Json.payload) :=
  imap (fun i t =>
          if bool_decide (i ∈ done) then Done (Http.json (resp t))
          else Pending (rq t) (check_response t)) ticker_list.

Lemma start_batch (l : list string) :
  start (map (fun t => get_token_price_history API_KEY t from_date to_date) l)
  = (map rq l, Ok (map (fun t => Pending (rq t) (check_response t)) l)).
Proof.
  induction l as [|t l IH]; simpl; [reflexivity|].
  rewrite IH. reflexivity.
Qed.

Lemma settled_nil :
  settled [] = map (fun t => Pending (rq t) (check_response t)) ticker_list.
Proof.
  unfold settled. apply list_eq. intros i.
  rewrite list_lookup_imap, list_lookup_fmap.
  destruct (ticker_list !! i); reflexivity.
Qed.

Lemma settled_same (i : nat) (done : list nat) :
  (ticker_list !! i = None \/ i ∈ done) ->
  settled (i :: done) = settled done.
Proof.
  intros Hi. unfold settled. apply imap_ext. intros j t Hj. simpl.
  assert (Hiff : j ∈ i :: done <-> j ∈ done).
  { rewrite elem_of_cons. split; [|auto].
    intros [->|Hd]; [|exact Hd]. destruct Hi as [Hn|Hd]; [congruence|exact Hd]. }
  repeat case_bool_decide; tauto.
Qed.

Lemma settled_insert (i : nat) (t : string) (done : list nat) :
  ticker_list !! i = Some t ->
  <[i := Done (Http.json (resp t))]> (settled done) = settled (i :: done).
Proof.
  intros Ht. apply list_eq. intros j.
  unfold settled. rewrite list_lookup_insert, !list_lookup_imap, length_imap.
  destruct (decide (i = j /\ (i < length ticker_list)%nat)) as [[-> Hlt]|Hn].
  - rewrite Ht. simpl. rewrite bool_decide_eq_true_2; [reflexivity|].
    apply elem_of_cons; auto.
  - assert (Hij : i <> j).
    { intros ->. apply Hn. split; [reflexivity|]. eapply lookup_lt_Some; eauto. }
    destruct (ticker_list !! j) as [u|]; simpl; [|reflexivity].
    assert (Hiff : j ∈ i :: done <-> j ∈ done).
    { rewrite elem_of_cons. split; [|auto]. intros [?|?]; [congruence|assumption]. }
    repeat case_bool_decide; tauto.
Qed.

Lemma deliver_settled (i : nat) (done : list nat) :
  deliver server i (settled done)
  = ([], match failure_at i with
         | Some e => if bool_decide (i ∈ done) then Ok (settled done) else Raise e
         | None => Ok (settled (i :: done))
         end).
Proof.
  unfold deliver, failure_at, settled at 1.
  rewrite list_lookup_imap.
  destruct (ticker_list !! i) as [t|] eqn:Ht; simpl.
  - destruct (decide (i ∈ done)) as [Hd|Hd].
    + rewrite bool_decide_eq_true_2 by exact Hd.
      rewrite settled_same by auto.
      destruct (_ =? _)%Z; reflexivity.
    + rewrite bool_decide_eq_false_2 by exact Hd.
      unfold check_response. fold (resp t).
      destruct (Http.status_code (resp t) =? 200)%Z eqn:Hs; simpl.
      * now rewrite (settled_insert i t done Ht).
      * reflexivity.
  - now rewrite settled_same by auto.
Qed.

Lemma run_settled (arrivals done : list nat) :
  (forall i, i ∈ done -> failure_at i = None) ->
  run server arrivals (settled done)
  = ([], match first_failure arrivals with
         | Some e => Raise e
         | None => Ok (settled (rev arrivals ++ done))
         end).
Proof.
  revert done. induction arrivals as [|i arrivals IH]; intros done Hdone; simpl.
  - reflexivity.
  - rewrite deliver_settled.
    destruct (failure_at i) as [e|] eqn:Hf.
    + rewrite bool_decide_eq_false_2; [reflexivity|].
      intros Hin. apply Hdone in Hin. congruence.
    + rewrite IH.
      * destruct (first_failure arrivals); [reflexivity|].
        now rewrite <- app_assoc.
      * intros j [->|Hj]%elem_of_cons; auto.
Qed.

Lemma values_imap (P : nat -> bool) (l : list string) :
  (forall i, (i < length l)%nat -> P i = true) ->
  values (imap (fun i t => if P i then Done (Http.json (resp t))
                           else Pending (rq t) (check_response t)) l)
  = Some (map (fun t => Http.json (resp t)) l).
Proof.
  revert P. induction l as [|t l IH]; intros P HP; simpl; [reflexivity|].
  rewrite (HP 0%nat) by (simpl; lia).
  unfold compose. rewrite (IH (fun i => P (S i))); [reflexivity|].
  intros i Hi. apply HP. simpl. lia.
Qed.

Lemma values_settled (done : list nat) :
  (forall i, (i < length ticker_list)%nat -> i ∈ done) ->
  values (settled done) = Some (map (fun t => Http.json (resp t)) ticker_list).
Proof.
  intros Hall. unfold settled.
  apply (values_imap (fun i => bool_decide (i ∈ done))).
  intros i Hi. apply bool_decide_eq_true_2. auto.
Qed.

Lemma batch_outcome (arrivals : list nat) :
  get_all_token_prices API_KEY server ticker_list from_date to_date arrivals
  = (map rq ticker_list,
     match first_failure arrivals with
     | Some e => Finished (Raise e)
     | None =>
         match values (settled (rev arrivals)) with
         | Some vs => Finished (Ok vs)
         | None => Waiting
         end
     end).
Proof.
  unfold get_all_token_prices, gather.
  rewrite start_batch, <- settled_nil, run_settled.
  - rewrite app_nil_r.
    destruct (first_failure arrivals); now rewrite app_nil_r.
  - intros i Hi. now apply not_elem_of_nil in Hi.
Qed.

Lemma first_failure_None (arrivals : list nat) :
  first_failure arrivals = None ->
  forall i, i ∈ arrivals -> failure_at i = None.
Proof.
  induction arrivals as [|j arrivals IH]; simpl; intros Hf i Hi.
  - now apply not_elem_of_nil in Hi.
  - destruct (failure_at j) eqn:Hj; [discriminate|].
    apply elem_of_cons in Hi as [->|Hi]; auto.
Qed.

Lemma first_failure_Some (arrivals : list nat) (e : exn) :
  first_failure arrivals = Some e ->
  exists t, t ∈ ticker_list
    /\ Http.status_code (resp t) <> 200
    /\ e = Exception (failure_message t (Http.status_code (resp t))).
Proof.
  induction arrivals as [|j arrivals IH]; simpl; [discriminate|].
  destruct (failure_at j) as [e'|] eqn:Hj; [|exact IH].
  intros [= ->]. unfold failure_at in Hj.
  destruct (ticker_list !! j) as [t|] eqn:Ht; [|discriminate].
  destruct (Z.eqb_spec (Http.status_code (resp t)) 200) as [|Hne]; [discriminate|].
  injection Hj as <-. exists t. split; [|auto].
  eapply list_elem_of_lookup_2; eauto.
Qed.

(** C3. A batch over N tickers issues exactly N requests, whatever the
    responses are and whether or in which order they come in: in place i a GET
    of https://api.covalenthq.com/v1/pricing/historical/USD/<ticker>/ for the
    ticker in place i of the list, with the parameters key, from and to. When
    every response comes in and every status is 200, in whatever order they
    arrive, the batch returns the N decoded bodies in the order of the ticker
    list. *)
Theorem batch_fetch_in_order (arrivals : list nat) :
  fst (get_all_token_prices API_KEY server ticker_list from_date to_date arrivals)
  = map (fun t =>
           Http.mkRequest
             ("https://api.covalenthq.com/v1/pricing/historical/USD/" ++ t ++ "/")%string
             [("key", API_KEY); ("from", from_date); ("to", to_date)])
        ticker_list
  /\ length (fst (get_all_token_prices API_KEY server ticker_list
                    from_date to_date arrivals))
     = length ticker_list
  /\ ((forall i, (i < length ticker_list)%nat -> i ∈ arrivals) ->
      (forall t, t ∈ ticker_list ->
         Http.status_code (server (request API_KEY t from_date to_date)) = 200) ->
      snd (get_all_token_prices API_KEY server ticker_list from_date to_date
             arrivals)
      = Finished (Ok (map (fun t =>
                             Http.json
                               (server (request API_KEY t from_date to_date)))
                        ticker_list))
      /\ forall vs,
           snd (get_all_token_prices API_KEY server ticker_list from_date to_date
                  arrivals) = Finished (Ok vs) ->
           length vs = length ticker_list).
Proof.
  rewrite batch_outcome. cbn [fst snd]. split; [reflexivity|].
  split; [now rewrite length_map|].
  intros Hall Hok.
  destruct (first_failure arrivals) as [e|] eqn:Hf.
  - apply first_failure_Some in Hf as (t & Ht & Hbad & _).
    exfalso. apply Hbad. now apply Hok.
  - rewrite values_settled.
    + split; [reflexivity|]. intros vs [= <-]. now rewrite length_map.
    + intros i Hi. apply list_elem_of_In. apply -> in_rev.
      apply list_elem_of_In. auto.
Qed.

(** C2. A response with a status other than 200 makes the fetch of that ticker
    raise an exception whose message spells out the ticker and the status code.
    Once such a response has come in, whatever else has or has not, the batch
    yields no list of histories but the exception of a ticker that failed, and
    the script ends with that exception having printed and charted nothing. *)
Theorem failed_fetch_aborts_batch `{SortKind} (deposit : Z)
  (arrivals : list nat) (i : nat) (t : string) :
  ticker_list !! i = Some t ->
  Http.status_code (server (request API_KEY t from_date to_date)) <> 200 ->
  i ∈ arrivals ->
  (forall r : Http.Response,
     Http.status_code r <> 200 ->
     get_token_price_history API_KEY t from_date to_date
       = Await (request API_KEY t from_date to_date) (check_response t)
     /\ check_response t r
        = Return (Raise (Exception
            ("ticker: " ++ t ++ ", status_code: " ++ pretty (Http.status_code r)))))
  /\ exists t' : string,
       t' ∈ ticker_list
       /\ Http.status_code (server (request API_KEY t' from_date to_date)) <> 200
       /\ get_all_token_prices API_KEY server ticker_list from_date to_date arrivals
          = (map (fun t => request API_KEY t from_date to_date) ticker_list,
             Finished (Raise (Exception
               ("ticker: " ++ t' ++ ", status_code: "
                ++ pretty (Http.status_code
                             (server (request API_KEY t' from_date to_date)))))))
       /\ script API_KEY server ticker_list from_date to_date deposit arrivals
          = (map (fun t => request API_KEY t from_date to_date) ticker_list,
             [],
             Finished (Raise (Exception
               ("ticker: " ++ t' ++ ", status_code: "
                ++ pretty (Http.status_code
                             (server (request API_KEY t' from_date to_date))))))).
Proof.
  intros Ht Hbad Hin. split.
  - intros r Hr. split; [reflexivity|].
    unfold check_response.
    destruct (Z.eqb_spec (Http.status_code r) 200) as [|_]; [contradiction|].
    reflexivity.
  - destruct (first_failure arrivals) as [e|] eqn:Hf.
    + destruct (first_failure_Some _ _ Hf) as (t' & Ht' & Hbad' & ->).
      exists t'. split; [exact Ht'|]. split; [exact Hbad'|].
      unfold script. rewrite batch_outcome, Hf. split; reflexivity.
    + exfalso. pose proof (first_failure_None _ Hf i Hin) as Hnone.
      unfold failure_at in Hnone. rewrite Ht in Hnone.
      destruct (Z.eqb_spec (Http.status_code (resp t)) 200) as [Heq|_];
        [|discriminate].
      apply Hbad. exact Heq.
Qed.

End Batch.

(** *** The two statements on concrete batches *)

Lemma batch_fetch_in_order_witness :
  fst (get_all_token_prices "k" server_two ["AAA"; "BBB"]
         "2021-01-01" "2021-04-19" [1; 0]%nat)
  = [ Http.mkRequest
        "https://api.covalenthq.com/v1/pricing/historical/USD/AAA/"
        [("key", "k"); ("from", "2021-01-01"); ("to", "2021-04-19")];
      Http.mkRequest
        "https://api.covalenthq.com/v1/pricing/historical/USD/BBB/"
        [("key", "k"); ("from", "2021-01-01"); ("to", "2021-04-19")] ]
  /\ length (fst (get_all_token_prices "k" server_two ["AAA"; "BBB"]
                    "2021-01-01" "2021-04-19" [1; 0]%nat))
     = 2%nat
  /\ snd (get_all_token_prices "k" server_two ["AAA"; "BBB"]
            "2021-01-01" "2021-04-19" [1; 0]%nat)
     = Finished (Ok [aaa_payload; bbb_payload]).
Proof.
  destruct (batch_fetch_in_order "k" server_two "2021-01-01" "2021-04-19"
              ["AAA"; "BBB"] [1; 0]%nat) as (Hlog & Hlen & Hres).
  split; [exact Hlog|]. split; [exact Hlen|].
  apply Hres.
  - intros i Hi. simpl in Hi.
    destruct i as [|[|i]]; [| |lia]; apply list_elem_of_In; simpl; tauto.
  - intros t Ht. apply list_elem_of_In in Ht.
    destruct Ht as [<-|[<-|[]]]; reflexivity.
Defined.

Lemma failed_fetch_aborts_batch_witness :
  (forall r : Http.Response,
     Http.status_code r <> 200 ->
     get_token_price_history "k" "CCC" "2021-01-01" "2021-04-19"
       = Await (request "k" "CCC" "2021-01-01" "2021-04-19") (check_response "CCC")
     /\ check_response "CCC" r
        = Return (Raise (Exception
            ("ticker: " ++ "CCC" ++ ", status_code: " ++ pretty (Http.status_code r)))))
  /\ exists t' : string,
       t' ∈ five_tickers
       /\ Http.status_code
            (server_without_ccc (request "k" t' "2021-01-01" "2021-04-19")) <> 200
       /\ get_all_token_prices "k" server_without_ccc five_tickers
            "2021-01-01" "2021-04-19" [2%nat]
          = (map (fun t => request "k" t "2021-01-01" "2021-04-19") five_tickers,
             Finished (Raise (Exception
               ("ticker: " ++ t' ++ ", status_code: "
                ++ pretty (Http.status_code
                     (server_without_ccc
                        (request "k" t' "2021-01-01" "2021-04-19")))))))
       /\ script (H := StableSort.stable) "k" server_without_ccc five_tickers
            "2021-01-01" "2021-04-19" 1000 [2%nat]
          = (map (fun t => request "k" t "2021-01-01" "2021-04-19") five_tickers,
             [],
             Finished (Raise (Exception
               ("ticker: " ++ t' ++ ", status_code: "
                ++ pretty (Http.status_code
                     (server_without_ccc
                        (request "k" t' "2021-01-01" "2021-04-19"))))))).
Proof.
  apply (failed_fetch_aborts_batch "k" server_without_ccc
           "2021-01-01" "2021-04-19" five_tickers (H := StableSort.stable)
           1000 [2%nat] 2%nat "CCC").
  - reflexivity.
  - simpl. lia.
  - apply list_elem_of_In. simpl. tauto.
Defined.

(* ------------------------------------------------------------------------- *)
(** ** Sorted lists and group keys *)

Section SortedUnique.

Context {A : Type} (R : A -> A -> Prop).
Hypothesis R_asym : forall a b, R a b -> R b a -> False.

(** A strictly sorted list is determined by its elements. *)
Lemma sorted_unique (l1 l2 : list A) :
  StronglySorted R l1 -> StronglySorted R l2 ->
  (forall x, In x l1 <-> In x l2) -> l1 = l2.
Proof.
  intros H1. revert l2.
  induction H1 as [|x l1 Hs1 IH Hx]; intros l2 H2 Hsame.
  - destruct l2 as [|y l2]; [reflexivity|].
    exfalso. apply (Hsame y). now left.
  - destruct H2 as [|y l2 Hs2 Hy].
    + exfalso. apply (Hsame x). now left.
    + rewrite Forall_forall in Hx, Hy.
      assert (Hxy : x = y).
      { destruct (proj1 (Hsame x) (or_introl eq_refl)) as [Heq|Hin]; [now symmetry|].
        destruct (proj2 (Hsame y) (or_introl eq_refl)) as [Heq|Hin']; [exact Heq|].
        exfalso. apply (R_asym x y).
        - apply Hx. now apply list_elem_of_In.
        - apply Hy. now apply list_elem_of_In. }
      subst y. f_equal. apply IH; [exact Hs2|].
      intros z. split; intros Hz.
      * destruct (proj1 (Hsame z) (or_intror Hz)) as [<-|Hin]; [|exact Hin].
        exfalso. apply (R_asym x x); apply Hx; now apply list_elem_of_In.
      * destruct (proj2 (Hsame z) (or_intror Hz)) as [<-|Hin]; [|exact Hin].
        exfalso. apply (R_asym x x); apply Hy; now apply list_elem_of_In.
Qed.

End SortedUnique.

Module Keys.

Definition slt (a b : string) : Prop := String.compare a b = Lt.

Lemma slt_trans (a b c : string) : slt a b -> slt b c -> slt a c.
Proof.
  unfold slt. change String.compare with String_as_OT.cmp.
  rewrite !String_as_OT.cmp_lt. apply String_as_OT.lt_trans.
Qed.

Lemma slt_asym (a b : string) : slt a b -> slt b a -> False.
Proof.
  unfold slt. intros Hab Hba.
  rewrite String.compare_antisym, Hba in Hab. discriminate.
Qed.

Lemma compare_Gt (a b : string) : String.compare a b = Gt -> slt b a.
Proof.
  unfold slt. intros H. rewrite String.compare_antisym, H. reflexivity.
Qed.

Lemma insert_key_In (a k : string) (l : list string) :
  In k (insert_key a l) <-> k = a \/ In k l.
Proof.
  induction l as [|x l IH]; simpl.
  - intuition.
  - destruct (String.compare a x) eqn:Hc; simpl.
    + apply String.compare_eq_iff in Hc. subst. intuition.
    + intuition.
    + rewrite IH. intuition.
Qed.

Lemma insert_key_sorted (a : string) (l : list string) :
  StronglySorted slt l -> StronglySorted slt (insert_key a l).
Proof.
  induction 1 as [|x l Hs IH Hx]; simpl.
  - repeat constructor.
  - destruct (String.compare a x) eqn:Hc.
    + now constructor.
    + constructor; [now constructor|].
      constructor; [exact Hc|].
      eapply Forall_impl; [exact Hx|]. intros y Hy. eapply slt_trans; eauto.
    + constructor; [exact IH|].
      apply Forall_forall. intros y Hy.
      apply list_elem_of_In, insert_key_In in Hy as [->|Hy].
      * now apply compare_Gt.
      * rewrite Forall_forall in Hx. apply Hx. now apply list_elem_of_In.
Qed.

Lemma group_keys_In (k : string) (l : list string) :
  In k (group_keys l) <-> In k l.
Proof.
  unfold group_keys. induction l as [|x l IH]; simpl; [reflexivity|].
  rewrite insert_key_In, IH. intuition.
Qed.

Lemma group_keys_sorted (l : list string) : StronglySorted slt (group_keys l).
Proof.
  unfold group_keys. induction l as [|x l IH]; simpl; [constructor|].
  now apply insert_key_sorted.
Qed.

(** The keys depend on which tickers occur, not on the order of the rows. *)
Lemma group_keys_perm (l l' : list string) :
  Permutation l l' -> group_keys l = group_keys l'.
Proof.
  intros HP. apply (sorted_unique slt slt_asym); try apply group_keys_sorted.
  intros k. rewrite !group_keys_In.
  split; apply Permutation_in; [exact HP | now symmetry].
Qed.

End Keys.

(* ------------------------------------------------------------------------- *)
(** ** idxmax and idxmin *)

Module Extremum.

Lemma labelled_In (df : list row) (i : nat) (r : row) :
  In (i, r) (labelled df) <-> df !! i = Some r.
Proof.
  unfold labelled. rewrite <- list_elem_of_In, elem_of_lookup_imap. split.
  - intros (j & y & [= -> ->] & Hj). exact Hj.
  - intros Hi. eauto.
Qed.

Lemma labelled_tickers (df : list row) :
  map (fun ir => ticker (snd ir)) (labelled df) = map ticker df.
Proof.
  apply list_eq. intros i. unfold labelled.
  change (map ?f ?l) with (f <$> l).
  rewrite !list_lookup_fmap, list_lookup_imap.
  now destruct (df !! i).
Qed.

Lemma argmax_from_In (l : list (nat * float)) (bi : nat) (b : float) :
  exists x, In (argmax_from bi b l, x) ((bi, b) :: l).
Proof.
  revert bi b. induction l as [|[j y] l IH]; intros bi b; simpl.
  - exists b. now left.
  - destruct (PrimFloat.ltb b y).
    + destruct (IH j y) as (x & Hx). exists x. now right.
    + destruct (IH bi b) as (x & [Hx|Hx]); exists x; auto.
Qed.

Lemma argmin_from_In (l : list (nat * float)) (bi : nat) (b : float) :
  exists x, In (argmin_from bi b l, x) ((bi, b) :: l).
Proof.
  revert bi b. induction l as [|[j y] l IH]; intros bi b; simpl.
  - exists b. now left.
  - destruct (PrimFloat.ltb y b).
    + destruct (IH j y) as (x & Hx). exists x. now right.
    + destruct (IH bi b) as (x & [Hx|Hx]); exists x; auto.
Qed.

Definition numbers (l : list (nat * float)) : Prop :=
  forall ix, In ix l -> PrimFloat.is_nan (snd ix) = false.

Lemma argmax_from_max (l : list (nat * float)) (bi : nat) (b : float) :
  numbers ((bi, b) :: l) ->
  exists x, In (argmax_from bi b l, x) ((bi, b) :: l)
    /\ forall jy, In jy ((bi, b) :: l) -> PrimFloat.leb (snd jy) x = true.
Proof.
  revert bi b. induction l as [|[j y] l IH]; intros bi b Hn.
  - exists b. split; [now left|].
    intros jy [<-|[]]. simpl. apply IEEE.leb_refl. apply (Hn (bi, b)). now left.
  - assert (Hb : PrimFloat.is_nan b = false) by (apply (Hn (bi, b)); now left).
    assert (Hy : PrimFloat.is_nan y = false)
      by (apply (Hn (j, y)); right; now left).
    simpl. destruct (PrimFloat.ltb b y) eqn:Hlt.
    + destruct (IH j y) as (x & Hx & Hmax).
      { intros ix Hix. apply Hn. now right. }
      exists x. split; [now right|].
      intros jy [<-|Hjy]; [|now apply Hmax].
      simpl. apply IEEE.leb_trans with y; [now apply IEEE.ltb_leb|].
      apply (Hmax (j, y)). now left.
    + destruct (IH bi b) as (x & Hx & Hmax).
      { intros ix [<-|Hix]; [exact Hb|]. apply Hn. right. now right. }
      exists x. split.
      * destruct Hx as [Hx|Hx]; [now left|right; now right].
      * intros jy [<-|[<-|Hjy]].
        -- apply (Hmax (bi, b)). now left.
        -- simpl. apply IEEE.leb_trans with b; [now apply IEEE.ltb_false_leb|].
           apply (Hmax (bi, b)). now left.
        -- apply Hmax. now right.
Qed.

Lemma argmin_from_min (l : list (nat * float)) (bi : nat) (b : float) :
  numbers ((bi, b) :: l) ->
  exists x, In (argmin_from bi b l, x) ((bi, b) :: l)
    /\ forall jy, In jy ((bi, b) :: l) -> PrimFloat.leb x (snd jy) = true.
Proof.
  revert bi b. induction l as [|[j y] l IH]; intros bi b Hn.
  - exists b. split; [now left|].
    intros jy [<-|[]]. simpl. apply IEEE.leb_refl. apply (Hn (bi, b)). now left.
  - assert (Hb : PrimFloat.is_nan b = false) by (apply (Hn (bi, b)); now left).
    assert (Hy : PrimFloat.is_nan y = false)
      by (apply (Hn (j, y)); right; now left).
    simpl. destruct (PrimFloat.ltb y b) eqn:Hlt.
    + destruct (IH j y) as (x & Hx & Hmin).
      { intros ix Hix. apply Hn. now right. }
      exists x. split; [now right|].
      intros jy [<-|Hjy]; [|now apply Hmin].
      simpl. apply IEEE.leb_trans with y; [|now apply IEEE.ltb_leb].
      apply (Hmin (j, y)). now left.
    + destruct (IH bi b) as (x & Hx & Hmin).
      { intros ix [<-|Hix]; [exact Hb|]. apply Hn. right. now right. }
      exists x. split.
      * destruct Hx as [Hx|Hx]; [now left|right; now right].
      * intros jy [<-|[<-|Hjy]].
        -- apply (Hmin (bi, b)). now left.
        -- simpl. apply IEEE.leb_trans with b; [|now apply IEEE.ltb_false_leb].
           apply (Hmin (bi, b)). now left.
        -- apply Hmin. now right.
Qed.

End Extremum.

(* ------------------------------------------------------------------------- *)
(** ** [make_table_df], one ticker at a time *)

Module Refine.

Import Extremum.

(** The rows of ticker [k], with their labels. *)
Definition group_of (k : string) (df : list row) : list (nat * row) :=
  List.filter (fun ir => String.eqb (ticker (snd ir)) k) (labelled df).

(** The rows of ticker [k] in the date-sorted frame. *)
Definition sorted_group `{SortKind} (k : string) (df : list row) : list row :=
  List.filter (fun r => String.eqb (ticker r) k) (sort_values df).

(** What [make_table_df] computes for ticker [k]. *)
Definition summarise `{SortKind} (df : list row) (k : string)
  : result TickerSummary :=
  let? imax := idxmax (group_of k df) in
  let? rmax := loc_row df imax in
  let? imin := idxmin (group_of k df) in
  let? rmin := loc_row df imin in
  let s := sorted_group k df in
  Ok (mkSummary
        (hd 0%Z (map date s)) (List.last (map date s) 0%Z) (date rmax) (date rmin)
        (first_valid (map price s)) (last_valid (map price s))
        (price rmax) (price rmin)).

Definition summary_line `{SortKind} (df : list row) (k : string)
  : result (string * TickerSummary) :=
  let? s := summarise df k in Ok (k, s).

Lemma group_of_In (k : string) (df : list row) (i : nat) (r : row) :
  In (i, r) (group_of k df) <-> df !! i = Some r /\ ticker r = k.
Proof.
  unfold group_of. rewrite filter_In, labelled_In. simpl.
  now rewrite String.eqb_eq.
Qed.

Lemma idxmax_In (g : list (nat * row)) (i : nat) :
  idxmax g = Ok i -> exists r, In (i, r) g.
Proof.
  unfold idxmax. destruct (forallb _ g); [discriminate|].
  destruct g as [|[i0 r0] g]; simpl; [discriminate|].
  intros [= <-].
  destruct (argmax_from_In
              (map (fun ir => (fst ir, fillna neg_infinity (price (snd ir)))) g)
              i0 (fillna neg_infinity (price r0))) as (x & [Hx|Hx]).
  - injection Hx as <- _. exists r0. now left.
  - apply in_map_iff in Hx as ([j r] & [= <- _] & Hin). exists r. now right.
Qed.

Lemma idxmin_In (g : list (nat * row)) (i : nat) :
  idxmin g = Ok i -> exists r, In (i, r) g.
Proof.
  unfold idxmin. destruct (forallb _ g); [discriminate|].
  destruct g as [|[i0 r0] g]; simpl; [discriminate|].
  intros [= <-].
  destruct (argmin_from_In
              (map (fun ir => (fst ir, fillna infinity (price (snd ir)))) g)
              i0 (fillna infinity (price r0))) as (x & [Hx|Hx]).
  - injection Hx as <- _. exists r0. now left.
  - apply in_map_iff in Hx as ([j r] & [= <- _] & Hin). exists r. now right.
Qed.

Lemma fillna_number (w x : float) :
  PrimFloat.is_nan x = false -> fillna w x = x.
Proof. unfold fillna. now intros ->. Qed.

Lemma idxmax_max (g : list (nat * row)) :
  g <> [] ->
  (forall ir, In ir g -> PrimFloat.is_nan (price (snd ir)) = false) ->
  exists i r, idxmax g = Ok i /\ In (i, r) g
    /\ forall ir, In ir g -> PrimFloat.leb (price (snd ir)) (price r) = true.
Proof.
  intros Hne Hn. unfold idxmax.
  destruct g as [|[i0 r0] g]; [contradiction|].
  assert (H0 : PrimFloat.is_nan (price r0) = false) by (apply (Hn (i0, r0)); now left).
  simpl. rewrite H0. simpl.
  rewrite (fillna_number _ _ H0).
  rewrite (map_ext_in _ (fun ir => (fst ir, price (snd ir)))).
  2:{ intros ir Hir. rewrite fillna_number; [reflexivity|]. apply Hn. now right. }
  destruct (argmax_from_max (map (fun ir => (fst ir, price (snd ir))) g) i0 (price r0))
    as (x & Hx & Hmax).
  { intros ix [<-|Hix]; [exact H0|].
    apply in_map_iff in Hix as (ir & <- & Hir). simpl. apply Hn. now right. }
  assert (Hr : exists r, In (argmax_from i0 (price r0)
                               (map (fun ir => (fst ir, price (snd ir))) g), r)
                            ((i0, r0) :: g) /\ price r = x).
  { destruct Hx as [Hx|Hx].
    - injection Hx as Hi <-. exists r0. rewrite <- Hi. split; [now left|reflexivity].
    - apply in_map_iff in Hx as ([j r] & [= <- <-] & Hin).
      exists r. split; [now right|reflexivity]. }
  destruct Hr as (r & Hr & <-).
  eexists _, r. split; [reflexivity|]. split; [exact Hr|].
  intros ir Hir. apply (Hmax (fst ir, price (snd ir))).
  destruct Hir as [<-|Hir]; [now left|right].
  apply in_map_iff. now exists ir.
Qed.

Lemma idxmin_min (g : list (nat * row)) :
  g <> [] ->
  (forall ir, In ir g -> PrimFloat.is_nan (price (snd ir)) = false) ->
  exists i r, idxmin g = Ok i /\ In (i, r) g
    /\ forall ir, In ir g -> PrimFloat.leb (price r) (price (snd ir)) = true.
Proof.
  intros Hne Hn. unfold idxmin.
  destruct g as [|[i0 r0] g]; [contradiction|].
  assert (H0 : PrimFloat.is_nan (price r0) = false) by (apply (Hn (i0, r0)); now left).
  simpl. rewrite H0. simpl.
  rewrite (fillna_number _ _ H0).
  rewrite (map_ext_in _ (fun ir => (fst ir, price (snd ir)))).
  2:{ intros ir Hir. rewrite fillna_number; [reflexivity|]. apply Hn. now right. }
  destruct (argmin_from_min (map (fun ir => (fst ir, price (snd ir))) g) i0 (price r0))
    as (x & Hx & Hmin).
  { intros ix [<-|Hix]; [exact H0|].
    apply in_map_iff in Hix as (ir & <- & Hir). simpl. apply Hn. now right. }
  assert (Hr : exists r, In (argmin_from i0 (price r0)
                               (map (fun ir => (fst ir, price (snd ir))) g), r)
                            ((i0, r0) :: g) /\ price r = x).
  { destruct Hx as [Hx|Hx].
    - injection Hx as Hi <-. exists r0. rewrite <- Hi. split; [now left|reflexivity].
    - apply in_map_iff in Hx as ([j r] & [= <- <-] & Hin).
      exists r. split; [now right|reflexivity]. }
  destruct Hr as (r & Hr & <-).
  eexists _, r. split; [reflexivity|]. split; [exact Hr|].
  intros ir Hir. apply (Hmin (fst ir, price (snd ir))).
  destruct Hir as [<-|Hir]; [now left|right].
  apply in_map_iff. now exists ir.
Qed.

Section Lines.

Context `{SortKind}.
Variable df : list row.

Lemma idxmin_ticker (k : string) (i : nat) (r : row) :
  idxmin (group_of k df) = Ok i -> loc_row df i = Ok r -> ticker r = k.
Proof.
  intros Hi Hr. apply idxmin_In in Hi as (r' & Hin).
  apply group_of_In in Hin as (Hl & Hk).
  unfold loc_row in Hr. rewrite Hl in Hr. now injection Hr as <-.
Qed.

(** The column-wise computation of [make_table_df], read off the lines. *)
Lemma summary_lines_split (ks : list string)
  (rows : list (string * TickerSummary)) :
  mapM (summary_line df) ks = Ok rows ->
  exists imax rmax imin rmin,
    mapM (fun kg => idxmax (snd kg)) (map (fun k => (k, group_of k df)) ks)
      = Ok imax
    /\ loc_rows df imax = Ok rmax
    /\ mapM (fun kg => idxmin (snd kg)) (map (fun k => (k, group_of k df)) ks)
      = Ok imin
    /\ loc_rows df imin = Ok rmin
    /\ map ticker rmin = ks
    /\ map fst rows = ks
    /\ map date rmax = map (fun r => date_max (snd r)) rows
    /\ map price rmax = map (fun r => price_max (snd r)) rows
    /\ map date rmin = map (fun r => date_min (snd r)) rows
    /\ map price rmin = map (fun r => price_min (snd r)) rows
    /\ map (fun k => hd 0%Z (map date (sorted_group k df))) ks
       = map (fun r => date_first (snd r)) rows
    /\ map (fun k => List.last (map date (sorted_group k df)) 0%Z) ks
       = map (fun r => date_last (snd r)) rows
    /\ map (fun k => first_valid (map price (sorted_group k df))) ks
       = map (fun r => price_first (snd r)) rows
    /\ map (fun k => last_valid (map price (sorted_group k df))) ks
       = map (fun r => price_last (snd r)) rows.
Proof.
  revert rows. induction ks as [|k ks IH]; intros rows Hrows.
  - injection Hrows as <-. exists [], [], [], []. repeat split; reflexivity.
  - simpl in Hrows. unfold summary_line at 1, summarise in Hrows.
    destruct (idxmax (group_of k df)) as [imax|] eqn:E1; simpl in Hrows;
      [|discriminate].
    destruct (loc_row df imax) as [rmax|] eqn:E2; simpl in Hrows; [|discriminate].
    destruct (idxmin (group_of k df)) as [imin|] eqn:E3; simpl in Hrows;
      [|discriminate].
    destruct (loc_row df imin) as [rmin|] eqn:E4; simpl in Hrows; [|discriminate].
    destruct (mapM (summary_line df) ks) as [rows'|] eqn:E5; simpl in Hrows;
      [|discriminate].
    injection Hrows as <-.
    destruct (IH rows' eq_refl)
      as (imaxs & rmaxs & imins & rmins & H1 & H2 & H3 & H4 & H5 & H6 & H7 & H8
          & H9 & H10 & H11 & H12 & H13 & H14).
    exists (imax :: imaxs), (rmax :: rmaxs), (imin :: imins), (rmin :: rmins).
    unfold loc_rows in *. simpl.
    rewrite E1, E2, E3, E4, H1, H2, H3, H4. simpl.
    rewrite (idxmin_ticker k imin rmin E3 E4).
    rewrite H5, H6, H7, H8, H9, H10, H11, H12, H13, H14.
    repeat split; reflexivity.
Qed.

Lemma sorted_keys :
  group_keys (map ticker (sort_values df)) = group_keys (map ticker df).
Proof.
  apply Keys.group_keys_perm, Permutation_map, sort_values_perm.
Qed.

(** [make_table_df] builds the summary table of the per-ticker lines. *)
Lemma make_table_df_rows (h : heap) (rows : list (string * TickerSummary)) :
  mapM (summary_line df) (group_keys (map ticker df)) = Ok rows ->
  make_table_df df h = (h ++ [summary_table rows], Ok (length h)).
Proof.
  intros Hrows.
  destruct (summary_lines_split _ _ Hrows)
    as (imax & rmax & imin & rmin & H1 & H2 & H3 & H4 & H5 & H6 & H7 & H8
        & H9 & H10 & H11 & H12 & H13 & H14).
  unfold make_table_df, groupby.
  rewrite labelled_tickers, sorted_keys.
  unfold bind, lift, alloc.
  change (map (fun k => (k, List.filter (fun a : nat * row => String.eqb (ticker (snd a)) k)
                             (labelled df))) (group_keys (map ticker df)))
    with (map (fun k => (k, group_of k df)) (group_keys (map ticker df))).
  rewrite H1, H2, H3, H4.
  unfold summary_table, sort_index, join, swaplevel, concat_keys,
    set_index_ticker, agg_first_last. simpl.
  rewrite !map_map. simpl.
  unfold sorted_group in H11, H12, H13, H14.
  rewrite H5, H6, H7, H8, H9, H10.
  repeat (f_equal; try assumption).
Qed.

End Lines.

(** *** The lines when every price is a number *)

Lemma mapM_ok {A B} (f : A -> result B) (P : A -> B -> Prop) (l : list A) :
  (forall a, In a l -> exists b, f a = Ok b /\ P a b) ->
  exists bs, mapM f l = Ok bs /\ Forall2 P l bs.
Proof.
  induction l as [|a l IH]; intros Hf.
  - exists []. split; [reflexivity|constructor].
  - destruct (Hf a (or_introl eq_refl)) as (b & Hb & Pb).
    destruct IH as (bs & Hbs & Pbs); [intros; apply Hf; now right|].
    exists (b :: bs). simpl. rewrite Hb, Hbs. split; [reflexivity|now constructor].
Qed.

Lemma sorted_filter {A} (R : A -> A -> Prop) (p : A -> bool) (l : list A) :
  StronglySorted R l -> StronglySorted R (List.filter p l).
Proof.
  induction 1 as [|x l Hs IH Hx]; simpl; [constructor|].
  destruct (p x); [|exact IH].
  constructor; [exact IH|].
  apply Forall_forall. intros y Hy.
  apply list_elem_of_In, filter_In in Hy as [Hy _].
  rewrite Forall_forall in Hx. apply Hx. now apply list_elem_of_In.
Qed.

Lemma sorted_hd_last (l : list Timestamp) :
  StronglySorted Z.le l -> (hd 0 l <= List.last l 0)%Z.
Proof.
  intros Hs. destruct Hs as [|x l Hs Hx]; simpl; [lia|].
  destruct l as [|y l]; [lia|].
  rewrite Forall_forall in Hx. apply Hx.
  apply list_elem_of_In.
  change (List.last (x :: y :: l) 0) with (List.last (y :: l) 0).
  destruct (exists_last (l := y :: l)) as (l' & z & ->); [discriminate|].
  rewrite last_last. apply in_or_app. right. now left.
Qed.

Lemma sorted_map_date (l : list row) :
  StronglySorted (fun a b => (date a <= date b)%Z) l ->
  StronglySorted Z.le (map date l).
Proof.
  induction 1 as [|x l Hs IH Hx]; simpl; constructor; [exact IH|].
  apply Forall_forall. intros d Hd.
  apply list_elem_of_In, in_map_iff in Hd as (r & <- & Hr).
  rewrite Forall_forall in Hx. apply Hx. now apply list_elem_of_In.
Qed.

Lemma first_valid_In (xs : list float) :
  xs <> [] -> (forall x, In x xs -> PrimFloat.is_nan x = false) ->
  In (first_valid xs) xs.
Proof.
  intros Hne Hn. destruct xs as [|x xs]; [contradiction|].
  unfold first_valid. simpl. rewrite (Hn x (or_introl eq_refl)). simpl. now left.
Qed.

Lemma last_valid_In (xs : list float) :
  xs <> [] -> (forall x, In x xs -> PrimFloat.is_nan x = false) ->
  In (last_valid xs) xs.
Proof.
  intros Hne Hn. unfold last_valid. apply in_rev. apply first_valid_In.
  - intros Hr. apply Hne. rewrite <- (rev_involutive xs), Hr. reflexivity.
  - intros x Hx. apply Hn. now apply in_rev.
Qed.

Section Numbers.

Context `{SortKind}.
Variable df : list row.
Hypothesis prices_are_numbers :
  forall r, In r df -> PrimFloat.is_nan (price r) = false.

Lemma sorted_group_In (k : string) (r : row) :
  In r (sorted_group k df) <-> In r df /\ ticker r = k.
Proof.
  unfold sorted_group. rewrite filter_In, String.eqb_eq.
  split; intros [Hin Hk]; split; try exact Hk.
  - eapply Permutation_in; [apply sort_values_perm|exact Hin].
  - eapply Permutation_in; [symmetry; apply sort_values_perm|exact Hin].
Qed.

(** What the line of a ticker with at least one row satisfies. *)
Definition well_summarised (k : string) (s : TickerSummary) : Prop :=
  (date_first s <= date_last s)%Z
  /\ (forall r, In r df -> ticker r = k ->
        PrimFloat.leb (price_min s) (price r) = true
        /\ PrimFloat.leb (price r) (price_max s) = true)
  /\ (exists r, In r df /\ ticker r = k /\ price r = price_first s)
  /\ (exists r, In r df /\ ticker r = k /\ price r = price_last s)
  /\ (exists r, In r df /\ ticker r = k /\ price r = price_max s
                /\ date r = date_max s)
  /\ (exists r, In r df /\ ticker r = k /\ price r = price_min s
                /\ date r = date_min s).

Lemma summarise_numbers (k : string) :
  In k (map ticker df) ->
  exists s, summarise df k = Ok s /\ well_summarised k s.
Proof.
  intros Hk. apply in_map_iff in Hk as (r0 & Hk0 & Hr0).
  assert (Hg : group_of k df <> []).
  { apply list_elem_of_In, list_elem_of_lookup in Hr0 as (i0 & Hi0).
    intros Hnil. assert (Hin : In (i0, r0) (group_of k df))
      by (apply group_of_In; auto).
    rewrite Hnil in Hin. destruct Hin. }
  assert (Hgn : forall ir, In ir (group_of k df) ->
                  PrimFloat.is_nan (price (snd ir)) = false).
  { intros [i r] Hir. apply group_of_In in Hir as (Hi & _).
    apply prices_are_numbers.
    apply list_elem_of_In. eapply list_elem_of_lookup_2; eauto. }
  destruct (idxmax_max _ Hg Hgn) as (imax & rmax & Emax & Hmaxin & Hmax).
  destruct (idxmin_min _ Hg Hgn) as (imin & rmin & Emin & Hminin & Hmin).
  apply group_of_In in Hmaxin as (Hlmax & Hkmax).
  apply group_of_In in Hminin as (Hlmin & Hkmin).
  unfold summarise, loc_row. rewrite Emax. simpl. rewrite Hlmax. simpl.
  rewrite Emin. simpl. rewrite Hlmin. simpl.
  eexists. split; [reflexivity|].
  assert (Hsg : sorted_group k df <> []).
  { intros Hnil. assert (Hin : In r0 (sorted_group k df))
      by (apply sorted_group_In; auto).
    rewrite Hnil in Hin. destruct Hin. }
  assert (Hsn : forall x, In x (map price (sorted_group k df)) ->
                  PrimFloat.is_nan x = false).
  { intros x Hx. apply in_map_iff in Hx as (r & <- & Hr).
    apply sorted_group_In in Hr as (Hr & _). now apply prices_are_numbers. }
  assert (Hpn : map price (sorted_group k df) <> []).
  { destruct (sorted_group k df); [contradiction|discriminate]. }
  unfold well_summarised. simpl.
  split; [|split; [|split; [|split; [|split]]]].
  - apply sorted_hd_last, sorted_map_date. unfold sorted_group.
    apply sorted_filter, sort_values_sorted.
  - intros r Hr Hkr.
    apply list_elem_of_In, list_elem_of_lookup in Hr as (i & Hi).
    split.
    + apply (Hmin (i, r)). apply group_of_In. auto.
    + apply (Hmax (i, r)). apply group_of_In. auto.
  - pose proof (first_valid_In _ Hpn Hsn) as Hf.
    apply in_map_iff in Hf as (r & Hr & Hin).
    apply sorted_group_In in Hin as (Hin & Hkr). eauto.
  - pose proof (last_valid_In _ Hpn Hsn) as Hf.
    apply in_map_iff in Hf as (r & Hr & Hin).
    apply sorted_group_In in Hin as (Hin & Hkr). eauto.
  - exists rmax. repeat split; auto.
    apply list_elem_of_In. eapply list_elem_of_lookup_2; eauto.
  - exists rmin. repeat split; auto.
    apply list_elem_of_In. eapply list_elem_of_lookup_2; eauto.
Qed.

Lemma summary_lines_numbers :
  exists rows,
    mapM (summary_line df) (group_keys (map ticker df)) = Ok rows
    /\ map fst rows = group_keys (map ticker df)
    /\ forall k s, In (k, s) rows -> well_summarised k s.
Proof.
  destruct (mapM_ok (summary_line df)
              (fun k line => fst line = k /\ well_summarised k (snd line))
              (group_keys (map ticker df))) as (rows & Hrows & Hall).
  { intros k Hk. apply (proj1 (Keys.group_keys_In _ _)) in Hk.
    destruct (summarise_numbers k Hk) as (s & Hs & Hw).
    exists (k, s). unfold summary_line. rewrite Hs. simpl. auto. }
  exists rows. split; [exact Hrows|]. split.
  - clear Hrows. induction Hall as [|k line ks rows [Hk _] _ IH]; simpl;
      [reflexivity|]. now rewrite Hk, IH.
  - intros k s Hin. clear Hrows.
    induction Hall as [|k' line ks rows [Hk Hw] _ IH]; [destruct Hin|].
    destruct Hin as [->|Hin]; [|now apply IH].
    simpl in *. now subst k'.
Qed.

End Numbers.

End Refine.

(* ------------------------------------------------------------------------- *)
(** ** Table Builder and summary extraction: the claims *)

(** C4. When every price of the working table is a number (as the
    non-negative price of a PricePoint is), [make_table_df] returns a summary
    table with one line for every ticker that has a row, and on each line
    date_first <= date_last, price_min is below and price_max above every price
    of that ticker, price_first and price_last included. The sort may break
    ties between equal dates as it likes. *)
Theorem summary_bounds_every_sample `{SortKind} (df : list row) (h : heap) :
  (forall r, In r df -> PrimFloat.is_nan (price r) = false) ->
  exists rows : list (string * TickerSummary),
    make_table_df df h = (h ++ [summary_table rows], Ok (length h))
    /\ (forall k, In k (map fst rows) <-> exists r, In r df /\ ticker r = k)
    /\ forall k s, In (k, s) rows ->
         (date_first s <= date_last s)%Z
         /\ (forall r, In r df -> ticker r = k ->
               PrimFloat.leb (price_min s) (price r) = true
               /\ PrimFloat.leb (price r) (price_max s) = true)
         /\ PrimFloat.leb (price_min s) (price_first s) = true
         /\ PrimFloat.leb (price_min s) (price_last s) = true
         /\ PrimFloat.leb (price_min s) (price_max s) = true
         /\ PrimFloat.leb (price_first s) (price_max s) = true
         /\ PrimFloat.leb (price_last s) (price_max s) = true.
Proof.
  intros Hn.
  destruct (Refine.summary_lines_numbers df Hn) as (rows & Hrows & Hkeys & Hall).
  exists rows. split; [now apply Refine.make_table_df_rows|]. split.
  - intros k. rewrite Hkeys, Keys.group_keys_In, in_map_iff.
    split; intros (r & Hr1 & Hr2); exists r; auto.
  - intros k s Hin.
    destruct (Hall k s Hin)
      as (Hd & Hb & (rf & Hf1 & Hf2 & Hf3) & (rl & Hl1 & Hl2 & Hl3)
          & (rx & Hx1 & Hx2 & Hx3 & _) & _).
    split; [exact Hd|]. split; [exact Hb|].
    rewrite <- Hf3, <- Hl3.
    destruct (Hb rf Hf1 Hf2) as [Hf4 Hf5].
    destruct (Hb rl Hl1 Hl2) as [Hl4 Hl5].
    destruct (Hb rx Hx1 Hx2) as [Hx4 _].
    rewrite Hx3 in Hx4. auto 10.
Qed.

Lemma summary_bounds_every_sample_witness :
  exists rows : list (string * TickerSummary),
    make_table_df (H := StableSort.stable) aaa_rows []
      = ([] ++ [summary_table rows], Ok (length (@nil DataFrame)))
    /\ (forall k, In k (map fst rows) <-> exists r, In r aaa_rows /\ ticker r = k)
    /\ forall k s, In (k, s) rows ->
         (date_first s <= date_last s)%Z
         /\ (forall r, In r aaa_rows -> ticker r = k ->
               PrimFloat.leb (price_min s) (price r) = true
               /\ PrimFloat.leb (price r) (price_max s) = true)
         /\ PrimFloat.leb (price_min s) (price_first s) = true
         /\ PrimFloat.leb (price_min s) (price_last s) = true
         /\ PrimFloat.leb (price_min s) (price_max s) = true
         /\ PrimFloat.leb (price_first s) (price_max s) = true
         /\ PrimFloat.leb (price_last s) (price_max s) = true.
Proof.
  apply (summary_bounds_every_sample (H := StableSort.stable) aaa_rows []).
  intros r [<-|[<-|[<-|[]]]]; reflexivity.
Defined.

(** *** The whole transformation on a batch that summarises *)

Lemma insert_fresh (h : heap) (t t' : DataFrame) :
  <[length h := t']> (h ++ [t]) = h ++ [t'].
Proof.
  rewrite insert_app_r_alt by lia. now rewrite Nat.sub_diag.
Qed.

Lemma transform_rows `{SortKind} (token_prices : list Json.payload)
  (deposit : Z) (d : float) (df : list row)
  (rows : list (string * TickerSummary)) (h : heap) :
  historical_prices_to_df token_prices = Ok df ->
  mapM (Refine.summary_line df) (group_keys (map ticker df)) = Ok rows ->
  float_of_int deposit = Ok d ->
  transform token_prices deposit h = (h ++ [with_profits d rows], Ok (length h)).
Proof.
  intros Hdf Hrows Hd. unfold transform.
  unfold bind at 1, lift. rewrite Hdf.
  unfold bind at 1. rewrite (Refine.make_table_df_rows df h rows Hrows).
  unfold bind at 1.
  rewrite (calculate_price_ratio_summary _ _ rows)
    by now apply list_lookup_middle.
  rewrite insert_fresh.
  rewrite (calculate_profit_ratios _ _ rows deposit d);
    [|now apply list_lookup_middle|exact Hd].
  now rewrite insert_fresh.
Qed.

(** A frame whose dates are all different has one ascending order. *)
Lemma sort_values_unique `{SortKind} (l : list row) :
  StronglySorted (fun a b => (date a < date b)%Z) l -> sort_values l = l.
Proof.
  intros Hl.
  apply (sorted_unique (fun a b => (date a < date b)%Z)); [intros; lia| |exact Hl|].
  - assert (Hnd : List.NoDup (map date (sort_values l))).
    { eapply Permutation_NoDup;
        [apply Permutation_map; symmetry; apply sort_values_perm|].
      clear -Hl. induction Hl as [|x l Hs IH Hx]; simpl; constructor; [|exact IH].
      intros Hin. apply in_map_iff in Hin as (r & Hr & Hin).
      rewrite Forall_forall in Hx. apply list_elem_of_In, Hx in Hin. lia. }
    pose proof (sort_values_sorted l) as Hs.
    induction Hs as [|x s Hs IH Hx]; constructor.
    + apply IH. now inversion Hnd.
    + simpl in Hnd. inversion Hnd as [|? ? Hnotin _]; subst.
      rewrite Forall_forall in Hx |- *. intros y Hy.
      specialize (Hx y Hy).
      assert (date x <> date y); [|lia].
      intros Heq. apply Hnotin. apply in_map_iff.
      exists y. split; [now symmetry|now apply list_elem_of_In].
  - intros x. split; apply Permutation_in;
      [apply sort_values_perm | symmetry; apply sort_values_perm].
Qed.

(** C7. The scenario of the specification: ticker AAA with the samples
    (2021-01-01, 100), (2021-01-15, 150), (2021-02-01, 90) and a deposit of
    1000. Table build, ratio and profit leave a new table with the single line
    AAA: first price 100, last 90, maximum 150 (minimum 90), r_last 0.9, r_max
    1.5, p_last -100, p_max 500; whatever the sorting algorithm. *)
Theorem scenario_aaa `{SortKind} (h : heap) :
  transform [aaa_payload] 1000 h
  = (h ++ [ mkDataFrame ["AAA"]
              [ (("date", "first"), Datetime64 [18628]);
                (("date", "last"), Datetime64 [18659]);
                (("date", "max"), Datetime64 [18642]);
                (("date", "min"), Datetime64 [18659]);
                (("price", "first"), Float64 [100%float]);
                (("price", "last"), Float64 [90%float]);
                (("price", "max"), Float64 [150%float]);
                (("price", "min"), Float64 [90%float]);
                (("r_last", ""), Float64 [0.9%float]);
                (("r_max", ""), Float64 [1.5%float]);
                (("p_last", ""), Float64 [(-100)%float]);
                (("p_max", ""), Float64 [500%float]) ] ],
     Ok (length h))
  /\ to_datetime "2021-01-01" = Ok 18628
  /\ to_datetime "2021-01-15" = Ok 18642
  /\ to_datetime "2021-02-01" = Ok 18659.
Proof.
  split; [|repeat split; vm_compute; reflexivity].
  rewrite (transform_rows [aaa_payload] 1000 1000%float aaa_rows
             [("AAA", aaa_summary)] h).
  - vm_compute. reflexivity.
  - vm_compute. reflexivity.
  - unfold Refine.summary_line, Refine.summarise, Refine.sorted_group.
    rewrite (sort_values_unique aaa_rows).
    + vm_compute. reflexivity.
    + repeat constructor; simpl; lia.
  - vm_compute. reflexivity.
Qed.

(** *** Flattening *)

(** How a row of the working table stands to the record it comes from. *)
Definition flattened (item : Json.price_item) (r : row) : Prop :=
  ticker r = Json.contract_ticker_symbol (Json.contract_metadata item)
  /\ price r = to_numeric (Json.price item)
  /\ to_datetime (Json.date item) = Ok (date r).

Lemma flatten_records (token_prices : list Json.payload) :
  json_normalize token_prices <> [] ->
  (forall item, In item (json_normalize token_prices) ->
     exists d, to_datetime (Json.date item) = Ok d) ->
  exists df, historical_prices_to_df token_prices = Ok df
    /\ Forall2 flattened (json_normalize token_prices) df.
Proof.
  intros Hne Hdates.
  destruct (Refine.mapM_ok row_of_record flattened (json_normalize token_prices))
    as (df & Hdf & Hall).
  { intros item Hin. destruct (Hdates item Hin) as (d & Hd).
    unfold row_of_record. rewrite Hd. simpl. eexists. split; [reflexivity|].
    repeat split. exact Hd. }
  exists df. split; [|exact Hall].
  unfold historical_prices_to_df.
  destruct (json_normalize token_prices); [contradiction|exact Hdf].
Qed.

Lemma flattened_count (t : string) (items : list Json.price_item)
  (df : list row) :
  Forall2 flattened items df ->
  length (List.filter (fun r => String.eqb (ticker r) t) df)
  = length (List.filter
              (fun i => String.eqb
                          (Json.contract_ticker_symbol (Json.contract_metadata i)) t)
              items).
Proof.
  induction 1 as [|item r items df (Ht & _) _ IH]; simpl; [reflexivity|].
  rewrite Ht. destruct (String.eqb _ t); simpl; now rewrite IH.
Qed.

Lemma normalize_count (p : Json.price_item -> bool)
  (token_prices : list Json.payload) :
  length (List.filter p (json_normalize token_prices))
  = list_sum (map (fun h => length (List.filter p (Json.prices (Json.data h))))
                token_prices).
Proof.
  unfold json_normalize.
  induction token_prices as [|h hs IH]; simpl; [reflexivity|].
  now rewrite List.filter_app, length_app, IH.
Qed.

(** C5 does not hold as stated: when no fetched history holds a sample the
    flattening yields no table of zero rows, it raises. *)
Lemma flattening_nothing_raises :
  length (Json.prices (Json.data no_samples)) = 0%nat
  /\ historical_prices_to_df [no_samples] = Raise (KeyError wanted_columns).
Proof. split; reflexivity. Qed.

(** *** Calendar dates *)

Module Calendar.

(** The decimal digit [n], 0 to 9, as a character. *)
Definition digit_char (n : Z) : ascii := ascii_of_nat (Z.to_nat (48 + n)).

Definition two_digits (n : Z) : list ascii :=
  [digit_char (n / 10)%Z; digit_char (n mod 10)%Z].

Definition four_digits (n : Z) : list ascii :=
  [digit_char (n / 1000)%Z; digit_char (n / 100 mod 10)%Z;
   digit_char (n / 10 mod 10)%Z; digit_char (n mod 10)%Z].

(** The text [YYYY-MM-DD] of the civil date [y]-[m]-[d]. *)
Definition iso (y m d : Z) : string :=
  string_of_list_ascii
    (four_digits y ++ "-"%char :: two_digits m ++ "-"%char :: two_digits d).

(** A date of the Gregorian calendar whose midnight a Timestamp holds:
    1677-09-22 to 2262-04-11. *)
Definition calendar_date (y m d : Z) : Prop :=
  (0 <= y <= 9999 /\ 1 <= m <= 12 /\ 1 <= d <= days_in_month y m
   /\ MIN_DAY <= days_from_civil y m d <= MAX_DAY)%Z.

Lemma digit_digit_char (k : Z) :
  (0 <= k <= 9)%Z -> Date.digit (digit_char k) = Some k.
Proof.
  intros Hk.
  assert (Hc : (k = 0 \/ k = 1 \/ k = 2 \/ k = 3 \/ k = 4 \/ k = 5 \/ k = 6
                \/ k = 7 \/ k = 8 \/ k = 9)%Z) by lia.
  repeat (destruct Hc as [->|Hc]; [reflexivity|]). now subst.
Qed.

Lemma number_two (n : Z) :
  (0 <= n <= 99)%Z ->
  Date.number [digit_char (n / 10)%Z; digit_char (n mod 10)%Z] = Some n.
Proof.
  intros Hn. unfold Date.number. cbn [foldl].
  rewrite !digit_digit_char by (Z.div_mod_to_equations; lia).
  f_equal. Z.div_mod_to_equations. lia.
Qed.

Lemma number_four (n : Z) :
  (0 <= n <= 9999)%Z ->
  Date.number [digit_char (n / 1000)%Z; digit_char (n / 100 mod 10)%Z;
               digit_char (n / 10 mod 10)%Z; digit_char (n mod 10)%Z] = Some n.
Proof.
  intros Hn. unfold Date.number. cbn [foldl].
  rewrite !digit_digit_char by (Z.div_mod_to_equations; lia).
  f_equal. Z.div_mod_to_equations. lia.
Qed.

(** Reading back what [iso] writes: the day number of the date. *)
Lemma to_datetime_iso (y m d : Z) :
  calendar_date y m d -> to_datetime (iso y m d) = Ok (days_from_civil y m d).
Proof.
  intros (Hy & Hm & Hd & Hlo & Hhi).
  assert (Hdm : (days_in_month y m <= 31)%Z).
  { unfold days_in_month.
    repeat destruct (_ =? _)%Z; try destruct (Date.is_leap y); simpl; lia. }
  unfold to_datetime, iso. rewrite list_ascii_of_string_of_list_ascii.
  unfold four_digits, two_digits. cbn [app].
  rewrite number_four by exact Hy.
  rewrite !number_two by lia.
  change (Ascii.eqb "-" "-") with true.
  rewrite !(proj2 (Z.leb_le _ _)) by lia.
  reflexivity.
Qed.

Lemma digit_inv (c : ascii) (k : Z) :
  Date.digit c = Some k -> c = digit_char k /\ (0 <= k <= 9)%Z.
Proof.
  unfold Date.digit, digit_char.
  destruct (_ && _) eqn:Hb; [|discriminate]. intros [= <-].
  apply andb_prop in Hb as [H1 H2]. apply Z.leb_le in H1, H2.
  split; [|lia].
  replace (48 + (Z.of_nat (nat_of_ascii c) - 48))%Z
    with (Z.of_nat (nat_of_ascii c)) by lia.
  now rewrite Nat2Z.id, ascii_nat_embedding.
Qed.

Lemma number_two_inv (a b : ascii) (n : Z) :
  Date.number [a; b] = Some n -> [a; b] = two_digits n /\ (0 <= n <= 99)%Z.
Proof.
  unfold Date.number. cbn [foldl].
  destruct (Date.digit a) as [ka|] eqn:Ha; [|discriminate].
  destruct (Date.digit b) as [kb|] eqn:Hb; [|discriminate].
  intros [= <-].
  apply digit_inv in Ha as [-> Ha]. apply digit_inv in Hb as [-> Hb].
  split; [|lia]. unfold two_digits.
  repeat f_equal; Z.div_mod_to_equations; lia.
Qed.

Lemma number_four_inv (a b c e : ascii) (n : Z) :
  Date.number [a; b; c; e] = Some n ->
  [a; b; c; e] = four_digits n /\ (0 <= n <= 9999)%Z.
Proof.
  unfold Date.number. cbn [foldl].
  destruct (Date.digit a) as [ka|] eqn:Ha; [|discriminate].
  destruct (Date.digit b) as [kb|] eqn:Hb; [|discriminate].
  destruct (Date.digit c) as [kc|] eqn:Hc; [|discriminate].
  destruct (Date.digit e) as [ke|] eqn:He; [|discriminate].
  intros [= <-].
  apply digit_inv in Ha as [-> Ha]. apply digit_inv in Hb as [-> Hb].
  apply digit_inv in Hc as [-> Hc]. apply digit_inv in He as [-> He].
  split; [|lia]. unfold four_digits.
  repeat f_equal; Z.div_mod_to_equations; lia.
Qed.

(** The strings [to_datetime] gives a day for are the texts of calendar
    dates, no others. *)
Lemma to_datetime_inv (s : string) (t : Timestamp) :
  to_datetime s = Ok t ->
  exists y m d, s = iso y m d /\ calendar_date y m d /\ t = days_from_civil y m d.
Proof.
  unfold to_datetime.
  destruct (list_ascii_of_string s)
    as [|y1 [|y2 [|y3 [|y4 [|dash1 [|m1 [|m2 [|dash2 [|d1 [|d2 [|x l]]]]]]]]]]]
    eqn:Hs; try discriminate.
  destruct (Date.number [y1; y2; y3; y4]) as [y|] eqn:Hy; [|discriminate].
  destruct (Date.number [m1; m2]) as [m|] eqn:Hm; [|discriminate].
  destruct (Date.number [d1; d2]) as [d|] eqn:Hd; [|discriminate].
  destruct (_ && _) eqn:Hc; [|discriminate]. intros [= <-].
  repeat (apply andb_prop in Hc as [Hc ?]).
  apply Ascii.eqb_eq in Hc as ->.
  match goal with H : Ascii.eqb dash2 _ = true |- _ => apply Ascii.eqb_eq in H as -> end.
  repeat match goal with H : (_ <=? _)%Z = true |- _ => apply Z.leb_le in H end.
  apply number_four_inv in Hy as [Hy Hyb].
  apply number_two_inv in Hm as [Hm Hmb].
  apply number_two_inv in Hd as [Hd Hdb].
  exists y, m, d. split; [|split; [unfold calendar_date; auto 10|reflexivity]].
  rewrite <- (string_of_list_ascii_of_string s), Hs. unfold iso.
  injection Hy as -> -> -> ->. injection Hm as -> ->. injection Hd as -> ->.
  reflexivity.
Qed.

End Calendar.

Lemma flattened_dates (items : list Json.price_item) (df : list row) :
  Forall2 flattened items df ->
  (forall item, In item items ->
     exists y m d, Json.date item = Calendar.iso y m d
                   /\ Calendar.calendar_date y m d) ->
  Forall2
    (fun item r =>
       ticker r = Json.contract_ticker_symbol (Json.contract_metadata item)
       /\ price r = to_numeric (Json.price item)
       /\ exists y m d, Json.date item = Calendar.iso y m d
                        /\ Calendar.calendar_date y m d
                        /\ date r = days_from_civil y m d)
    items df.
Proof.
  induction 1 as [|item r items df (Ht & Hp & Hd) _ IH]; intros Hdates;
    constructor.
  - split; [exact Ht|]. split; [exact Hp|].
    destruct (Hdates item (or_introl eq_refl)) as (y & m & d & Hiso & Hcal).
    exists y, m, d. split; [exact Hiso|]. split; [exact Hcal|].
    rewrite Hiso, (Calendar.to_datetime_iso y m d Hcal) in Hd. congruence.
  - apply IH. intros item' Hin. apply Hdates. now right.
Qed.

(** C5, amended. When no fetched history holds a sample the flattening raises
    KeyError. When the histories hold at least one sample and every date is
    written YYYY-MM-DD and is a calendar date a Timestamp holds (1677-09-22 to
    2262-04-11): the flattening returns a table with one row per sample, in
    order; each row carries the ticker symbol of its sample's contract
    metadata, the price as a number (NaN for null) and the day number of its
    date, so the rows of a ticker are as many as the samples the histories hold
    for it. *)
Theorem flattening_keeps_every_sample (token_prices : list Json.payload) :
  (json_normalize token_prices = [] ->
   historical_prices_to_df token_prices = Raise (KeyError wanted_columns))
  /\ (json_normalize token_prices <> [] ->
      (forall item, In item (json_normalize token_prices) ->
         exists y m d, Json.date item = Calendar.iso y m d
                       /\ Calendar.calendar_date y m d) ->
      exists df : list row,
        historical_prices_to_df token_prices = Ok df
        /\ length df
           = list_sum (map (fun h => length (Json.prices (Json.data h)))
                         token_prices)
        /\ Forall2
             (fun item r =>
                ticker r
                = Json.contract_ticker_symbol (Json.contract_metadata item)
                /\ price r = to_numeric (Json.price item)
                /\ exists y m d, Json.date item = Calendar.iso y m d
                                 /\ Calendar.calendar_date y m d
                                 /\ date r = days_from_civil y m d)
             (flat_map (fun h => Json.prices (Json.data h)) token_prices) df
        /\ forall t : string,
             length (List.filter (fun r => String.eqb (ticker r) t) df)
             = list_sum
                 (map (fun h =>
                         length (List.filter
                                   (fun i => String.eqb
                                      (Json.contract_ticker_symbol
                                         (Json.contract_metadata i)) t)
                                   (Json.prices (Json.data h))))
                      token_prices)).
Proof.
  split.
  - intros Hnil. unfold historical_prices_to_df. now rewrite Hnil.
  - intros Hne Hdates.
    destruct (flatten_records token_prices Hne) as (df & Hdf & Hall).
    { intros item Hin. destruct (Hdates item Hin) as (y & m & d & -> & Hcal).
      rewrite (Calendar.to_datetime_iso y m d Hcal). eauto. }
    exists df. split; [exact Hdf|]. split; [|split].
    + rewrite <- (Forall2_length _ _ _ Hall).
      unfold json_normalize. clear.
      induction token_prices as [|h hs IH]; simpl; [reflexivity|].
      now rewrite length_app, IH.
    + exact (flattened_dates _ _ Hall Hdates).
    + intros t. rewrite (flattened_count t _ _ Hall). apply normalize_count.
Qed.

Lemma flattening_keeps_every_sample_witness :
  historical_prices_to_df [no_samples; no_samples]
  = Raise (KeyError wanted_columns)
  /\ exists df : list row,
       historical_prices_to_df [aaa_payload; no_samples; bbb_payload] = Ok df
       /\ length df
          = list_sum (map (fun h => length (Json.prices (Json.data h)))
                        [aaa_payload; no_samples; bbb_payload])
       /\ Forall2
            (fun item r =>
               ticker r
               = Json.contract_ticker_symbol (Json.contract_metadata item)
               /\ price r = to_numeric (Json.price item)
               /\ exists y m d, Json.date item = Calendar.iso y m d
                                /\ Calendar.calendar_date y m d
                                /\ date r = days_from_civil y m d)
            (flat_map (fun h => Json.prices (Json.data h))
               [aaa_payload; no_samples; bbb_payload])
            df
       /\ forall t : string,
            length (List.filter (fun r => String.eqb (ticker r) t) df)
            = list_sum
                (map (fun h =>
                        length (List.filter
                                  (fun i => String.eqb
                                     (Json.contract_ticker_symbol
                                        (Json.contract_metadata i)) t)
                                  (Json.prices (Json.data h))))
                     [aaa_payload; no_samples; bbb_payload]).
Proof.
  split.
  - apply (proj1 (flattening_keeps_every_sample [no_samples; no_samples])).
    reflexivity.
  - apply (proj2 (flattening_keeps_every_sample
                    [aaa_payload; no_samples; bbb_payload])).
    + discriminate.
    + intros item [<-|[<-|[<-|[<-|[<-|[]]]]]].
      * exists 2021%Z, 1%Z, 1%Z. split; [reflexivity|now cbv].
      * exists 2021%Z, 1%Z, 15%Z. split; [reflexivity|now cbv].
      * exists 2021%Z, 2%Z, 1%Z. split; [reflexivity|now cbv].
      * exists 2021%Z, 1%Z, 1%Z. split; [reflexivity|now cbv].
      * exists 2021%Z, 1%Z, 20%Z. split; [reflexivity|now cbv].
Defined.

(** The flattened table of the witness: the rows of AAA, then those of BBB. *)
Example flattening_two_tickers :
  historical_prices_to_df [aaa_payload; no_samples; bbb_payload]
  = Ok (aaa_rows ++ bbb_rows).
Proof. vm_compute. reflexivity. Qed.

(** *** A ticker without samples *)

(** C6 does not hold as stated: with an empty history for BBB next to the
    three samples of AAA the run ends normally, prints and charts a table, and
    the table has the line of AAA only. *)
Lemma empty_ticker_is_skipped :
  Json.prices (Json.data (Http.json
    (server_empty_bbb (request "k" "BBB" "2021-01-01" "2021-04-19")))) = []
  /\ script (H := StableSort.stable) "k" server_empty_bbb ["AAA"; "BBB"]
       "2021-01-01" "2021-04-19" 1000 [0; 1]%nat
     = ([request "k" "AAA" "2021-01-01" "2021-04-19";
         request "k" "BBB" "2021-01-01" "2021-04-19"],
        [Printed (with_profits 1000 [("AAA", aaa_summary)]);
         Chart (with_profits 1000 [("AAA", aaa_summary)])
           "Profit from 2021-01-01 to 2021-04-19"],
        Finished (Ok tt))
  /\ index (with_profits 1000 [("AAA", aaa_summary)]) = ["AAA"].
Proof. repeat split; vm_compute; reflexivity. Qed.

Lemma transform_nothing `{SortKind} (token_prices : list Json.payload)
  (deposit : Z) (h : heap) :
  json_normalize token_prices = [] ->
  transform token_prices deposit h = (h, Raise (KeyError wanted_columns)).
Proof.
  intros Hnil. unfold transform, bind, lift, historical_prices_to_df.
  now rewrite Hnil.
Qed.

Lemma transform_numbers `{SortKind} (token_prices : list Json.payload)
  (deposit : Z) (d : float) (h : heap) :
  json_normalize token_prices <> [] ->
  (forall item, In item (json_normalize token_prices) ->
     (exists t, to_datetime (Json.date item) = Ok t)
     /\ PrimFloat.is_nan (to_numeric (Json.price item)) = false) ->
  float_of_int deposit = Ok d ->
  exists rows,
    transform token_prices deposit h
      = (h ++ [with_profits d rows], Ok (length h))
    /\ forall k, In k (map fst rows) <->
         exists item, In item (json_normalize token_prices)
           /\ Json.contract_ticker_symbol (Json.contract_metadata item) = k.
Proof.
  intros Hne Hitems Hd.
  destruct (flatten_records token_prices Hne) as (df & Hdf & Hall).
  { intros item Hin. now destruct (Hitems item Hin). }
  assert (Hn : forall r, In r df -> PrimFloat.is_nan (price r) = false).
  { intros r Hr.
    apply list_elem_of_In, list_elem_of_lookup in Hr as (i & Hi).
    destruct (Forall2_lookup_r _ _ _ _ _ Hall Hi) as (item & Hitem & (_ & Hp & _)).
    rewrite Hp. apply Hitems.
    apply list_elem_of_In. eapply list_elem_of_lookup_2; eauto. }
  destruct (Refine.summary_lines_numbers df Hn) as (rows & Hrows & Hkeys & _).
  exists rows. split; [now apply (transform_rows _ _ d df)|].
  intros k. rewrite Hkeys, Keys.group_keys_In, in_map_iff. split.
  - intros (r & Hk & Hr). apply list_elem_of_In, list_elem_of_lookup in Hr as (i & Hi).
    destruct (Forall2_lookup_r _ _ _ _ _ Hall Hi) as (item & Hitem & (Ht & _)).
    exists item. split; [|congruence].
    apply list_elem_of_In. eapply list_elem_of_lookup_2; eauto.
  - intros (item & Hin & Hk).
    apply list_elem_of_In, list_elem_of_lookup in Hin as (i & Hi).
    destruct (Forall2_lookup_l _ _ _ _ _ Hall Hi) as (r & Hr & (Ht & _)).
    exists r. split; [congruence|].
    apply list_elem_of_In. eapply list_elem_of_lookup_2; eauto.
Qed.

(** C6, amended. No check for an empty history exists. When the fetched
    histories hold no sample at all, the run ends with the KeyError of the
    column selection, nothing printed, nothing charted. When they hold a sample
    (dates being dates, prices numbers, the deposit convertible), the run ends
    normally, prints and charts one table, and the lines of that table are the
    tickers that have a sample: a ticker without samples is left out, silently. *)
Theorem empty_history_outcome `{SortKind} (API_KEY : string)
  (server : Http.Request -> Http.Response) (ticker_list : list string)
  (from_date to_date : string) (deposit : Z) (arrivals : list nat)
  (log : list Http.Request) (token_prices : list Json.payload) :
  get_all_token_prices API_KEY server ticker_list from_date to_date arrivals
    = (log, Finished (Ok token_prices)) ->
  (json_normalize token_prices = [] ->
     script API_KEY server ticker_list from_date to_date deposit arrivals
     = (log, [], Finished (Raise (KeyError wanted_columns))))
  /\ (json_normalize token_prices <> [] ->
      (forall item, In item (json_normalize token_prices) ->
         (exists t, to_datetime (Json.date item) = Ok t)
         /\ PrimFloat.is_nan (to_numeric (Json.price item)) = false) ->
      (exists d, float_of_int deposit = Ok d) ->
      exists t : DataFrame,
        script API_KEY server ticker_list from_date to_date deposit arrivals
        = (log,
           [Printed t;
            Chart t ("Profit from " ++ from_date ++ " to " ++ to_date)%string],
           Finished (Ok tt))
        /\ forall k, In k (index t) <->
             exists item, In item (json_normalize token_prices)
               /\ Json.contract_ticker_symbol (Json.contract_metadata item) = k).
Proof.
  intros Hfetch. split.
  - intros Hnil. unfold script. rewrite Hfetch.
    unfold bind at 1. now rewrite (transform_nothing _ _ _ Hnil).
  - intros Hne Hitems (d & Hd).
    destruct (transform_numbers token_prices deposit d [] Hne Hitems Hd)
      as (rows & Hrun & Hkeys).
    exists (with_profits d rows). split; [|exact Hkeys].
    unfold script. rewrite Hfetch. unfold bind at 1. rewrite Hrun.
    reflexivity.
Qed.

Lemma empty_history_outcome_witness :
  (json_normalize [aaa_payload; no_samples] = [] ->
     script (H := StableSort.stable) "k" server_empty_bbb ["AAA"; "BBB"]
       "2021-01-01" "2021-04-19" 1000 [0; 1]%nat
     = ([request "k" "AAA" "2021-01-01" "2021-04-19";
         request "k" "BBB" "2021-01-01" "2021-04-19"],
        [], Finished (Raise (KeyError wanted_columns))))
  /\ (json_normalize [aaa_payload; no_samples] <> [] ->
      (forall item, In item (json_normalize [aaa_payload; no_samples]) ->
         (exists t, to_datetime (Json.date item) = Ok t)
         /\ PrimFloat.is_nan (to_numeric (Json.price item)) = false) ->
      (exists d, float_of_int 1000 = Ok d) ->
      exists t : DataFrame,
        script (H := StableSort.stable) "k" server_empty_bbb ["AAA"; "BBB"]
          "2021-01-01" "2021-04-19" 1000 [0; 1]%nat
        = ([request "k" "AAA" "2021-01-01" "2021-04-19";
            request "k" "BBB" "2021-01-01" "2021-04-19"],
           [Printed t;
            Chart t ("Profit from " ++ "2021-01-01" ++ " to " ++ "2021-04-19")%string],
           Finished (Ok tt))
        /\ forall k, In k (index t) <->
             exists item, In item (json_normalize [aaa_payload; no_samples])
               /\ Json.contract_ticker_symbol (Json.contract_metadata item) = k).
Proof.
  apply (empty_history_outcome (H := StableSort.stable) "k" server_empty_bbb
           ["AAA"; "BBB"] "2021-01-01" "2021-04-19" 1000 [0; 1]%nat
           [request "k" "AAA" "2021-01-01" "2021-04-19";
            request "k" "BBB" "2021-01-01" "2021-04-19"]
           [aaa_payload; no_samples]).
  vm_compute. reflexivity.
Defined.

(* ========================================================================= *)
(** * Further properties *)

(** ** Metric Calculator: missing columns, repeated calls *)

Lemma droplevel_absent (key : string) (cols : list (label * Series)) :
  (forall c, In c cols -> fst (fst c) <> key) -> droplevel key cols = [].
Proof.
  induction cols as [|[[a b] s] cols IH]; intros Hno; [reflexivity|].
  unfold droplevel in *. cbn.
  destruct (String.eqb a key) eqn:Heq.
  - exfalso. apply (Hno (a, b, s)); [now left|now apply String.eqb_eq].
  - apply IH. intros c' Hc'. apply Hno. now right.
Qed.

(** X1. [calculate_profit] reads the ratio columns: on a table that has no
    column under r_last, as every table [calculate_price_ratio] has not been
    run on, it raises KeyError for r_last and the table stays as it was. *)
Theorem profit_before_ratio_raises (h : heap) (df : loc) (t : DataFrame)
  (deposit : Z) :
  h !! df = Some t ->
  (forall c, In c (columns t) -> fst (fst c) <> "r_last") ->
  calculate_profit df deposit h = (h, Raise (KeyError "r_last")).
Proof.
  intros Hdf Hno. unfold calculate_profit, bind, deref, lift.
  rewrite Hdf. unfold getitem. rewrite (droplevel_absent _ _ Hno). reflexivity.
Qed.

Lemma profit_before_ratio_raises_witness :
  calculate_profit 0%nat 1000 [summary_table [("AAA", aaa_summary)]]
  = ([summary_table [("AAA", aaa_summary)]], Raise (KeyError "r_last")).
Proof.
  apply (profit_before_ratio_raises [summary_table [("AAA", aaa_summary)]]
           0%nat (summary_table [("AAA", aaa_summary)]) 1000).
  - reflexivity.
  - intros c Hc. simpl in Hc.
    repeat (destruct Hc as [<-|Hc]; [discriminate|]). destruct Hc.
Defined.

(** X2. [calculate_price_ratio] on a table without any column under price
    raises KeyError for price and changes nothing. *)
Theorem ratio_without_prices_raises (h : heap) (df : loc) (t : DataFrame) :
  h !! df = Some t ->
  (forall c, In c (columns t) -> fst (fst c) <> "price") ->
  calculate_price_ratio df h = (h, Raise (KeyError "price")).
Proof.
  intros Hdf Hno. unfold calculate_price_ratio, bind, deref, lift.
  rewrite Hdf. unfold getitem. rewrite (droplevel_absent _ _ Hno). reflexivity.
Qed.

Lemma ratio_without_prices_raises_witness :
  calculate_price_ratio 0%nat
    [mkDataFrame ["AAA"] [(("date", "first"), Datetime64 [18628])]]
  = ([mkDataFrame ["AAA"] [(("date", "first"), Datetime64 [18628])]],
     Raise (KeyError "price")).
Proof.
  apply (ratio_without_prices_raises
           [mkDataFrame ["AAA"] [(("date", "first"), Datetime64 [18628])]]
           0%nat (mkDataFrame ["AAA"] [(("date", "first"), Datetime64 [18628])])).
  - reflexivity.
  - intros c [<-|[]]. discriminate.
Defined.

(** A table with the first and the last price of every ticker but no
    maximum. *)
Definition first_last_table (idx : list string) (first last : list float)
  : DataFrame :=
  mkDataFrame idx
    [ (("price", "first"), Float64 first); (("price", "last"), Float64 last) ].

(** X3. [calculate_price_ratio] is not all-or-nothing: when the table has the
    first and last prices but no maximum, the call raises KeyError for max
    after it has stored the column r_last, which stays in the table. *)
Theorem ratio_fails_after_storing_r_last (h : heap) (df : loc)
  (idx : list string) (first last : list float) :
  h !! df = Some (first_last_table idx first last) ->
  calculate_price_ratio df h
  = (<[df := mkDataFrame idx
               [ (("price", "first"), Float64 first);
                 (("price", "last"), Float64 last);
                 (("r_last", ""), Float64 (zip_with PrimFloat.div last first)) ]]> h,
     Raise (KeyError "max")).
Proof.
  intros Hdf.
  assert (Hlt : (df < length h)%nat) by (eapply lookup_lt_Some; exact Hdf).
  unfold calculate_price_ratio. run_store Hlt. reflexivity.
Qed.

Lemma ratio_fails_after_storing_r_last_witness :
  calculate_price_ratio 0%nat [first_last_table ["AAA"] [100%float] [90%float]]
  = (<[0%nat := mkDataFrame ["AAA"]
               [ (("price", "first"), Float64 [100%float]);
                 (("price", "last"), Float64 [90%float]);
                 (("r_last", ""),
                  Float64 (zip_with PrimFloat.div [90%float] [100%float])) ]]>
       [first_last_table ["AAA"] [100%float] [90%float]],
     Raise (KeyError "max")).
Proof.
  apply (ratio_fails_after_storing_r_last
           [first_last_table ["AAA"] [100%float] [90%float]] 0%nat
           ["AAA"] [100%float] [90%float]).
  reflexivity.
Defined.

(** X4. Running the Metric Calculator again on the table it has enriched adds
    no column: the ratio columns are overwritten with the same values and the
    profit columns with those of the new deposit. *)
Theorem metric_calculator_rerun (h : heap) (df : loc)
  (rows : list (string * TickerSummary)) (d1 : float) (deposit2 : Z)
  (d2 : float) :
  h !! df = Some (with_profits d1 rows) ->
  float_of_int deposit2 = Ok d2 ->
  calculate_price_ratio df h = (h, Ok df)
  /\ calculate_profit df deposit2 h = (<[df := with_profits d2 rows]> h, Ok df)
  /\ map fst (columns (with_profits d2 rows))
     = map fst (columns (with_profits d1 rows)).
Proof.
  intros Hdf Hd.
  assert (Hlt : (df < length h)%nat) by (eapply lookup_lt_Some; exact Hdf).
  split; [|split].
  - unfold calculate_price_ratio. run_store Hlt.
    rewrite list_insert_insert_eq, !zip_with_map_same.
    fold (with_profits d1 rows).
    change (mkDataFrame (map fst rows) (columns (with_profits d1 rows)))
      with (with_profits d1 rows).
    now rewrite list_insert_id.
  - unfold calculate_profit. run_store Hlt.
    rewrite list_insert_insert_eq, !map_map. reflexivity.
  - reflexivity.
Qed.

Lemma metric_calculator_rerun_witness :
  calculate_price_ratio 0%nat [with_profits 1000 [("AAA", aaa_summary)]]
    = ([with_profits 1000 [("AAA", aaa_summary)]], Ok 0%nat)
  /\ calculate_profit 0%nat 500 [with_profits 1000 [("AAA", aaa_summary)]]
     = (<[0%nat := with_profits 500 [("AAA", aaa_summary)]]>
          [with_profits 1000 [("AAA", aaa_summary)]], Ok 0%nat)
  /\ map fst (columns (with_profits 500 [("AAA", aaa_summary)]))
     = map fst (columns (with_profits 1000 [("AAA", aaa_summary)])).
Proof.
  apply (metric_calculator_rerun [with_profits 1000 [("AAA", aaa_summary)]]
           0%nat [("AAA", aaa_summary)] 1000%float 500 500%float).
  - reflexivity.
  - vm_compute. reflexivity.
Defined.

(** ** Price Fetcher: which exception, partial results, no ticker at all *)

Section BatchOutcomes.

Variable API_KEY : string.
Variable server : Http.Request -> Http.Response.
Variables from_date to_date : string.
Variable ticker_list : list string.

Lemma first_failure_app (pre post : list nat) :
  (forall j, j ∈ pre ->
     failure_at API_KEY server from_date to_date ticker_list j = None) ->
  first_failure API_KEY server from_date to_date ticker_list (pre ++ post)
  = first_failure API_KEY server from_date to_date ticker_list post.
Proof.
  induction pre as [|j pre IH]; intros Hpre; simpl; [reflexivity|].
  rewrite (Hpre j) by (apply elem_of_cons; auto).
  apply IH. intros k Hk. apply Hpre. apply elem_of_cons. auto.
Qed.

Lemma values_imap_inv (P : nat -> bool) (l : list string)
  (vs : list Json.payload) :
  values (imap (fun i t =>
                  if P i
                  then Done (Http.json
                               (server (request API_KEY t from_date to_date)))
                  else Pending (request API_KEY t from_date to_date)
                         (check_response t)) l) = Some vs ->
  (forall i, (i < length l)%nat -> P i = true)
  /\ vs = map (fun t => Http.json (server (request API_KEY t from_date to_date))) l.
Proof.
  revert P vs. induction l as [|t l IH]; intros P vs; simpl.
  - intros [= <-]. split; [intros i Hi; lia|reflexivity].
  - destruct (P 0%nat) eqn:H0; [|discriminate].
    unfold compose.
    destruct (values _) as [vs'|] eqn:Hvs; [|discriminate].
    simpl. intros [= <-].
    destruct (IH (fun i => P (S i)) vs' Hvs) as [Hall ->].
    split; [|reflexivity].
    intros [|i] Hi; [exact H0|]. apply Hall. lia.
Qed.

(** X5. Of several failing responses the one that comes in first decides: if
    the responses that came in before that of task [i] were all 200 and the
    one of task [i] is not, the batch raises the exception of the ticker of
    task [i], whatever comes in later. *)
Theorem first_failing_response_decides (pre post : list nat) (i : nat)
  (t : string) :
  (forall j u, j ∈ pre -> ticker_list !! j = Some u ->
     Http.status_code (server (request API_KEY u from_date to_date)) = 200) ->
  ticker_list !! i = Some t ->
  Http.status_code (server (request API_KEY t from_date to_date)) <> 200 ->
  snd (get_all_token_prices API_KEY server ticker_list from_date to_date
         (pre ++ i :: post))
  = Finished (Raise (Exception
      ("ticker: " ++ t ++ ", status_code: "
       ++ pretty (Http.status_code
                    (server (request API_KEY t from_date to_date)))))).
Proof.
  intros Hpre Ht Hbad. rewrite batch_outcome. simpl.
  rewrite first_failure_app.
  - simpl. unfold failure_at. rewrite Ht.
    destruct (Z.eqb_spec
                (Http.status_code (server (request API_KEY t from_date to_date)))
                200) as [Heq|_]; [contradiction|reflexivity].
  - intros j Hj. unfold failure_at.
    destruct (ticker_list !! j) as [u|] eqn:Hu; [|reflexivity].
    now rewrite (Hpre j u Hj Hu).
Qed.

(** X6. The batch never returns a partial list: when it returns a list, every
    response has come in, every one that has come in for a ticker of the list
    was a 200, and the list holds the body of every ticker in list order. *)
Theorem returned_batch_is_complete (arrivals : list nat)
  (vs : list Json.payload) :
  snd (get_all_token_prices API_KEY server ticker_list from_date to_date arrivals)
    = Finished (Ok vs) ->
  vs = map (fun t => Http.json (server (request API_KEY t from_date to_date)))
           ticker_list
  /\ (forall i, (i < length ticker_list)%nat -> i ∈ arrivals)
  /\ (forall i t, i ∈ arrivals -> ticker_list !! i = Some t ->
        Http.status_code (server (request API_KEY t from_date to_date)) = 200).
Proof.
  rewrite batch_outcome. simpl.
  destruct (first_failure _ _ _ _ _ arrivals) as [e|] eqn:Hf; [discriminate|].
  destruct (values _) as [vs'|] eqn:Hvs; [|discriminate].
  intros [= <-]. unfold settled in Hvs.
  apply (values_imap_inv (fun i => bool_decide (i ∈ rev arrivals))) in Hvs
    as [Hall ->].
  split; [reflexivity|]. split.
  - intros i Hi. specialize (Hall i Hi). apply bool_decide_eq_true_1 in Hall.
    apply list_elem_of_In, in_rev. now apply list_elem_of_In.
  - intros i t Hi Ht.
    pose proof (first_failure_None _ _ _ _ _ _ Hf i Hi) as Hnone.
    unfold failure_at in Hnone. rewrite Ht in Hnone.
    destruct (Z.eqb_spec
                (Http.status_code (server (request API_KEY t from_date to_date)))
                200) as [Heq|_]; [exact Heq|discriminate].
Qed.

End BatchOutcomes.

Lemma first_failing_response_decides_witness :
  snd (get_all_token_prices "k" server_without_ccc five_tickers
         "2021-01-01" "2021-04-19" ([0; 1] ++ 2 :: [3])%nat)
  = Finished (Raise (Exception
      ("ticker: " ++ "CCC" ++ ", status_code: "
       ++ pretty (Http.status_code
                    (server_without_ccc
                       (request "k" "CCC" "2021-01-01" "2021-04-19")))))).
Proof.
  apply (first_failing_response_decides "k" server_without_ccc
           "2021-01-01" "2021-04-19" five_tickers [0; 1]%nat [3%nat] 2%nat "CCC").
  - intros j u Hj Hu. apply list_elem_of_In in Hj.
    destruct Hj as [<-|[<-|[]]]; injection Hu as <-; reflexivity.
  - reflexivity.
  - simpl. lia.
Defined.

Lemma returned_batch_is_complete_witness :
  map (fun t => Http.json (server_up (request "k" t "2021-01-01" "2021-04-19")))
      five_tickers
  = map (fun t => Http.json (server_up (request "k" t "2021-01-01" "2021-04-19")))
        five_tickers
  /\ (forall i, (i < length five_tickers)%nat -> i ∈ [3; 0; 4; 1; 2]%nat)
  /\ (forall i t, i ∈ [3; 0; 4; 1; 2]%nat -> five_tickers !! i = Some t ->
        Http.status_code (server_up (request "k" t "2021-01-01" "2021-04-19"))
        = 200).
Proof.
  apply (returned_batch_is_complete "k" server_up "2021-01-01" "2021-04-19"
           five_tickers [3; 0; 4; 1; 2]%nat).
  vm_compute. reflexivity.
Defined.

(** X8. With an empty ticker list the script sends no request, and ends with
    the KeyError of the column selection before anything is printed or
    charted, whatever the dates and the deposit. *)
Theorem no_ticker_no_table `{SortKind} (API_KEY : string)
  (server : Http.Request -> Http.Response) (from_date to_date : string)
  (deposit : Z) (arrivals : list nat) :
  get_all_token_prices API_KEY server [] from_date to_date arrivals
    = ([], Finished (Ok []))
  /\ script API_KEY server [] from_date to_date deposit arrivals
     = ([], [], Finished (Raise (KeyError wanted_columns))).
Proof.
  assert (Hrun : get_all_token_prices API_KEY server [] from_date to_date arrivals
                 = ([], Finished (Ok []))).
  { rewrite batch_outcome. simpl.
    assert (Hf : first_failure API_KEY server from_date to_date [] arrivals = None)
      by (induction arrivals as [|j a IH]; [reflexivity|exact IH]).
    now rewrite Hf. }
  split; [exact Hrun|].
  unfold script. rewrite Hrun. unfold bind at 1.
  now rewrite transform_nothing.
Qed.

(* ------------------------------------------------------------------------- *)
(** ** Summary extraction, line by line *)

Module Lines.

Import Refine.

Lemma mapM_In_inv {A B} (f : A -> result B) (l : list A) (bs : list B) :
  mapM f l = Ok bs ->
  forall b, In b bs -> exists a, In a l /\ f a = Ok b.
Proof.
  revert bs. induction l as [|a l IH]; intros bs; simpl.
  - intros [= <-] b [].
  - destruct (f a) as [b0|] eqn:Hfa; simpl; [|discriminate].
    destruct (mapM f l) as [bs0|] eqn:Hl; simpl; [|discriminate].
    intros [= <-] b [<-|Hb].
    + exists a. auto.
    + destruct (IH bs0 eq_refl b Hb) as (a' & Ha' & Hfa'). exists a'. auto.
Qed.

(** With numeric prices [make_table_df] returns the table of the lines
    [summarise] computes, one per ticker that has a row. *)
Lemma table_lines `{SortKind} (df : list row) (h : heap) :
  (forall r, In r df -> PrimFloat.is_nan (price r) = false) ->
  exists rows : list (string * TickerSummary),
    make_table_df df h = (h ++ [summary_table rows], Ok (length h))
    /\ map fst rows = group_keys (map ticker df)
    /\ forall k s, In (k, s) rows ->
         In k (map ticker df) /\ summarise df k = Ok s.
Proof.
  intros Hn.
  destruct (summary_lines_numbers df Hn) as (rows & Hrows & Hkeys & _).
  exists rows. split; [now apply make_table_df_rows|]. split; [exact Hkeys|].
  intros k s Hin.
  destruct (mapM_In_inv _ _ _ Hrows (k, s) Hin) as (k' & Hk' & Hline).
  unfold summary_line in Hline.
  destruct (summarise df k') as [s'|] eqn:Hs; simpl in Hline; [|discriminate].
  injection Hline as -> ->.
  split; [now apply Keys.group_keys_In|exact Hs].
Qed.

(** The first and last columns of a line, read off [summarise]. *)
Lemma summarise_first_last `{SortKind} (df : list row) (k : string)
  (s : TickerSummary) :
  summarise df k = Ok s ->
  date_first s = hd 0%Z (map date (sorted_group k df))
  /\ date_last s = List.last (map date (sorted_group k df)) 0%Z
  /\ price_first s = first_valid (map price (sorted_group k df))
  /\ price_last s = last_valid (map price (sorted_group k df)).
Proof.
  unfold summarise.
  destruct (idxmax _) as [imax|]; simpl; [|discriminate].
  destruct (loc_row df imax) as [rmax|]; simpl; [|discriminate].
  destruct (idxmin _) as [imin|]; simpl; [|discriminate].
  destruct (loc_row df imin) as [rmin|]; simpl; [|discriminate].
  intros [= <-]. simpl. auto.
Qed.

(** The extremum columns of a line, read off [summarise]. *)
Lemma summarise_extrema `{SortKind} (df : list row) (k : string)
  (s : TickerSummary) :
  summarise df k = Ok s ->
  exists imax rmax imin rmin,
    idxmax (group_of k df) = Ok imax /\ df !! imax = Some rmax
    /\ idxmin (group_of k df) = Ok imin /\ df !! imin = Some rmin
    /\ date_max s = date rmax /\ price_max s = price rmax
    /\ date_min s = date rmin /\ price_min s = price rmin.
Proof.
  unfold summarise, loc_row.
  destruct (idxmax _) as [imax|]; simpl; [|discriminate].
  destruct (df !! imax) as [rmax|] eqn:Hmax; simpl; [|discriminate].
  destruct (idxmin _) as [imin|]; simpl; [|discriminate].
  destruct (df !! imin) as [rmin|] eqn:Hmin; simpl; [|discriminate].
  intros [= <-]. simpl. exists imax, rmax, imin, rmin. auto 10.
Qed.

End Lines.

(** X10. The lines of the summary table come in ascending ticker order, each
    ticker once, whatever the order of the rows, hence of the ticker list:
    the table (and the chart drawn from it) is not in fetch order. *)
Theorem summary_index_is_sorted `{SortKind} (df : list row) (h : heap) :
  (forall r, In r df -> PrimFloat.is_nan (price r) = false) ->
  exists t : DataFrame,
    make_table_df df h = (h ++ [t], Ok (length h))
    /\ StronglySorted (fun a b => String.compare a b = Lt) (index t)
    /\ forall k, In k (index t) <-> exists r, In r df /\ ticker r = k.
Proof.
  intros Hn. destruct (Lines.table_lines df h Hn) as (rows & Hrun & Hkeys & _).
  exists (summary_table rows). split; [exact Hrun|]. simpl. rewrite Hkeys.
  split; [apply Keys.group_keys_sorted|].
  intros k. rewrite Keys.group_keys_In, in_map_iff.
  split; intros (r & H1 & H2); exists r; auto.
Qed.

Lemma summary_index_is_sorted_witness :
  exists t : DataFrame,
    make_table_df (H := StableSort.stable)
      [mkRow 18628 3%float "UNI"; mkRow 18628 2%float "BAL";
       mkRow 18629 4%float "UNI"] []
      = ([] ++ [t], Ok (length (@nil DataFrame)))
    /\ StronglySorted (fun a b => String.compare a b = Lt) (index t)
    /\ forall k, In k (index t) <->
         exists r, In r [mkRow 18628 3%float "UNI"; mkRow 18628 2%float "BAL";
                         mkRow 18629 4%float "UNI"] /\ ticker r = k.
Proof.
  apply (summary_index_is_sorted (H := StableSort.stable)
           [mkRow 18628 3%float "UNI"; mkRow 18628 2%float "BAL";
            mkRow 18629 4%float "UNI"] []).
  intros r [<-|[<-|[<-|[]]]]; reflexivity.
Defined.

(** *** First and last *)

Lemma sorted_snoc {A} (R : A -> A -> Prop) (l : list A) (x : A) :
  StronglySorted R (l ++ [x]) -> forall y, In y l -> R y x.
Proof.
  induction l as [|a l IH]; intros Hs y Hy; [destruct Hy|].
  simpl in Hs. inversion Hs as [|? ? Hs' Ha]; subst.
  destruct Hy as [<-|Hy].
  - rewrite Forall_forall in Ha. apply Ha.
    apply list_elem_of_In, in_or_app. right. now left.
  - now apply IH.
Qed.

Lemma first_valid_head (x : float) (xs : list float) :
  PrimFloat.is_nan x = false -> first_valid (x :: xs) = x.
Proof. intros Hx. unfold first_valid. simpl. now rewrite Hx. Qed.

Lemma last_valid_snoc (x : float) (xs : list float) :
  PrimFloat.is_nan x = false -> last_valid (xs ++ [x]) = x.
Proof.
  intros Hx. unfold last_valid. rewrite rev_app_distr. simpl.
  now apply first_valid_head.
Qed.

(** What a date-sorted group of numeric prices gives for first and last. *)
Lemma first_last_of_group (g : list row) :
  g <> [] ->
  StronglySorted (fun a b => (date a <= date b)%Z) g ->
  (forall r, In r g -> PrimFloat.is_nan (price r) = false) ->
  (exists r, In r g /\ date r = hd 0%Z (map date g)
             /\ price r = first_valid (map price g))
  /\ (exists r, In r g /\ date r = List.last (map date g) 0%Z
                /\ price r = last_valid (map price g))
  /\ forall r, In r g ->
       (hd 0%Z (map date g) <= date r <= List.last (map date g) 0%Z)%Z.
Proof.
  intros Hne Hs Hn.
  destruct (exists_last Hne) as (init & rn & Hg).
  assert (Hlast : List.last (map date g) 0%Z = date rn)
    by (rewrite Hg, map_app; simpl; apply last_last).
  assert (Hlastp : last_valid (map price g) = price rn).
  { rewrite Hg, map_app. simpl. apply last_valid_snoc. apply Hn.
    rewrite Hg. apply in_or_app. right. now left. }
  assert (Hle_last : forall r, In r g -> (date r <= date rn)%Z).
  { intros r Hr. rewrite Hg in Hr, Hs.
    apply in_app_or in Hr as [Hr|[<-|[]]]; [|lia].
    now apply (sorted_snoc _ _ _ Hs). }
  destruct g as [|r1 g']; [contradiction|].
  assert (Hle_first : forall r, In r (r1 :: g') -> (date r1 <= date r)%Z).
  { intros r [<-|Hr]; [lia|]. inversion Hs as [|? ? _ Hall]; subst.
    rewrite Forall_forall in Hall. apply Hall. now apply list_elem_of_In. }
  split; [|split].
  - exists r1. split; [now left|]. split; [reflexivity|].
    simpl. symmetry. apply first_valid_head. apply Hn. now left.
  - exists rn. split; [|split; [now symmetry|now symmetry]].
    rewrite Hg. apply in_or_app. right. now left.
  - intros r Hr. rewrite Hlast. simpl. split; [now apply Hle_first|now apply Hle_last].
Qed.

(** X11. With numeric prices, on every line of the summary table date_first
    and date_last are the earliest and the latest date among the samples of
    the ticker, and price_first and price_last are prices the ticker had on
    those dates. *)
Theorem first_and_last_are_earliest_and_latest `{SortKind} (df : list row)
  (h : heap) :
  (forall r, In r df -> PrimFloat.is_nan (price r) = false) ->
  exists rows : list (string * TickerSummary),
    make_table_df df h = (h ++ [summary_table rows], Ok (length h))
    /\ forall k s, In (k, s) rows ->
         (exists r, In r df /\ ticker r = k
                    /\ date r = date_first s /\ price r = price_first s)
         /\ (exists r, In r df /\ ticker r = k
                       /\ date r = date_last s /\ price r = price_last s)
         /\ forall r, In r df -> ticker r = k ->
              (date_first s <= date r <= date_last s)%Z.
Proof.
  intros Hn. destruct (Lines.table_lines df h Hn) as (rows & Hrun & _ & Hlines).
  exists rows. split; [exact Hrun|].
  intros k s Hin. destruct (Hlines k s Hin) as (Hk & Hs).
  destruct (Lines.summarise_first_last df k s Hs) as (-> & -> & -> & ->).
  destruct (first_last_of_group (Refine.sorted_group k df))
    as ((rf & Hrf & Hdf & Hpf) & (rl & Hrl & Hdl & Hpl) & Hbetween).
  - apply in_map_iff in Hk as (r0 & Hk0 & Hr0).
    intros Hnil.
    assert (Hin0 : In r0 (Refine.sorted_group k df))
      by (apply Refine.sorted_group_In; auto).
    rewrite Hnil in Hin0. destruct Hin0.
  - unfold Refine.sorted_group. apply Refine.sorted_filter, sort_values_sorted.
  - intros r Hr. apply Refine.sorted_group_In in Hr as (Hr & _). now apply Hn.
  - apply Refine.sorted_group_In in Hrf as (Hrf & Hkf).
    apply Refine.sorted_group_In in Hrl as (Hrl & Hkl).
    split; [exists rf; auto|]. split; [exists rl; auto|].
    intros r Hr Hkr. apply Hbetween. apply Refine.sorted_group_In. auto.
Qed.

Lemma first_and_last_are_earliest_and_latest_witness :
  exists rows : list (string * TickerSummary),
    make_table_df (H := StableSort.stable) aaa_rows []
      = ([] ++ [summary_table rows], Ok (length (@nil DataFrame)))
    /\ forall k s, In (k, s) rows ->
         (exists r, In r aaa_rows /\ ticker r = k
                    /\ date r = date_first s /\ price r = price_first s)
         /\ (exists r, In r aaa_rows /\ ticker r = k
                       /\ date r = date_last s /\ price r = price_last s)
         /\ forall r, In r aaa_rows -> ticker r = k ->
              (date_first s <= date r <= date_last s)%Z.
Proof.
  apply (first_and_last_are_earliest_and_latest (H := StableSort.stable)
           aaa_rows []).
  intros r [<-|[<-|[<-|[]]]]; reflexivity.
Defined.

(* ------------------------------------------------------------------------- *)
(** ** Ties between equal extrema *)

Module Order.

Import IEEE.

Lemma SFltb_trans (x y z : spec_float) :
  SFltb x y = true -> SFltb y z = true -> SFltb x z = true.
Proof.
  unfold SFltb, SFcompare.
  destruct x as [[]|[]| |[] mx ex], y as [[]|[]| |[] my ey],
           z as [[]|[]| |[] mz ez];
    simpl; try congruence; cmp_cases; try congruence; try lia.
Qed.

Lemma SFleb_ltb_trans (x y z : spec_float) :
  SFleb x y = true -> SFltb y z = true -> SFltb x z = true.
Proof.
  unfold SFleb, SFltb, SFcompare.
  destruct x as [[]|[]| |[] mx ex], y as [[]|[]| |[] my ey],
           z as [[]|[]| |[] mz ez];
    simpl; try congruence; cmp_cases; try congruence; try lia.
Qed.

Lemma SFltb_leb_trans (x y z : spec_float) :
  SFltb x y = true -> SFleb y z = true -> SFltb x z = true.
Proof.
  unfold SFleb, SFltb, SFcompare.
  destruct x as [[]|[]| |[] mx ex], y as [[]|[]| |[] my ey],
           z as [[]|[]| |[] mz ez];
    simpl; try congruence; cmp_cases; try congruence; try lia.
Qed.

Lemma ltb_trans (x y z : float) :
  PrimFloat.ltb x y = true -> PrimFloat.ltb y z = true ->
  PrimFloat.ltb x z = true.
Proof. rewrite !FloatAxioms.ltb_spec. apply SFltb_trans. Qed.

Lemma leb_ltb_trans (x y z : float) :
  PrimFloat.leb x y = true -> PrimFloat.ltb y z = true ->
  PrimFloat.ltb x z = true.
Proof.
  rewrite !FloatAxioms.ltb_spec, FloatAxioms.leb_spec. apply SFleb_ltb_trans.
Qed.

Lemma ltb_leb_trans (x y z : float) :
  PrimFloat.ltb x y = true -> PrimFloat.leb y z = true ->
  PrimFloat.ltb x z = true.
Proof.
  rewrite !FloatAxioms.ltb_spec, FloatAxioms.leb_spec. apply SFltb_leb_trans.
Qed.

End Order.

Module FirstOccurrence.

Import Extremum Refine.

(** [argmax_from] keeps the first of the largest entries: everything before
    the entry it returns is strictly smaller, nothing after it is larger. *)
Lemma argmax_from_split (l : list (nat * float)) :
  forall (bi : nat) (b : float) (pre mid : list (nat * float)),
    numbers ((bi, b) :: l) ->
    (forall jy, In jy pre -> PrimFloat.ltb (snd jy) b = true) ->
    (forall jy, In jy mid -> PrimFloat.leb (snd jy) b = true) ->
    exists x l1 l2,
      pre ++ (bi, b) :: mid ++ l = l1 ++ (argmax_from bi b l, x) :: l2
      /\ (forall jy, In jy l1 -> PrimFloat.ltb (snd jy) x = true)
      /\ (forall jy, In jy l2 -> PrimFloat.leb (snd jy) x = true).
Proof.
  induction l as [|[j y] l IH]; intros bi b pre mid Hn Hpre Hmid.
  - exists b, pre, mid. rewrite app_nil_r. auto.
  - assert (Hb : PrimFloat.is_nan b = false) by (apply (Hn (bi, b)); now left).
    assert (Hy : PrimFloat.is_nan y = false)
      by (apply (Hn (j, y)); right; now left).
    simpl. destruct (PrimFloat.ltb b y) eqn:Hlt.
    + destruct (IH j y (pre ++ (bi, b) :: mid) []) as (x & l1 & l2 & Heq & H1 & H2).
      * intros ix Hix. apply Hn. now right.
      * intros jy Hjy. apply in_app_or in Hjy as [Hjy|[<-|Hjy]].
        -- eapply Order.ltb_trans; [now apply Hpre|exact Hlt].
        -- exact Hlt.
        -- eapply Order.leb_ltb_trans; [now apply Hmid|exact Hlt].
      * intros jy [].
      * exists x, l1, l2. split; [|auto].
        rewrite <- Heq. simpl. now rewrite <- app_assoc.
    + destruct (IH bi b pre (mid ++ [(j, y)])) as (x & l1 & l2 & Heq & H1 & H2).
      * intros ix [<-|Hix]; [exact Hb|]. apply Hn. right. now right.
      * exact Hpre.
      * intros jy Hjy. apply in_app_or in Hjy as [Hjy|[<-|[]]].
        -- now apply Hmid.
        -- simpl. now apply IEEE.ltb_false_leb.
      * exists x, l1, l2. split; [|auto].
        rewrite <- Heq. now rewrite <- app_assoc.
Qed.

Lemma argmin_from_split (l : list (nat * float)) :
  forall (bi : nat) (b : float) (pre mid : list (nat * float)),
    numbers ((bi, b) :: l) ->
    (forall jy, In jy pre -> PrimFloat.ltb b (snd jy) = true) ->
    (forall jy, In jy mid -> PrimFloat.leb b (snd jy) = true) ->
    exists x l1 l2,
      pre ++ (bi, b) :: mid ++ l = l1 ++ (argmin_from bi b l, x) :: l2
      /\ (forall jy, In jy l1 -> PrimFloat.ltb x (snd jy) = true)
      /\ (forall jy, In jy l2 -> PrimFloat.leb x (snd jy) = true).
Proof.
  induction l as [|[j y] l IH]; intros bi b pre mid Hn Hpre Hmid.
  - exists b, pre, mid. rewrite app_nil_r. auto.
  - assert (Hb : PrimFloat.is_nan b = false) by (apply (Hn (bi, b)); now left).
    assert (Hy : PrimFloat.is_nan y = false)
      by (apply (Hn (j, y)); right; now left).
    simpl. destruct (PrimFloat.ltb y b) eqn:Hlt.
    + destruct (IH j y (pre ++ (bi, b) :: mid) []) as (x & l1 & l2 & Heq & H1 & H2).
      * intros ix Hix. apply Hn. now right.
      * intros jy Hjy. apply in_app_or in Hjy as [Hjy|[<-|Hjy]].
        -- eapply Order.ltb_trans; [exact Hlt|now apply Hpre].
        -- exact Hlt.
        -- eapply Order.ltb_leb_trans; [exact Hlt|now apply Hmid].
      * intros jy [].
      * exists x, l1, l2. split; [|auto].
        rewrite <- Heq. simpl. now rewrite <- app_assoc.
    + destruct (IH bi b pre (mid ++ [(j, y)])) as (x & l1 & l2 & Heq & H1 & H2).
      * intros ix [<-|Hix]; [exact Hb|]. apply Hn. right. now right.
      * exact Hpre.
      * intros jy Hjy. apply in_app_or in Hjy as [Hjy|[<-|[]]].
        -- now apply Hmid.
        -- simpl. now apply IEEE.ltb_false_leb.
      * exists x, l1, l2. split; [|auto].
        rewrite <- Heq. now rewrite <- app_assoc.
Qed.

(** The prices of a group, label by label. *)
Definition priced (g : list (nat * row)) : list (nat * float) :=
  map (fun ir => (fst ir, price (snd ir))) g.

Lemma priced_split (g : list (nat * row)) (l1 l2 : list (nat * float))
  (i : nat) (x : float) :
  priced g = l1 ++ (i, x) :: l2 ->
  exists g1 r g2, g = g1 ++ (i, r) :: g2 /\ price r = x
    /\ priced g1 = l1 /\ priced g2 = l2.
Proof.
  unfold priced. intros Heq.
  apply map_eq_app in Heq as (g1 & g' & -> & H1 & H').
  apply map_eq_cons in H' as ([j r] & g2 & -> & [= <- <-] & H2).
  exists g1, r, g2. auto.
Qed.

Lemma idxmax_numbers (g : list (nat * row)) :
  g <> [] ->
  (forall ir, In ir g -> PrimFloat.is_nan (price (snd ir)) = false) ->
  exists i0 r0 g', g = (i0, r0) :: g'
    /\ idxmax g = Ok (argmax_from i0 (price r0) (priced g'))
    /\ idxmin g = Ok (argmin_from i0 (price r0) (priced g')).
Proof.
  intros Hne Hn. destruct g as [|[i0 r0] g']; [contradiction|].
  exists i0, r0, g'. split; [reflexivity|].
  assert (H0 : PrimFloat.is_nan (price r0) = false)
    by (apply (Hn (i0, r0)); now left).
  unfold idxmax, idxmin, priced. simpl. rewrite H0. simpl.
  rewrite !(fillna_number _ _ H0).
  rewrite (map_ext_in (fun ir => (fst ir, fillna neg_infinity (price (snd ir))))
             (fun ir => (fst ir, price (snd ir)))).
  2:{ intros ir Hir. rewrite fillna_number; [reflexivity|]. apply Hn. now right. }
  rewrite (map_ext_in (fun ir => (fst ir, fillna infinity (price (snd ir))))
             (fun ir => (fst ir, price (snd ir)))).
  2:{ intros ir Hir. rewrite fillna_number; [reflexivity|]. apply Hn. now right. }
  split; reflexivity.
Qed.

(** [idxmax] on numeric prices: the label of the first row with the largest
    price. *)
Lemma idxmax_first (g : list (nat * row)) :
  g <> [] ->
  (forall ir, In ir g -> PrimFloat.is_nan (price (snd ir)) = false) ->
  exists i r g1 g2,
    idxmax g = Ok i /\ g = g1 ++ (i, r) :: g2
    /\ (forall ir, In ir g1 -> PrimFloat.ltb (price (snd ir)) (price r) = true)
    /\ (forall ir, In ir g2 -> PrimFloat.leb (price (snd ir)) (price r) = true).
Proof.
  intros Hne Hn.
  destruct (idxmax_numbers g Hne Hn) as (i0 & r0 & g' & -> & Hmax & _).
  destruct (argmax_from_split (priced g') i0 (price r0) [] [])
    as (x & l1 & l2 & Heq & H1 & H2).
  - intros ix [<-|Hix]; [apply (Hn (i0, r0)); now left|].
    unfold priced in Hix. apply in_map_iff in Hix as (ir & <- & Hir).
    apply Hn. now right.
  - intros jy [].
  - intros jy [].
  - simpl in Heq.
    change ((i0, price r0) :: priced g') with (priced ((i0, r0) :: g')) in Heq.
    apply priced_split in Heq as (g1 & r & g2 & Hg & <- & <- & <-).
    exists (argmax_from i0 (price r0) (priced g')), r, g1, g2.
    split; [exact Hmax|]. split; [exact Hg|]. split.
    + intros ir Hir. apply (H1 (fst ir, price (snd ir))).
      unfold priced. apply in_map_iff. now exists ir.
    + intros ir Hir. apply (H2 (fst ir, price (snd ir))).
      unfold priced. apply in_map_iff. now exists ir.
Qed.

Lemma idxmin_first (g : list (nat * row)) :
  g <> [] ->
  (forall ir, In ir g -> PrimFloat.is_nan (price (snd ir)) = false) ->
  exists i r g1 g2,
    idxmin g = Ok i /\ g = g1 ++ (i, r) :: g2
    /\ (forall ir, In ir g1 -> PrimFloat.ltb (price r) (price (snd ir)) = true)
    /\ (forall ir, In ir g2 -> PrimFloat.leb (price r) (price (snd ir)) = true).
Proof.
  intros Hne Hn.
  destruct (idxmax_numbers g Hne Hn) as (i0 & r0 & g' & -> & _ & Hmin).
  destruct (argmin_from_split (priced g') i0 (price r0) [] [])
    as (x & l1 & l2 & Heq & H1 & H2).
  - intros ix [<-|Hix]; [apply (Hn (i0, r0)); now left|].
    unfold priced in Hix. apply in_map_iff in Hix as (ir & <- & Hir).
    apply Hn. now right.
  - intros jy [].
  - intros jy [].
  - simpl in Heq.
    change ((i0, price r0) :: priced g') with (priced ((i0, r0) :: g')) in Heq.
    apply priced_split in Heq as (g1 & r & g2 & Hg & <- & <- & <-).
    exists (argmin_from i0 (price r0) (priced g')), r, g1, g2.
    split; [exact Hmin|]. split; [exact Hg|]. split.
    + intros ir Hir. apply (H1 (fst ir, price (snd ir))).
      unfold priced. apply in_map_iff. now exists ir.
    + intros ir Hir. apply (H2 (fst ir, price (snd ir))).
      unfold priced. apply in_map_iff. now exists ir.
Qed.

End FirstOccurrence.

Lemma imap_labels_increasing (n : nat) (l : list row) :
  StronglySorted (fun a b : nat * row => (fst a < fst b)%nat)
    (imap (fun i r => ((n + i)%nat, r)) l).
Proof.
  revert n. induction l as [|x l IH]; intros n; simpl; constructor.
  - unfold compose.
    rewrite (imap_ext _ (fun i r => ((S n + i)%nat, r))); [apply IH|].
    intros i r _. simpl. f_equal. lia.
  - apply Forall_forall. intros [j r] Hjr. unfold compose in Hjr.
    apply elem_of_lookup_imap in Hjr as (i & y & [= -> ->] & _). simpl. lia.
Qed.

Lemma labelled_increasing (df : list row) :
  StronglySorted (fun a b : nat * row => (fst a < fst b)%nat) (labelled df).
Proof. apply (imap_labels_increasing 0 df). Qed.

Lemma sorted_around {A} (R : A -> A -> Prop) (l1 l2 : list A) (x : A) :
  StronglySorted R (l1 ++ x :: l2) ->
  (forall y, In y l1 -> R y x) /\ (forall y, In y l2 -> R x y).
Proof.
  induction l1 as [|a l1 IH]; simpl; intros Hs.
  - inversion Hs as [|? ? _ Hx]; subst. split; [intros y []|].
    intros y Hy. rewrite Forall_forall in Hx. apply Hx. now apply list_elem_of_In.
  - inversion Hs as [|? ? Hs' Ha]; subst. destruct (IH Hs') as [H1 H2].
    split; [|exact H2]. intros y [<-|Hy]; [|now apply H1].
    rewrite Forall_forall in Ha. apply Ha.
    apply list_elem_of_In, in_or_app. right. now left.
Qed.

(** X12. With numeric prices, the maximum of a line is the price, and
    date_max the date, of the first row of the ticker, in the order of the
    working table, that has the largest price: every row of the ticker is at
    most that price and the rows before it are strictly below. The minimum is
    reported the same way, at the first row with the smallest price. *)
Theorem extrema_are_first_occurrences `{SortKind} (df : list row) (h : heap) :
  (forall r, In r df -> PrimFloat.is_nan (price r) = false) ->
  exists rows : list (string * TickerSummary),
    make_table_df df h = (h ++ [summary_table rows], Ok (length h))
    /\ forall k s, In (k, s) rows ->
         (exists i r,
            df !! i = Some r /\ ticker r = k
            /\ price r = price_max s /\ date r = date_max s
            /\ forall j r', df !! j = Some r' -> ticker r' = k ->
                 PrimFloat.leb (price r') (price r) = true
                 /\ ((j < i)%nat -> PrimFloat.ltb (price r') (price r) = true))
         /\ (exists i r,
               df !! i = Some r /\ ticker r = k
               /\ price r = price_min s /\ date r = date_min s
               /\ forall j r', df !! j = Some r' -> ticker r' = k ->
                    PrimFloat.leb (price r) (price r') = true
                    /\ ((j < i)%nat -> PrimFloat.ltb (price r) (price r') = true)).
Proof.
  intros Hn. destruct (Lines.table_lines df h Hn) as (rows & Hrun & _ & Hlines).
  exists rows. split; [exact Hrun|].
  intros k s Hin. destruct (Hlines k s Hin) as (Hk & Hs).
  destruct (Lines.summarise_extrema df k s Hs)
    as (imax & rmax & imin & rmin & Emax & Hmax & Emin & Hmin & -> & -> & -> & ->).
  assert (Hg : Refine.group_of k df <> []).
  { apply in_map_iff in Hk as (r0 & Hk0 & Hr0).
    apply list_elem_of_In, list_elem_of_lookup in Hr0 as (i0 & Hi0).
    intros Hnil.
    assert (Hin0 : In (i0, r0) (Refine.group_of k df))
      by (apply Refine.group_of_In; auto).
    rewrite Hnil in Hin0. destruct Hin0. }
  assert (Hgn : forall ir, In ir (Refine.group_of k df) ->
                  PrimFloat.is_nan (price (snd ir)) = false).
  { intros [i r] Hir. apply Refine.group_of_In in Hir as (Hi & _).
    apply Hn. apply list_elem_of_In. eapply list_elem_of_lookup_2; eauto. }
  assert (Hsorted : StronglySorted (fun a b : nat * row => (fst a < fst b)%nat)
                      (Refine.group_of k df))
    by (apply Refine.sorted_filter, labelled_increasing).
  split.
  - destruct (FirstOccurrence.idxmax_first _ Hg Hgn)
      as (i & r & g1 & g2 & Ei & Hsplit & H1 & H2).
    rewrite Emax in Ei. injection Ei as <-.
    assert (Hir : In (imax, r) (Refine.group_of k df))
      by (rewrite Hsplit; apply in_or_app; right; now left).
    apply Refine.group_of_In in Hir as (Hl & Hkr).
    rewrite Hmax in Hl. injection Hl as <-.
    exists imax, rmax. repeat (split; [auto; fail|]).
    intros j r' Hj Hkj.
    assert (Hjr : In (j, r') (Refine.group_of k df))
      by (apply Refine.group_of_In; auto).
    rewrite Hsplit in Hjr, Hsorted.
    destruct (sorted_around _ _ _ _ Hsorted) as [_ Hafter].
    apply in_app_or in Hjr as [Hjr|[Hjr|Hjr]].
    + specialize (H1 _ Hjr). simpl in H1.
      split; [now apply IEEE.ltb_leb|auto].
    + injection Hjr as <- <-. split; [|lia].
      apply IEEE.leb_refl. apply Hn.
      apply list_elem_of_In. eapply list_elem_of_lookup_2; eauto.
    + specialize (H2 _ Hjr). specialize (Hafter _ Hjr). simpl in *.
      split; [exact H2|lia].
  - destruct (FirstOccurrence.idxmin_first _ Hg Hgn)
      as (i & r & g1 & g2 & Ei & Hsplit & H1 & H2).
    rewrite Emin in Ei. injection Ei as <-.
    assert (Hir : In (imin, r) (Refine.group_of k df))
      by (rewrite Hsplit; apply in_or_app; right; now left).
    apply Refine.group_of_In in Hir as (Hl & Hkr).
    rewrite Hmin in Hl. injection Hl as <-.
    exists imin, rmin. repeat (split; [auto; fail|]).
    intros j r' Hj Hkj.
    assert (Hjr : In (j, r') (Refine.group_of k df))
      by (apply Refine.group_of_In; auto).
    rewrite Hsplit in Hjr, Hsorted.
    destruct (sorted_around _ _ _ _ Hsorted) as [_ Hafter].
    apply in_app_or in Hjr as [Hjr|[Hjr|Hjr]].
    + specialize (H1 _ Hjr). simpl in H1.
      split; [now apply IEEE.ltb_leb|auto].
    + injection Hjr as <- <-. split; [|lia].
      apply IEEE.leb_refl. apply Hn.
      apply list_elem_of_In. eapply list_elem_of_lookup_2; eauto.
    + specialize (H2 _ Hjr). specialize (Hafter _ Hjr). simpl in *.
      split; [exact H2|lia].
Qed.

(** Two samples of one ticker at the same, largest price, and one of another
    ticker in between. *)
Definition tied_rows : list row :=
  [ mkRow 18628 3%float "UNI"; mkRow 18629 7%float "UNI";
    mkRow 18629 9%float "BAL"; mkRow 18630 7%float "UNI" ].

Lemma extrema_are_first_occurrences_witness :
  exists rows : list (string * TickerSummary),
    make_table_df (H := StableSort.stable) tied_rows []
      = ([] ++ [summary_table rows], Ok (length (@nil DataFrame)))
    /\ forall k s, In (k, s) rows ->
         (exists i r,
            tied_rows !! i = Some r /\ ticker r = k
            /\ price r = price_max s /\ date r = date_max s
            /\ forall j r', tied_rows !! j = Some r' -> ticker r' = k ->
                 PrimFloat.leb (price r') (price r) = true
                 /\ ((j < i)%nat -> PrimFloat.ltb (price r') (price r) = true))
         /\ (exists i r,
               tied_rows !! i = Some r /\ ticker r = k
               /\ price r = price_min s /\ date r = date_min s
               /\ forall j r', tied_rows !! j = Some r' -> ticker r' = k ->
                    PrimFloat.leb (price r) (price r') = true
                    /\ ((j < i)%nat -> PrimFloat.ltb (price r) (price r') = true)).
Proof.
  apply (extrema_are_first_occurrences (H := StableSort.stable) tied_rows []).
  intros r [<-|[<-|[<-|[<-|[]]]]]; reflexivity.
Defined.

(** The tie of [tied_rows] is resolved towards the earlier row. *)
Example tied_rows_table :
  make_table_df (H := StableSort.stable) tied_rows []
  = ([summary_table
        [ ("BAL", mkSummary 18629 18629 18629 18629 9%float 9%float 9%float 9%float);
          ("UNI", mkSummary 18628 18630 18629 18628 3%float 7%float 7%float 3%float) ]],
     Ok 0%nat).
Proof. vm_compute. reflexivity. Qed.

(* ------------------------------------------------------------------------- *)
(** ** Samples without a price *)

Module Unpriced.

Import Extremum Refine.

Lemma mapM_raise {A B} (f : A -> result B) (e : exn) (l : list A) :
  (forall a, In a l -> (exists b, f a = Ok b) \/ f a = Raise e) ->
  (exists a, In a l /\ f a = Raise e) ->
  mapM f l = Raise e.
Proof.
  induction l as [|a l IH]; intros Hall (a0 & Ha0 & Hf0); [destruct Ha0|].
  simpl. destruct (Hall a (or_introl eq_refl)) as [(b & Hb)|Hb]; rewrite Hb; simpl;
    [|reflexivity].
  destruct Ha0 as [<-|Ha0]; [congruence|].
  rewrite IH; [reflexivity| |eauto].
  intros a' Ha'. apply Hall. now right.
Qed.

Lemma idxmax_outcome (g : list (nat * row)) :
  (exists i, idxmax g = Ok i) \/ idxmax g = Raise (KeyError "nan").
Proof.
  unfold idxmax. destruct (forallb _ g); [now right|].
  destruct (map _ g) as [|[i x] l]; [now right|left; eauto].
Qed.

Lemma group_of_nonempty (k : string) (df : list row) :
  In k (map ticker df) -> group_of k df <> [].
Proof.
  intros Hk. apply in_map_iff in Hk as (r0 & Hk0 & Hr0).
  apply list_elem_of_In, list_elem_of_lookup in Hr0 as (i0 & Hi0).
  intros Hnil.
  assert (Hin0 : In (i0, r0) (group_of k df)) by (apply group_of_In; auto).
  rewrite Hnil in Hin0. destruct Hin0.
Qed.

End Unpriced.

(** X13. A ticker all of whose samples lack a price stops the Table Builder:
    its group has no largest price, the label looked up for it is missing and
    the call raises KeyError; no table is built, whatever the other tickers
    hold. *)
Theorem ticker_without_price_raises `{SortKind} (df : list row) (h : heap)
  (k : string) :
  In k (map ticker df) ->
  (forall r, In r df -> ticker r = k -> PrimFloat.is_nan (price r) = true) ->
  make_table_df df h = (h, Raise (KeyError "nan")).
Proof.
  intros Hk Hnan. unfold make_table_df, groupby.
  rewrite Extremum.labelled_tickers.
  rewrite (Unpriced.mapM_raise _ (KeyError "nan")); [reflexivity| |].
  - intros kg _. apply Unpriced.idxmax_outcome.
  - exists (k, Refine.group_of k df). split.
    + apply in_map_iff. exists k. split; [reflexivity|].
      now apply Keys.group_keys_In.
    + simpl. unfold idxmax.
      replace (forallb _ (Refine.group_of k df)) with true; [reflexivity|].
      symmetry. apply forallb_forall. intros [i r] Hir.
      apply Refine.group_of_In in Hir as (Hi & Hkr). simpl.
      apply Hnan; [|exact Hkr].
      apply list_elem_of_In. eapply list_elem_of_lookup_2; eauto.
Qed.

Lemma ticker_without_price_raises_witness :
  make_table_df (H := StableSort.stable)
    [mkRow 18628 3%float "UNI"; mkRow 18628 PrimFloat.nan "BAL";
     mkRow 18629 4%float "UNI"; mkRow 18629 PrimFloat.nan "BAL"] []
  = ([], Raise (KeyError "nan")).
Proof.
  apply (ticker_without_price_raises (H := StableSort.stable)
           [mkRow 18628 3%float "UNI"; mkRow 18628 PrimFloat.nan "BAL";
            mkRow 18629 4%float "UNI"; mkRow 18629 PrimFloat.nan "BAL"] [] "BAL").
  - simpl. auto.
  - intros r [<-|[<-|[<-|[<-|[]]]]]; simpl; intros Hk;
      try reflexivity; discriminate.
Defined.

Module Skipna.

Import Extremum Refine.

(** A number that is not an infinity. *)
Definition finite (x : float) : bool :=
  PrimFloat.ltb neg_infinity x && PrimFloat.ltb x infinity.

Lemma finite_number (x : float) :
  finite x = true -> PrimFloat.is_nan x = false.
Proof.
  unfold finite. intros Hx. apply andb_prop in Hx as [Hx _].
  apply IEEE.ltb_leb, IEEE.leb_not_nan in Hx. tauto.
Qed.

Lemma ltb_irrefl (x : float) : PrimFloat.ltb x x = false.
Proof.
  rewrite FloatAxioms.ltb_spec. unfold SFltb.
  destruct (Prim2SF x) as [s|s| |s m e] eqn:E; try reflexivity;
    rewrite IEEE.SFcompare_refl; solve [reflexivity|discriminate].
Qed.

Lemma ltb_not_leb (x y : float) :
  PrimFloat.ltb x y = true -> PrimFloat.leb y x = true -> False.
Proof.
  intros Hlt Hle. pose proof (Order.ltb_leb_trans _ _ _ Hlt Hle) as Hxx.
  rewrite ltb_irrefl in Hxx. discriminate.
Qed.

Definition filled (w : float) (g : list (nat * row)) : list (nat * float) :=
  map (fun ir => (fst ir, fillna w (price (snd ir)))) g.

Lemma filled_numbers (w : float) (g : list (nat * row)) :
  PrimFloat.is_nan w = false -> numbers (filled w g).
Proof.
  intros Hw ix Hix. apply in_map_iff in Hix as (ir & <- & _). simpl.
  unfold fillna. destruct (PrimFloat.is_nan (price (snd ir))) eqn:E; auto.
Qed.

(** [idxmax] skips the rows without a price. *)
Lemma idxmax_skipna (g : list (nat * row)) :
  (exists ir, In ir g /\ PrimFloat.ltb neg_infinity (price (snd ir)) = true) ->
  exists i r, idxmax g = Ok i /\ In (i, r) g
    /\ PrimFloat.is_nan (price r) = false
    /\ forall ir, In ir g -> PrimFloat.is_nan (price (snd ir)) = false ->
         PrimFloat.leb (price (snd ir)) (price r) = true.
Proof.
  intros (ir1 & Hin1 & Hgt1).
  assert (Hn1 : PrimFloat.is_nan (price (snd ir1)) = false).
  { apply IEEE.ltb_leb, IEEE.leb_not_nan in Hgt1. tauto. }
  unfold idxmax.
  destruct (forallb _ g) eqn:Hall.
  { rewrite forallb_forall in Hall. specialize (Hall _ Hin1). congruence. }
  clear Hall. fold (filled neg_infinity g).
  pose proof (filled_numbers neg_infinity g eq_refl) as Hnum.
  assert (Hfill : forall ir, In ir g -> In (fst ir, fillna neg_infinity (price (snd ir)))
                                           (filled neg_infinity g)).
  { intros ir Hir. apply in_map_iff. now exists ir. }
  assert (Hback : forall j x, In (j, x) (filled neg_infinity g) ->
                    exists r, In (j, r) g /\ fillna neg_infinity (price r) = x).
  { intros j x Hjx. apply in_map_iff in Hjx as ([j' r] & [= <- <-] & Hir). eauto. }
  destruct (filled neg_infinity g) as [|[i0 x0] l] eqn:Hf.
  { destruct (Hfill _ Hin1). }
  destruct (argmax_from_max l i0 x0 Hnum) as (x & Hx & Hmax).
  destruct (Hback _ _ Hx) as (r & Hr & Hrx).
  assert (Hnr : PrimFloat.is_nan (price r) = false).
  { destruct (PrimFloat.is_nan (price r)) eqn:E; [|reflexivity]. exfalso.
    unfold fillna in Hrx. rewrite E in Hrx. subst x.
    pose proof (Hmax _ (Hfill _ Hin1)) as Hle. simpl in Hle.
    rewrite (fillna_number _ _ Hn1) in Hle.
    exact (ltb_not_leb _ _ Hgt1 Hle). }
  rewrite (fillna_number _ _ Hnr) in Hrx. subst x.
  exists (argmax_from i0 x0 l), r. split; [reflexivity|]. split; [exact Hr|].
  split; [exact Hnr|].
  intros ir Hir Hnir. pose proof (Hmax _ (Hfill _ Hir)) as Hle. simpl in Hle.
  now rewrite (fillna_number _ _ Hnir) in Hle.
Qed.

Lemma idxmin_skipna (g : list (nat * row)) :
  (exists ir, In ir g /\ PrimFloat.ltb (price (snd ir)) infinity = true) ->
  exists i r, idxmin g = Ok i /\ In (i, r) g
    /\ PrimFloat.is_nan (price r) = false
    /\ forall ir, In ir g -> PrimFloat.is_nan (price (snd ir)) = false ->
         PrimFloat.leb (price r) (price (snd ir)) = true.
Proof.
  intros (ir1 & Hin1 & Hgt1).
  assert (Hn1 : PrimFloat.is_nan (price (snd ir1)) = false).
  { apply IEEE.ltb_leb, IEEE.leb_not_nan in Hgt1. tauto. }
  unfold idxmin.
  destruct (forallb _ g) eqn:Hall.
  { rewrite forallb_forall in Hall. specialize (Hall _ Hin1). congruence. }
  clear Hall. fold (filled infinity g).
  pose proof (filled_numbers infinity g eq_refl) as Hnum.
  assert (Hfill : forall ir, In ir g -> In (fst ir, fillna infinity (price (snd ir)))
                                           (filled infinity g)).
  { intros ir Hir. apply in_map_iff. now exists ir. }
  assert (Hback : forall j x, In (j, x) (filled infinity g) ->
                    exists r, In (j, r) g /\ fillna infinity (price r) = x).
  { intros j x Hjx. apply in_map_iff in Hjx as ([j' r] & [= <- <-] & Hir). eauto. }
  destruct (filled infinity g) as [|[i0 x0] l] eqn:Hf.
  { destruct (Hfill _ Hin1). }
  destruct (argmin_from_min l i0 x0 Hnum) as (x & Hx & Hmin).
  destruct (Hback _ _ Hx) as (r & Hr & Hrx).
  assert (Hnr : PrimFloat.is_nan (price r) = false).
  { destruct (PrimFloat.is_nan (price r)) eqn:E; [|reflexivity]. exfalso.
    unfold fillna in Hrx. rewrite E in Hrx. subst x.
    pose proof (Hmin _ (Hfill _ Hin1)) as Hle. simpl in Hle.
    rewrite (fillna_number _ _ Hn1) in Hle.
    exact (ltb_not_leb _ _ Hgt1 Hle). }
  rewrite (fillna_number _ _ Hnr) in Hrx. subst x.
  exists (argmin_from i0 x0 l), r. split; [reflexivity|]. split; [exact Hr|].
  split; [exact Hnr|].
  intros ir Hir Hnir. pose proof (Hmin _ (Hfill _ Hir)) as Hle. simpl in Hle.
  now rewrite (fillna_number _ _ Hnir) in Hle.
Qed.

(** [first] takes the first row that has a price. *)
Lemma first_valid_split (g : list row) :
  (exists r, In r g /\ PrimFloat.is_nan (price r) = false) ->
  exists g1 r g2, g = g1 ++ r :: g2
    /\ (forall r', In r' g1 -> PrimFloat.is_nan (price r') = true)
    /\ PrimFloat.is_nan (price r) = false
    /\ first_valid (map price g) = price r.
Proof.
  induction g as [|a g IH]; intros (r & Hr & Hn); [destruct Hr|].
  destruct (PrimFloat.is_nan (price a)) eqn:Ea.
  - destruct IH as (g1 & r1 & g2 & -> & H1 & H2 & H3).
    { destruct Hr as [<-|Hr]; [congruence|eauto]. }
    exists (a :: g1), r1, g2. split; [reflexivity|]. split.
    + intros r' [<-|Hr']; auto.
    + split; [exact H2|]. unfold first_valid in *. simpl. rewrite Ea. simpl.
      exact H3.
  - exists [], a, g. split; [reflexivity|]. split; [intros r' []|].
    split; [exact Ea|]. unfold first_valid. simpl. now rewrite Ea.
Qed.

Lemma last_valid_split (g : list row) :
  (exists r, In r g /\ PrimFloat.is_nan (price r) = false) ->
  exists g1 r g2, g = g1 ++ r :: g2
    /\ (forall r', In r' g2 -> PrimFloat.is_nan (price r') = true)
    /\ PrimFloat.is_nan (price r) = false
    /\ last_valid (map price g) = price r.
Proof.
  intros (r0 & Hr0 & Hn0).
  destruct (first_valid_split (rev g)) as (g1 & r & g2 & Hg & H1 & H2 & H3).
  { exists r0. split; [now apply (proj1 (in_rev g r0))|exact Hn0]. }
  exists (rev g2), r, (rev g1). split.
  - rewrite <- (rev_involutive g), Hg, rev_app_distr. simpl.
    now rewrite <- app_assoc.
  - split; [intros r' Hr'; apply H1; now apply (proj2 (in_rev g1 r'))|].
    split; [exact H2|]. unfold last_valid. now rewrite <- map_rev.
Qed.

(** The dates of a date-sorted group. *)
Lemma dates_of_group (g : list row) :
  g <> [] ->
  StronglySorted (fun a b => (date a <= date b)%Z) g ->
  (exists r, In r g /\ date r = hd 0%Z (map date g))
  /\ (exists r, In r g /\ date r = List.last (map date g) 0%Z)
  /\ forall r, In r g ->
       (hd 0%Z (map date g) <= date r <= List.last (map date g) 0%Z)%Z.
Proof.
  intros Hne Hs.
  destruct (exists_last Hne) as (init & rn & Hg).
  assert (Hlast : List.last (map date g) 0%Z = date rn)
    by (rewrite Hg, map_app; simpl; apply last_last).
  assert (Hle_last : forall r, In r g -> (date r <= date rn)%Z).
  { intros r Hr. rewrite Hg in Hr, Hs.
    apply in_app_or in Hr as [Hr|[<-|[]]]; [|lia].
    now apply (sorted_snoc _ _ _ Hs). }
  destruct g as [|r1 g']; [contradiction|].
  assert (Hle_first : forall r, In r (r1 :: g') -> (date r1 <= date r)%Z).
  { intros r [<-|Hr]; [lia|]. inversion Hs as [|? ? _ Hall]; subst.
    rewrite Forall_forall in Hall. apply Hall. now apply list_elem_of_In. }
  split; [|split].
  - exists r1. split; [now left|reflexivity].
  - exists rn. split; [|now symmetry].
    rewrite Hg. apply in_or_app. right. now left.
  - intros r Hr. rewrite Hlast. simpl. split; [now apply Hle_first|now apply Hle_last].
Qed.

Lemma idxmax_priced (g : list (nat * row)) :
  (exists ir, In ir g /\ PrimFloat.is_nan (price (snd ir)) = false) ->
  exists i, idxmax g = Ok i.
Proof.
  intros (ir1 & Hin1 & Hn1). unfold idxmax.
  destruct (forallb _ g) eqn:Hall.
  { rewrite forallb_forall in Hall. specialize (Hall _ Hin1). congruence. }
  destruct g as [|[i0 r0] g]; [destruct Hin1|]. simpl. eauto.
Qed.

Lemma idxmin_priced (g : list (nat * row)) :
  (exists ir, In ir g /\ PrimFloat.is_nan (price (snd ir)) = false) ->
  exists i, idxmin g = Ok i.
Proof.
  intros (ir1 & Hin1 & Hn1). unfold idxmin.
  destruct (forallb _ g) eqn:Hall.
  { rewrite forallb_forall in Hall. specialize (Hall _ Hin1). congruence. }
  destruct g as [|[i0 r0] g]; [destruct Hin1|]. simpl. eauto.
Qed.

Lemma summarise_priced `{SortKind} (df : list row) (k : string) :
  (exists r, In r df /\ ticker r = k /\ PrimFloat.is_nan (price r) = false) ->
  exists s, summarise df k = Ok s.
Proof.
  intros (r1 & Hr1 & Hk1 & Hn1).
  apply list_elem_of_In, list_elem_of_lookup in Hr1 as (i1 & Hi1).
  assert (Hg : exists ir, In ir (group_of k df)
                 /\ PrimFloat.is_nan (price (snd ir)) = false).
  { exists (i1, r1). split; [apply group_of_In; auto|exact Hn1]. }
  destruct (idxmax_priced _ Hg) as (imax & Emax).
  destruct (idxmin_priced _ Hg) as (imin & Emin).
  destruct (idxmax_In _ _ Emax) as (rmax & Hmax).
  destruct (idxmin_In _ _ Emin) as (rmin & Hmin).
  apply group_of_In in Hmax as (Hmax & _). apply group_of_In in Hmin as (Hmin & _).
  unfold summarise, loc_row. rewrite Emax. simpl. rewrite Hmax. simpl.
  rewrite Emin. simpl. rewrite Hmin. simpl. eauto.
Qed.

(** When every ticker has a priced sample [make_table_df] returns the table
    of the lines [summarise] computes. *)
Lemma table_lines_priced `{SortKind} (df : list row) (h : heap) :
  (forall r, In r df ->
     exists r', In r' df /\ ticker r' = ticker r
                /\ PrimFloat.is_nan (price r') = false) ->
  exists rows : list (string * TickerSummary),
    make_table_df df h = (h ++ [summary_table rows], Ok (length h))
    /\ map fst rows = group_keys (map ticker df)
    /\ forall k s, In (k, s) rows ->
         In k (map ticker df) /\ summarise df k = Ok s.
Proof.
  intros Hp.
  destruct (mapM_ok (summary_line df) (fun k line => fst line = k)
              (group_keys (map ticker df))) as (rows & Hrows & Hall).
  { intros k Hk. apply (proj1 (Keys.group_keys_In _ _)) in Hk.
    apply in_map_iff in Hk as (r & Hkr & Hr).
    destruct (Hp r Hr) as (r' & Hr' & Hk' & Hn').
    destruct (summarise_priced df k) as (s & Hs).
    { exists r'. split; [exact Hr'|]. split; [congruence|exact Hn']. }
    exists (k, s). unfold summary_line. rewrite Hs. simpl. auto. }
  exists rows. split; [now apply make_table_df_rows|]. split.
  - clear Hrows. induction Hall as [|k line ks rows Hk _ IH]; simpl;
      [reflexivity|]. now rewrite Hk, IH.
  - intros k s Hin.
    destruct (Lines.mapM_In_inv _ _ _ Hrows (k, s) Hin) as (k' & Hk' & Hline).
    unfold summary_line in Hline.
    destruct (summarise df k') as [s'|] eqn:Hs; simpl in Hline; [|discriminate].
    injection Hline as -> ->.
    split; [now apply Keys.group_keys_In|exact Hs].
Qed.

End Skipna.

(** X14. Samples without a price (NaN) are skipped by the extremes. When every
    ticker has at least one finite price the table is built, the maximum and
    the minimum of a line are prices of samples of the ticker, never NaN, each
    with the date of its own sample, and they bound every priced sample of the
    ticker. *)
Theorem extrema_skip_missing_prices `{SortKind} (df : list row) (h : heap) :
  (forall r, In r df ->
     exists r', In r' df /\ ticker r' = ticker r
                /\ Skipna.finite (price r') = true) ->
  exists rows : list (string * TickerSummary),
    make_table_df df h = (h ++ [summary_table rows], Ok (length h))
    /\ forall k s, In (k, s) rows ->
         (exists r, In r df /\ ticker r = k /\ PrimFloat.is_nan (price r) = false
                    /\ price r = price_max s /\ date r = date_max s)
         /\ (exists r, In r df /\ ticker r = k
                       /\ PrimFloat.is_nan (price r) = false
                       /\ price r = price_min s /\ date r = date_min s)
         /\ forall r, In r df -> ticker r = k ->
              PrimFloat.is_nan (price r) = false ->
              PrimFloat.leb (price_min s) (price r) = true
              /\ PrimFloat.leb (price r) (price_max s) = true.
Proof.
  intros Hfin.
  destruct (Skipna.table_lines_priced df h) as (rows & Hrun & _ & Hlines).
  { intros r Hr. destruct (Hfin r Hr) as (r' & Hr' & Hk' & Hf').
    exists r'. split; [exact Hr'|]. split; [exact Hk'|].
    now apply Skipna.finite_number. }
  exists rows. split; [exact Hrun|].
  intros k s Hin. destruct (Hlines k s Hin) as (Hk & Hs).
  destruct (Lines.summarise_extrema df k s Hs)
    as (imax & rmax & imin & rmin & Emax & Hmax & Emin & Hmin & -> & -> & -> & ->).
  apply in_map_iff in Hk as (r0 & Hk0 & Hr0).
  destruct (Hfin r0 Hr0) as (r1 & Hr1 & Hk1 & Hf1).
  apply list_elem_of_In, list_elem_of_lookup in Hr1 as (i1 & Hi1).
  assert (Hg1 : In (i1, r1) (Refine.group_of k df))
    by (apply Refine.group_of_In; split; [exact Hi1|congruence]).
  unfold Skipna.finite in Hf1. apply andb_prop in Hf1 as [Hlo Hhi].
  destruct (Skipna.idxmax_skipna (Refine.group_of k df))
    as (i & r & Ei & Hir & Hnr & Hub); [exists (i1, r1); auto|].
  destruct (Skipna.idxmin_skipna (Refine.group_of k df))
    as (j & r' & Ej & Hjr & Hnr' & Hlb); [exists (i1, r1); auto|].
  rewrite Emax in Ei. injection Ei as <-. rewrite Emin in Ej. injection Ej as <-.
  apply Refine.group_of_In in Hir as (Hir & Hkr).
  apply Refine.group_of_In in Hjr as (Hjr & Hkr').
  rewrite Hmax in Hir. injection Hir as <-.
  rewrite Hmin in Hjr. injection Hjr as <-.
  split; [|split].
  - exists rmax. repeat split; auto.
    apply list_elem_of_In. eapply list_elem_of_lookup_2; eauto.
  - exists rmin. repeat split; auto.
    apply list_elem_of_In. eapply list_elem_of_lookup_2; eauto.
  - intros r Hr Hkr2 Hn.
    apply list_elem_of_In, list_elem_of_lookup in Hr as (i & Hi).
    assert (Hg : In (i, r) (Refine.group_of k df))
      by (apply Refine.group_of_In; auto).
    split; [apply (Hlb (i, r) Hg Hn)|apply (Hub (i, r) Hg Hn)].
Qed.

(** A ticker whose first and last samples lack a price. *)
Definition gapped_rows : list row :=
  [ mkRow 18628 PrimFloat.nan "UNI"; mkRow 18629 7%float "UNI";
    mkRow 18630 3%float "UNI"; mkRow 18631 PrimFloat.nan "UNI";
    mkRow 18629 9%float "BAL" ].

Lemma extrema_skip_missing_prices_witness :
  exists rows : list (string * TickerSummary),
    make_table_df (H := StableSort.stable) gapped_rows []
      = ([] ++ [summary_table rows], Ok (length (@nil DataFrame)))
    /\ forall k s, In (k, s) rows ->
         (exists r, In r gapped_rows /\ ticker r = k
                    /\ PrimFloat.is_nan (price r) = false
                    /\ price r = price_max s /\ date r = date_max s)
         /\ (exists r, In r gapped_rows /\ ticker r = k
                       /\ PrimFloat.is_nan (price r) = false
                       /\ price r = price_min s /\ date r = date_min s)
         /\ forall r, In r gapped_rows -> ticker r = k ->
              PrimFloat.is_nan (price r) = false ->
              PrimFloat.leb (price_min s) (price r) = true
              /\ PrimFloat.leb (price r) (price_max s) = true.
Proof.
  apply (extrema_skip_missing_prices (H := StableSort.stable) gapped_rows []).
  intros r [<-|[<-|[<-|[<-|[<-|[]]]]]].
  - exists (mkRow 18629 7%float "UNI"). split; [simpl; auto|split; reflexivity].
  - exists (mkRow 18629 7%float "UNI"). split; [simpl; auto|split; reflexivity].
  - exists (mkRow 18629 7%float "UNI"). split; [simpl; auto|split; reflexivity].
  - exists (mkRow 18629 7%float "UNI"). split; [simpl; auto|split; reflexivity].
  - exists (mkRow 18629 9%float "BAL"). split; [simpl; auto 6|split; reflexivity].
Defined.

(** X15. First and last skip the samples without a price, but only in the
    price columns. When every ticker has a priced sample, price_first is the
    price of a priced sample that no priced sample of the ticker precedes in
    date and price_last that of one none follows, while date_first and
    date_last are the earliest and latest dates of all samples of the ticker,
    priced or not. *)
Theorem first_and_last_skip_missing_prices `{SortKind} (df : list row)
  (h : heap) :
  (forall r, In r df ->
     exists r', In r' df /\ ticker r' = ticker r
                /\ PrimFloat.is_nan (price r') = false) ->
  exists rows : list (string * TickerSummary),
    make_table_df df h = (h ++ [summary_table rows], Ok (length h))
    /\ forall k s, In (k, s) rows ->
         (exists r, In r df /\ ticker r = k /\ PrimFloat.is_nan (price r) = false
                    /\ price r = price_first s
                    /\ forall r', In r' df -> ticker r' = k ->
                         PrimFloat.is_nan (price r') = false ->
                         (date r <= date r')%Z)
         /\ (exists r, In r df /\ ticker r = k
                       /\ PrimFloat.is_nan (price r) = false
                       /\ price r = price_last s
                       /\ forall r', In r' df -> ticker r' = k ->
                            PrimFloat.is_nan (price r') = false ->
                            (date r' <= date r)%Z)
         /\ (exists r, In r df /\ ticker r = k /\ date r = date_first s)
         /\ (exists r, In r df /\ ticker r = k /\ date r = date_last s)
         /\ forall r, In r df -> ticker r = k ->
              (date_first s <= date r <= date_last s)%Z.
Proof.
  intros Hp.
  destruct (Skipna.table_lines_priced df h Hp) as (rows & Hrun & _ & Hlines).
  exists rows. split; [exact Hrun|].
  intros k s Hin. destruct (Hlines k s Hin) as (Hk & Hs).
  destruct (Lines.summarise_first_last df k s Hs) as (-> & -> & -> & ->).
  apply in_map_iff in Hk as (r0 & Hk0 & Hr0).
  destruct (Hp r0 Hr0) as (r1 & Hr1 & Hk1 & Hn1).
  assert (Hg1 : In r1 (Refine.sorted_group k df))
    by (apply Refine.sorted_group_In; split; [exact Hr1|congruence]).
  assert (Hsorted : StronglySorted (fun a b => (date a <= date b)%Z)
                      (Refine.sorted_group k df))
    by (unfold Refine.sorted_group; apply Refine.sorted_filter, sort_values_sorted).
  assert (Hne : Refine.sorted_group k df <> [])
    by (intros Hnil; rewrite Hnil in Hg1; destruct Hg1).
  destruct (Skipna.dates_of_group _ Hne Hsorted)
    as ((rf & Hrf & Hdf) & (rl & Hrl & Hdl) & Hbetween).
  apply Refine.sorted_group_In in Hrf as (Hrf & Hkf).
  apply Refine.sorted_group_In in Hrl as (Hrl & Hkl).
  split; [|split; [|split; [|split]]].
  - destruct (Skipna.first_valid_split (Refine.sorted_group k df))
      as (g1 & r & g2 & Hg & Hnan & Hnr & Hfirst); [eauto|].
    assert (Hr : In r (Refine.sorted_group k df))
      by (rewrite Hg; apply in_or_app; right; now left).
    apply Refine.sorted_group_In in Hr as (Hr & Hkr).
    exists r. repeat (split; [auto; fail|]).
    intros r' Hr' Hkr' Hnr'.
    assert (Hin' : In r' (Refine.sorted_group k df))
      by (apply Refine.sorted_group_In; auto).
    rewrite Hg in Hin', Hsorted.
    destruct (sorted_around _ _ _ _ Hsorted) as [_ Hafter].
    apply in_app_or in Hin' as [Hin'|[<-|Hin']].
    + rewrite (Hnan _ Hin') in Hnr'. discriminate.
    + lia.
    + now apply Hafter.
  - destruct (Skipna.last_valid_split (Refine.sorted_group k df))
      as (g1 & r & g2 & Hg & Hnan & Hnr & Hlast); [eauto|].
    assert (Hr : In r (Refine.sorted_group k df))
      by (rewrite Hg; apply in_or_app; right; now left).
    apply Refine.sorted_group_In in Hr as (Hr & Hkr).
    exists r. repeat (split; [auto; fail|]).
    intros r' Hr' Hkr' Hnr'.
    assert (Hin' : In r' (Refine.sorted_group k df))
      by (apply Refine.sorted_group_In; auto).
    rewrite Hg in Hin', Hsorted.
    destruct (sorted_around _ _ _ _ Hsorted) as [Hbefore _].
    apply in_app_or in Hin' as [Hin'|[<-|Hin']].
    + now apply Hbefore.
    + lia.
    + rewrite (Hnan _ Hin') in Hnr'. discriminate.
  - exists rf. auto.
  - exists rl. auto.
  - intros r Hr Hkr. apply Hbetween. apply Refine.sorted_group_In. auto.
Qed.

Lemma first_and_last_skip_missing_prices_witness :
  exists rows : list (string * TickerSummary),
    make_table_df (H := StableSort.stable) gapped_rows []
      = ([] ++ [summary_table rows], Ok (length (@nil DataFrame)))
    /\ forall k s, In (k, s) rows ->
         (exists r, In r gapped_rows /\ ticker r = k
                    /\ PrimFloat.is_nan (price r) = false
                    /\ price r = price_first s
                    /\ forall r', In r' gapped_rows -> ticker r' = k ->
                         PrimFloat.is_nan (price r') = false ->
                         (date r <= date r')%Z)
         /\ (exists r, In r gapped_rows /\ ticker r = k
                       /\ PrimFloat.is_nan (price r) = false
                       /\ price r = price_last s
                       /\ forall r', In r' gapped_rows -> ticker r' = k ->
                            PrimFloat.is_nan (price r') = false ->
                            (date r' <= date r)%Z)
         /\ (exists r, In r gapped_rows /\ ticker r = k /\ date r = date_first s)
         /\ (exists r, In r gapped_rows /\ ticker r = k /\ date r = date_last s)
         /\ forall r, In r gapped_rows -> ticker r = k ->
              (date_first s <= date r <= date_last s)%Z.
Proof.
  apply (first_and_last_skip_missing_prices (H := StableSort.stable)
           gapped_rows []).
  intros r [<-|[<-|[<-|[<-|[<-|[]]]]]].
  - exists (mkRow 18629 7%float "UNI"). split; [simpl; auto|split; reflexivity].
  - exists (mkRow 18629 7%float "UNI"). split; [simpl; auto|split; reflexivity].
  - exists (mkRow 18629 7%float "UNI"). split; [simpl; auto|split; reflexivity].
  - exists (mkRow 18629 7%float "UNI"). split; [simpl; auto|split; reflexivity].
  - exists (mkRow 18629 9%float "BAL"). split; [simpl; auto 6|split; reflexivity].
Defined.

(** In [gapped_rows] the first and last dates of UNI are those of its unpriced
    samples, next to the prices of the two priced ones. *)
Example gapped_rows_table :
  make_table_df (H := StableSort.stable) gapped_rows []
  = ([summary_table
        [ ("BAL", mkSummary 18629 18629 18629 18629 9%float 9%float 9%float 9%float);
          ("UNI", mkSummary 18628 18631 18629 18630 7%float 3%float 7%float 3%float) ]],
     Ok 0%nat).
Proof. vm_compute. reflexivity. Qed.

(* ------------------------------------------------------------------------- *)
(** ** The order of the rows *)

Module RowOrder.

Import Extremum Refine.

(** No ticker has two samples of one date, nor two of equal price. *)
Definition distinct_samples (df : list row) : Prop :=
  forall i j ri rj,
    df !! i = Some ri -> df !! j = Some rj -> i <> j ->
    ticker ri = ticker rj ->
    date ri <> date rj
    /\ PrimFloat.ltb (price ri) (price rj) || PrimFloat.ltb (price rj) (price ri)
       = true.

Lemma filter_perm {A} (p : A -> bool) (l l' : list A) :
  Permutation l l' -> Permutation (List.filter p l) (List.filter p l').
Proof.
  induction 1 as [|x l l' _ IH|x y l|l l' l'' _ IH1 _ IH2]; simpl.
  - constructor.
  - destruct (p x); [now constructor|exact IH].
  - destruct (p x), (p y); try reflexivity. apply perm_swap.
  - etransitivity; eauto.
Qed.

Lemma mapM_ext_in {A B} (f g : A -> result B) (l : list A) :
  (forall a, In a l -> f a = g a) -> mapM f l = mapM g l.
Proof.
  induction l as [|a l IH]; intros Hfg; [reflexivity|]. simpl.
  rewrite (Hfg a (or_introl eq_refl)), IH; [reflexivity|].
  intros a' Ha'. apply Hfg. now right.
Qed.

Lemma distinct_tail (a : row) (df : list row) :
  distinct_samples (a :: df) -> distinct_samples df.
Proof. intros Hd i j ri rj Hi Hj Hij. apply (Hd (S i) (S j)); auto. Qed.

Lemma group_dates_nodup (k : string) (df : list row) :
  distinct_samples df ->
  List.NoDup (map date (List.filter (fun r => String.eqb (ticker r) k) df)).
Proof.
  induction df as [|a df IH]; intros Hd; simpl; [constructor|].
  specialize (IH (distinct_tail _ _ Hd)).
  destruct (String.eqb (ticker a) k) eqn:Ea; [|exact IH].
  simpl. constructor; [|exact IH].
  intros Hin. apply in_map_iff in Hin as (r & Hdate & Hr).
  apply filter_In in Hr as (Hr & Hkr).
  apply String.eqb_eq in Ea, Hkr.
  apply list_elem_of_In, list_elem_of_lookup in Hr as (j & Hj).
  assert (Hk : ticker a = ticker r) by congruence.
  destruct (Hd 0%nat (S j) a r eq_refl Hj (O_S j) Hk) as [Hne _].
  congruence.
Qed.

Lemma sorted_strict (l : list row) :
  StronglySorted (fun a b => (date a <= date b)%Z) l ->
  List.NoDup (map date l) ->
  StronglySorted (fun a b => (date a < date b)%Z) l.
Proof.
  induction 1 as [|x l Hs IH Hx]; intros Hnd; constructor; simpl in Hnd.
  - apply IH. now inversion Hnd.
  - inversion Hnd as [|? ? Hnotin _]; subst.
    rewrite Forall_forall in Hx |- *. intros y Hy.
    specialize (Hx y Hy). apply list_elem_of_In in Hy.
    assert (date x <> date y); [|lia].
    intros Heq. apply Hnotin. rewrite Heq. now apply in_map.
Qed.

(** The date-sorted rows of a ticker do not depend on the order of the
    frame. *)
Lemma sorted_group_perm `{SortKind} (k : string) (df df' : list row) :
  Permutation df df' -> distinct_samples df ->
  sorted_group k df' = sorted_group k df.
Proof.
  intros Hperm Hd.
  assert (Hstrict : forall d, Permutation df d ->
            StronglySorted (fun a b => (date a < date b)%Z) (sorted_group k d)).
  { intros d Hpd. apply sorted_strict.
    - unfold sorted_group. apply sorted_filter, sort_values_sorted.
    - eapply Permutation_NoDup; [|apply (group_dates_nodup k df Hd)].
      apply Permutation_map, filter_perm.
      etransitivity; [exact Hpd|]. symmetry. apply sort_values_perm. }
  apply (sorted_unique (fun a b => (date a < date b)%Z)); [intros; lia| | |].
  - now apply Hstrict.
  - now apply Hstrict.
  - intros r. rewrite !sorted_group_In.
    split; intros [Hr Hk]; split; try exact Hk;
      eapply Permutation_in; try exact Hr; [now symmetry|exact Hperm].
Qed.

(** With no two equal prices in a ticker, a row that bounds the group is the
    only one. *)
Lemma extremum_unique (df : list row) (r r' : row) :
  distinct_samples df ->
  In r df -> In r' df -> ticker r = ticker r' ->
  PrimFloat.leb (price r) (price r') = true ->
  PrimFloat.leb (price r') (price r) = true ->
  r = r'.
Proof.
  intros Hd Hr Hr' Hk H1 H2.
  apply list_elem_of_In, list_elem_of_lookup in Hr as (i & Hi).
  apply list_elem_of_In, list_elem_of_lookup in Hr' as (j & Hj).
  destruct (Nat.eq_dec i j) as [->|Hij]; [congruence|].
  destruct (Hd i j r r' Hi Hj Hij Hk) as [_ Hlt].
  apply orb_prop in Hlt as [Hlt|Hlt]; exfalso.
  - exact (Skipna.ltb_not_leb _ _ Hlt H2).
  - exact (Skipna.ltb_not_leb _ _ Hlt H1).
Qed.

Lemma group_of_perm_In (k : string) (df df' : list row) (i : nat) (r : row) :
  Permutation df df' -> In (i, r) (group_of k df) ->
  exists j, In (j, r) (group_of k df').
Proof.
  intros Hperm Hin. apply group_of_In in Hin as (Hi & Hk).
  assert (Hr : In r df')
    by (eapply Permutation_in; [exact Hperm|];
        apply list_elem_of_In; eapply list_elem_of_lookup_2; eauto).
  apply list_elem_of_In, list_elem_of_lookup in Hr as (j & Hj).
  exists j. apply group_of_In. auto.
Qed.

Lemma summarise_perm `{SortKind} (k : string) (df df' : list row) :
  Permutation df df' -> distinct_samples df ->
  (forall r, In r df -> PrimFloat.is_nan (price r) = false) ->
  In k (map ticker df) ->
  summarise df' k = summarise df k.
Proof.
  intros Hperm Hd Hn Hk.
  assert (Hn' : forall r, In r df' -> PrimFloat.is_nan (price r) = false).
  { intros r Hr. apply Hn. eapply Permutation_in; [symmetry; exact Hperm|exact Hr]. }
  assert (Hk' : In k (map ticker df'))
    by (eapply Permutation_in; [apply Permutation_map; exact Hperm|exact Hk]).
  assert (Hgn : forall d, (forall r, In r d -> PrimFloat.is_nan (price r) = false) ->
            forall ir, In ir (group_of k d) ->
              PrimFloat.is_nan (price (snd ir)) = false).
  { intros d Hnd [i r] Hir. apply group_of_In in Hir as (Hi & _). apply Hnd.
    apply list_elem_of_In. eapply list_elem_of_lookup_2; eauto. }
  pose proof (Unpriced.group_of_nonempty k df Hk) as Hg.
  pose proof (Unpriced.group_of_nonempty k df' Hk') as Hg'.
  destruct (idxmax_max _ Hg (Hgn df Hn)) as (i1 & r1 & E1 & Hin1 & Hmax1).
  destruct (idxmax_max _ Hg' (Hgn df' Hn')) as (i2 & r2 & E2 & Hin2 & Hmax2).
  destruct (idxmin_min _ Hg (Hgn df Hn)) as (i3 & r3 & E3 & Hin3 & Hmin3).
  destruct (idxmin_min _ Hg' (Hgn df' Hn')) as (i4 & r4 & E4 & Hin4 & Hmin4).
  assert (Hsym : Permutation df' df) by now symmetry.
  assert (Hmaxeq : r2 = r1).
  { destruct (group_of_perm_In k df df' i1 r1 Hperm Hin1) as (j1 & Hj1).
    destruct (group_of_perm_In k df' df i2 r2 Hsym Hin2) as (j2 & Hj2).
    pose proof (Hmax1 _ Hj2) as Hle1. pose proof (Hmax2 _ Hj1) as Hle2.
    simpl in Hle1, Hle2.
    apply group_of_In in Hin1 as (Hl1 & Hk1). apply group_of_In in Hj2 as (Hl2 & Hk2).
    apply (extremum_unique df); auto; try congruence;
      apply list_elem_of_In; eapply list_elem_of_lookup_2; eauto. }
  assert (Hmineq : r4 = r3).
  { destruct (group_of_perm_In k df df' i3 r3 Hperm Hin3) as (j3 & Hj3).
    destruct (group_of_perm_In k df' df i4 r4 Hsym Hin4) as (j4 & Hj4).
    pose proof (Hmin3 _ Hj4) as Hle3. pose proof (Hmin4 _ Hj3) as Hle4.
    simpl in Hle3, Hle4.
    apply group_of_In in Hin3 as (Hl3 & Hk3). apply group_of_In in Hj4 as (Hl4 & Hk4).
    apply (extremum_unique df); auto; try congruence;
      apply list_elem_of_In; eapply list_elem_of_lookup_2; eauto. }
  apply group_of_In in Hin1 as (Hl1 & _). apply group_of_In in Hin2 as (Hl2 & _).
  apply group_of_In in Hin3 as (Hl3 & _). apply group_of_In in Hin4 as (Hl4 & _).
  unfold summarise, loc_row.
  rewrite E1, E2, E3, E4. simpl. rewrite Hl1, Hl2, Hl3, Hl4. simpl.
  rewrite (sorted_group_perm k df df' Hperm Hd). now subst r2 r4.
Qed.

End RowOrder.

(** X16. The summary table does not depend on the order of the rows of the
    working table, hence not on the order of the fetched histories: when every
    price is a number and no ticker has two samples of one date or of equal
    price, any rearrangement of the rows gives the same table. *)
Theorem summary_ignores_row_order `{SortKind} (df df' : list row) (h : heap) :
  Permutation df df' ->
  RowOrder.distinct_samples df ->
  (forall r, In r df -> PrimFloat.is_nan (price r) = false) ->
  exists t : DataFrame,
    make_table_df df h = (h ++ [t], Ok (length h))
    /\ make_table_df df' h = (h ++ [t], Ok (length h)).
Proof.
  intros Hperm Hd Hn.
  destruct (Refine.summary_lines_numbers df Hn) as (rows & Hrows & _ & _).
  exists (summary_table rows). split; [now apply Refine.make_table_df_rows|].
  apply Refine.make_table_df_rows.
  rewrite <- (Keys.group_keys_perm (map ticker df) (map ticker df'))
    by now apply Permutation_map.
  rewrite <- Hrows. apply RowOrder.mapM_ext_in.
  intros k Hk. apply (proj1 (Keys.group_keys_In _ _)) in Hk.
  unfold Refine.summary_line.
  now rewrite (RowOrder.summarise_perm k df df' Hperm Hd Hn Hk).
Qed.

Lemma summary_ignores_row_order_witness :
  exists t : DataFrame,
    make_table_df (H := StableSort.stable)
      [mkRow 18628 3%float "UNI"; mkRow 18628 2%float "BAL";
       mkRow 18629 4%float "UNI"] []
      = ([] ++ [t], Ok (length (@nil DataFrame)))
    /\ make_table_df (H := StableSort.stable)
         [mkRow 18628 2%float "BAL"; mkRow 18629 4%float "UNI";
          mkRow 18628 3%float "UNI"] []
       = ([] ++ [t], Ok (length (@nil DataFrame))).
Proof.
  apply (summary_ignores_row_order (H := StableSort.stable)
           [mkRow 18628 3%float "UNI"; mkRow 18628 2%float "BAL";
            mkRow 18629 4%float "UNI"]
           [mkRow 18628 2%float "BAL"; mkRow 18629 4%float "UNI";
            mkRow 18628 3%float "UNI"] []).
  - apply (Permutation_cons_app
             [mkRow 18628 2%float "BAL"; mkRow 18629 4%float "UNI"] []).
    reflexivity.
  - intros i j ri rj Hi Hj Hij Hk.
    destruct i as [|[|[|i]]]; destruct j as [|[|[|j]]]; simpl in Hi, Hj;
      try discriminate; try (exfalso; apply Hij; reflexivity);
      injection Hi as <-; injection Hj as <-; simpl in Hk; try discriminate;
      (split; [simpl; lia|reflexivity]).
  - intros r [<-|[<-|[<-|[]]]]; reflexivity.
Defined.

(* ------------------------------------------------------------------------- *)
(** ** The order of the ticker list *)

Module TickerOrder.

Lemma mapM_perm {A B} (f : A -> result B) (l l' : list A) :
  Permutation l l' ->
  forall bs, mapM f l = Ok bs ->
  exists bs', mapM f l' = Ok bs' /\ Permutation bs bs'.
Proof.
  induction 1 as [|x l l' _ IH|x y l|l l' l'' _ IH1 _ IH2]; intros bs; simpl.
  - intros [= <-]. exists []. split; [reflexivity|constructor].
  - destruct (f x) as [b|]; simpl; [|discriminate].
    destruct (mapM f l) as [bs0|]; simpl; [|discriminate].
    intros [= <-]. destruct (IH bs0 eq_refl) as (bs0' & -> & Hp).
    exists (b :: bs0'). split; [reflexivity|now constructor].
  - destruct (f y) as [b1|]; simpl; [|discriminate].
    destruct (f x) as [b2|]; simpl; [|discriminate].
    destruct (mapM f l) as [bs0|]; simpl; [|discriminate].
    intros [= <-]. exists (b2 :: b1 :: bs0). split; [reflexivity|apply perm_swap].
  - intros Hbs. destruct (IH1 bs Hbs) as (bs1 & Hbs1 & Hp1).
    destruct (IH2 bs1 Hbs1) as (bs2 & Hbs2 & Hp2).
    exists bs2. split; [exact Hbs2|etransitivity; eauto].
Qed.

(** Rearranged histories flatten to rearranged rows. *)
Lemma flatten_perm (token_prices token_prices' : list Json.payload)
  (df : list row) :
  Permutation token_prices token_prices' ->
  historical_prices_to_df token_prices = Ok df ->
  exists df', historical_prices_to_df token_prices' = Ok df'
    /\ Permutation df df'.
Proof.
  intros Hperm. unfold historical_prices_to_df.
  assert (Hrec : Permutation (json_normalize token_prices)
                   (json_normalize token_prices'))
    by (unfold json_normalize; now apply Permutation_flat_map).
  destruct (json_normalize token_prices) as [|item items] eqn:E; [discriminate|].
  destruct (json_normalize token_prices') as [|item' items'] eqn:E'.
  { apply Permutation_length in Hrec. discriminate. }
  intros Hdf. exact (mapM_perm _ _ _ Hrec df Hdf).
Qed.

Lemma summary_lines_perm `{SortKind} (df df' : list row)
  (rows : list (string * TickerSummary)) :
  Permutation df df' ->
  RowOrder.distinct_samples df ->
  (forall r, In r df -> PrimFloat.is_nan (price r) = false) ->
  mapM (Refine.summary_line df) (group_keys (map ticker df)) = Ok rows ->
  mapM (Refine.summary_line df') (group_keys (map ticker df')) = Ok rows.
Proof.
  intros Hperm Hd Hn Hrows.
  rewrite <- (Keys.group_keys_perm (map ticker df) (map ticker df'))
    by now apply Permutation_map.
  rewrite <- Hrows. apply RowOrder.mapM_ext_in.
  intros k Hk. apply (proj1 (Keys.group_keys_In _ _)) in Hk.
  unfold Refine.summary_line.
  now rewrite (RowOrder.summarise_perm k df df' Hperm Hd Hn Hk).
Qed.

Section Fetched.

Variable API_KEY : string.
Variable server : Http.Request -> Http.Response.
Variables from_date to_date : string.

Definition body (t : string) : Json.payload :=
  Http.json (server (request API_KEY t from_date to_date)).

(** A batch whose responses all come in with status 200. *)
Lemma complete_batch (ticker_list : list string) (arrivals : list nat) :
  (forall i, (i < length ticker_list)%nat -> i ∈ arrivals) ->
  (forall t, t ∈ ticker_list ->
     Http.status_code (server (request API_KEY t from_date to_date)) = 200) ->
  get_all_token_prices API_KEY server ticker_list from_date to_date arrivals
  = (map (fun t => request API_KEY t from_date to_date) ticker_list,
     Finished (Ok (map body ticker_list))).
Proof.
  intros Hall Hok. rewrite batch_outcome.
  destruct (first_failure _ _ _ _ _ arrivals) as [e|] eqn:Hf.
  - apply first_failure_Some in Hf as (t & Ht & Hbad & _).
    exfalso. apply Hbad. now apply Hok.
  - rewrite values_settled; [reflexivity|].
    intros i Hi. apply list_elem_of_In. apply -> in_rev.
    apply list_elem_of_In. auto.
Qed.

End Fetched.

End TickerOrder.

(** X17. The order of the ticker list decides the order of the requests and
    nothing else. When all the responses come in with status 200 and the
    flattened samples are numeric, with no two samples of a ticker sharing a
    date or a price, a run over any rearrangement of the ticker list prints
    and charts the same table. *)
Theorem ticker_order_is_irrelevant `{SortKind} (API_KEY : string)
  (server : Http.Request -> Http.Response)
  (ticker_list ticker_list' : list string) (from_date to_date : string)
  (deposit : Z) (d : float) (arrivals arrivals' : list nat) (df : list row) :
  Permutation ticker_list ticker_list' ->
  (forall i, (i < length ticker_list)%nat -> i ∈ arrivals) ->
  (forall i, (i < length ticker_list')%nat -> i ∈ arrivals') ->
  (forall t, t ∈ ticker_list ->
     Http.status_code (server (request API_KEY t from_date to_date)) = 200) ->
  historical_prices_to_df
    (map (TickerOrder.body API_KEY server from_date to_date) ticker_list) = Ok df ->
  RowOrder.distinct_samples df ->
  (forall r, In r df -> PrimFloat.is_nan (price r) = false) ->
  float_of_int deposit = Ok d ->
  exists t : DataFrame,
    let shown :=
      [Printed t;
       Chart t ("Profit from " ++ from_date ++ " to " ++ to_date)%string] in
    script API_KEY server ticker_list from_date to_date deposit arrivals
    = (map (fun t => request API_KEY t from_date to_date) ticker_list,
       shown, Finished (Ok tt))
    /\ script API_KEY server ticker_list' from_date to_date deposit arrivals'
       = (map (fun t => request API_KEY t from_date to_date) ticker_list',
          shown, Finished (Ok tt)).
Proof.
  intros Hperm Hall Hall' Hok Hdf Hd Hn Hdep.
  assert (Hok' : forall t, t ∈ ticker_list' ->
            Http.status_code (server (request API_KEY t from_date to_date)) = 200).
  { intros t Ht. apply Hok. apply list_elem_of_In.
    eapply Permutation_in; [symmetry; exact Hperm|now apply list_elem_of_In]. }
  destruct (TickerOrder.flatten_perm _
              (map (TickerOrder.body API_KEY server from_date to_date) ticker_list')
              df (Permutation_map _ Hperm) Hdf) as (df' & Hdf' & Hrows').
  destruct (Refine.summary_lines_numbers df Hn) as (rows & Hrows & _ & _).
  pose proof (TickerOrder.summary_lines_perm df df' rows Hrows' Hd Hn Hrows)
    as Hlines'.
  exists (with_profits d rows). cbv zeta. split.
  - unfold script.
    rewrite (TickerOrder.complete_batch API_KEY server from_date to_date
               ticker_list arrivals Hall Hok).
    unfold bind at 1.
    rewrite (transform_rows _ deposit d df rows [] Hdf Hrows Hdep).
    reflexivity.
  - unfold script.
    rewrite (TickerOrder.complete_batch API_KEY server from_date to_date
               ticker_list' arrivals' Hall' Hok').
    unfold bind at 1.
    rewrite (transform_rows _ deposit d df' rows [] Hdf' Hlines' Hdep).
    reflexivity.
Qed.

Lemma ticker_order_is_irrelevant_witness :
  exists t : DataFrame,
    let shown :=
      [Printed t;
       Chart t ("Profit from " ++ "2021-01-01" ++ " to " ++ "2021-04-19")%string] in
    script (H := StableSort.stable) "k" server_two ["AAA"; "BBB"]
      "2021-01-01" "2021-04-19" 1000 [0; 1]%nat
    = (map (fun t => request "k" t "2021-01-01" "2021-04-19") ["AAA"; "BBB"],
       shown, Finished (Ok tt))
    /\ script (H := StableSort.stable) "k" server_two ["BBB"; "AAA"]
         "2021-01-01" "2021-04-19" 1000 [1; 0]%nat
       = (map (fun t => request "k" t "2021-01-01" "2021-04-19") ["BBB"; "AAA"],
          shown, Finished (Ok tt)).
Proof.
  apply (ticker_order_is_irrelevant (H := StableSort.stable) "k" server_two
           ["AAA"; "BBB"] ["BBB"; "AAA"] "2021-01-01" "2021-04-19" 1000
           1000%float [0; 1]%nat [1; 0]%nat (aaa_rows ++ bbb_rows)).
  - apply perm_swap.
  - intros i Hi. apply list_elem_of_In.
    destruct i as [|[|i]]; simpl in *; [tauto|tauto|lia].
  - intros i Hi. apply list_elem_of_In.
    destruct i as [|[|i]]; simpl in *; [tauto|tauto|lia].
  - intros t Ht. apply list_elem_of_In in Ht.
    destruct Ht as [<-|[<-|[]]]; reflexivity.
  - vm_compute. reflexivity.
  - intros i j ri rj Hi Hj Hij Hk.
    destruct i as [|[|[|[|[|i]]]]]; destruct j as [|[|[|[|[|j]]]]];
      simpl in Hi, Hj; try discriminate;
      try (exfalso; apply Hij; reflexivity);
      injection Hi as <-; injection Hj as <-; simpl in Hk; try discriminate;
      (split; [simpl; lia|reflexivity]).
  - intros r [<-|[<-|[<-|[<-|[<-|[]]]]]]; reflexivity.
  - vm_compute. reflexivity.
Defined.

(** The two runs of the witness flatten to different working tables, the rows
    of AAA first in one and those of BBB first in the other, and show one
    table, its lines in ticker order. *)
Example two_orders_one_table :
  historical_prices_to_df
    (map (TickerOrder.body "k" server_two "2021-01-01" "2021-04-19")
         ["AAA"; "BBB"])
  = Ok (aaa_rows ++ bbb_rows)
  /\ historical_prices_to_df
       (map (TickerOrder.body "k" server_two "2021-01-01" "2021-04-19")
            ["BBB"; "AAA"])
     = Ok (bbb_rows ++ aaa_rows)
  /\ fst (fst (script (H := StableSort.stable) "k" server_two ["BBB"; "AAA"]
                 "2021-01-01" "2021-04-19" 1000 [1; 0]%nat))
     = [request "k" "BBB" "2021-01-01" "2021-04-19";
        request "k" "AAA" "2021-01-01" "2021-04-19"]
  /\ snd (fst (script (H := StableSort.stable) "k" server_two ["BBB"; "AAA"]
                 "2021-01-01" "2021-04-19" 1000 [1; 0]%nat))
     = snd (fst (script (H := StableSort.stable) "k" server_two ["AAA"; "BBB"]
                   "2021-01-01" "2021-04-19" 1000 [0; 1]%nat))
  /\ (exists t title,
        snd (fst (script (H := StableSort.stable) "k" server_two ["BBB"; "AAA"]
                    "2021-01-01" "2021-04-19" 1000 [1; 0]%nat))
        = [Printed t; Chart t title]
        /\ index t = ["AAA"; "BBB"]).
Proof.
  repeat split; try (vm_compute; reflexivity).
  eexists _, _. split; vm_compute; reflexivity.
Qed.
